(** * Fandomat coordinator: a shallow embedding of the control plane

    The development embeds the register cell ([plc/modbus_register.py]), the
    device driver ([plc/plc.py]), the peer hub ([websocket/server.py]) and the
    coordinator ([plc/application.py]) as executable Rocq definitions, and
    proves the properties of the state machine over them.

    Conventions of the embedding:
    - Python integers are [Z]; register words keep the source's bit
      operations ([Z.lor], [Z.land], [Z.lnot], [Z.shiftl], [Z.shiftr]).
    - [time.time()] readings are rationals ([Q], seconds); the clock is read
      from the world and advances between iterations of the main loop.
    - Python dictionaries keyed by peer name are [gmap string _]; a decoded
      JSON object is an association list in insertion order.
    - The coordinator's imperative code is written in a state-and-exception
      monad over the world; one iteration of [Application.run] is atomic
      with respect to the poller and hub threads, whose effects are the
      environment events between two iterations. *)

From Stdlib Require Import ZArith QArith Lqa String Ascii List Bool Lia.
From stdpp Require Import gmap strings.

Set Warnings "-register-all".

Local Open Scope string_scope.
Local Open Scope Z_scope.

(** ** Python values decoded from JSON *)

Inductive json : Type :=
| JNull
| JBool (b : bool)
| JInt (n : Z)
| JFloat (q : Q)
| JStr (s : string)
| JArr (items : list json)
| JObj (fields : list (string * json)).

(** A Python [dict] with string keys, in insertion order. *)
Definition dict : Type := list (string * json).

Fixpoint dict_has (k : string) (d : dict) : bool :=
  match d with
  | [] => false
  | (k', _) :: d' => if String.eqb k k' then true else dict_has k d'
  end.

(** [d.get(k)]: the value bound to [k], [None] (here [JNull]) when absent. *)
Fixpoint dict_get (k : string) (d : dict) : json :=
  match d with
  | [] => JNull
  | (k', v) :: d' => if String.eqb k k' then v else dict_get k d'
  end.

(** [d[k] = v]: replaces the binding in place or appends a new one. *)
Fixpoint dict_set (k : string) (v : json) (d : dict) : dict :=
  match d with
  | [] => [(k, v)]
  | (k', v') :: d' =>
      if String.eqb k k' then (k, v) :: d' else (k', v') :: dict_set k v d'
  end.

(** Python truthiness ([if x:], [not x], [x or y]). *)
Definition truthy (v : json) : bool :=
  match v with
  | JNull => false
  | JBool b => b
  | JInt n => negb (n =? 0)
  | JFloat q => negb (Qeq_bool q 0)
  | JStr s => negb (String.eqb s "")
  | JArr l => match l with [] => false | _ => true end
  | JObj d => match d with [] => false | _ => true end
  end.

(** Lists and dictionaries are unhashable: using one as a dictionary key, or
    testing [x in some_dict] with one, raises [TypeError]. *)
Definition hashable (v : json) : bool :=
  match v with
  | JArr _ | JObj _ => false
  | _ => true
  end.

(** [v == s] for a string literal [s]. *)
Definition json_eq_str (v : json) (s : string) : bool :=
  match v with
  | JStr s' => String.eqb s' s
  | _ => false
  end.

(** What [json.loads] does with a text: a decoded value, or
    [json.JSONDecodeError]. *)
Inductive loads_result : Type :=
| Decoded (v : json)
| JSONDecodeError.

(** A message handed to a peer socket: [json.dumps] of a value, or a bare
    string. *)
Inductive wire : Type :=
| Dumps (v : json)
| Raw (s : string).

(** Truthiness of integers and of optional clock readings
    ([if x and self.carriage_moving_start_time:]). *)
Definition Ztruthy (n : Z) : bool := negb (n =? 0).

Definition Qltb (x y : Q) : bool :=
  match Qcompare x y with Lt => true | _ => false end.

Definition time_truthy (t : option Q) : bool :=
  match t with
  | None => false
  | Some q => negb (Qeq_bool q 0)
  end.

(** ** Register cell ([plc/modbus_register.py]) *)

Module ModbusRegister.

Record t : Type := mk { register_number : Z; value : Z }.

(** [slave.set_values('holding', register_number, value)] as the pair
    written. *)
Definition sync_to_device (r : t) : Z * Z := (register_number r, value r).

Definition set_bit (bit_num : Z) (state : Z) (r : t) : t * (Z * Z) :=
  let r' :=
    if Ztruthy state
    then mk (register_number r) (Z.lor (value r) (Z.shiftl 1 bit_num))
    else mk (register_number r) (Z.land (value r) (Z.lnot (Z.shiftl 1 bit_num))) in
  (r', sync_to_device r').

Definition get_bit (bit_num : Z) (r : t) : Z :=
  Z.land (Z.shiftr (value r) bit_num) 1.

Definition set_value (v : Z) (r : t) : t * (Z * Z) :=
  let r' := mk (register_number r) v in (r', sync_to_device r').

Definition get_value (r : t) : Z := value r.

Definition reset_all_bits (r : t) : t * (Z * Z) :=
  let r' := mk (register_number r) 0 in (r', sync_to_device r').

(** [sync_from_device]: [status] is what [slave.get_values] returned; an
    empty result leaves the word as it is. *)
Definition sync_from_device (status : list Z) (r : t) : t :=
  match status with
  | [] => r
  | v :: _ => mk (register_number r) v
  end.

End ModbusRegister.

(** ** Device driver ([plc/plc.py]) *)

Module PLC.

Record t : Type := mk {
  modbus_register_cmd : ModbusRegister.t;
  modbus_register_status : ModbusRegister.t;
  modbus_register_speed : ModbusRegister.t;
  modbus_register_bank_counter : ModbusRegister.t;
  modbus_register_bottle_counter : ModbusRegister.t;
  modbus_register_bottle_percent : ModbusRegister.t;
  modbus_register_bank_percent : ModbusRegister.t;
  (** every [set_values] issued to the slave, oldest first *)
  slave_writes : list (Z * Z)
}.

(** [PLC.__init__] with the default register numbers; the speed is written
    through once. *)
Definition init (speed : Z) : t :=
  let '(sp, wr) := ModbusRegister.set_value speed (ModbusRegister.mk 24 0) in
  mk (ModbusRegister.mk 25 0) (ModbusRegister.mk 26 0) sp
     (ModbusRegister.mk 20 0) (ModbusRegister.mk 21 0)
     (ModbusRegister.mk 22 0) (ModbusRegister.mk 23 0) [wr].

(** What the slave's holding block holds for the five polled registers. *)
Record device : Type := mk_device {
  dev_status : list Z;
  dev_bank_counter : list Z;
  dev_bottle_counter : list Z;
  dev_bottle_percent : list Z;
  dev_bank_percent : list Z
}.

Definition update_data (d : device) (p : t) : t :=
  mk (modbus_register_cmd p)
     (ModbusRegister.sync_from_device (dev_status d) (modbus_register_status p))
     (modbus_register_speed p)
     (ModbusRegister.sync_from_device (dev_bank_counter d) (modbus_register_bank_counter p))
     (ModbusRegister.sync_from_device (dev_bottle_counter d) (modbus_register_bottle_counter p))
     (ModbusRegister.sync_from_device (dev_bottle_percent d) (modbus_register_bottle_percent p))
     (ModbusRegister.sync_from_device (dev_bank_percent d) (modbus_register_bank_percent p))
     (slave_writes p).

Definition status_bit (n : Z) (p : t) : Z :=
  ModbusRegister.get_bit n (modbus_register_status p).

Definition get_state_veil := status_bit 0.
Definition get_state_left_sensor_carriage := status_bit 1.
Definition get_state_center_sensor_carriage := status_bit 2.
Definition get_state_right_sensor_carriage := status_bit 3.
Definition get_state_unknown_sensor_carriage := status_bit 4.
Definition get_state_weight_error := status_bit 5.
Definition get_bank_exist := status_bit 6.
Definition get_bottle_exist := status_bit 7.
Definition get_weight_too_small := status_bit 8.
Definition get_bottle_weight_ok := status_bit 9.
Definition get_bank_weight_ok := status_bit 10.
Definition get_status_work := status_bit 11.
Definition get_left_movement_error := status_bit 12.
Definition get_right_movement_error := status_bit 13.

Definition get_bank_count (p : t) : Z :=
  ModbusRegister.get_value (modbus_register_bank_counter p).
Definition get_bottle_count (p : t) : Z :=
  ModbusRegister.get_value (modbus_register_bottle_counter p).
Definition get_bottle_fill_percent (p : t) : Z :=
  ModbusRegister.get_value (modbus_register_bottle_percent p).
Definition get_bank_fill_percent (p : t) : Z :=
  ModbusRegister.get_value (modbus_register_bank_percent p).

Definition with_cmd (rw : ModbusRegister.t * (Z * Z)) (p : t) : t :=
  mk (fst rw) (modbus_register_status p) (modbus_register_speed p)
     (modbus_register_bank_counter p) (modbus_register_bottle_counter p)
     (modbus_register_bottle_percent p) (modbus_register_bank_percent p)
     (slave_writes p ++ [snd rw]).

Definition cmd_set_bit (n state : Z) (p : t) : t :=
  with_cmd (ModbusRegister.set_bit n state (modbus_register_cmd p)) p.

Definition cmd_lock_and_block_carriage := cmd_set_bit 0 1.
Definition cmd_weight_error_reset := cmd_set_bit 1 1.
Definition cmd_reset_bank_counters := cmd_set_bit 2 1.
Definition cmd_reset_bottle_counters := cmd_set_bit 3 1.
Definition cmd_force_move_carriage_left := cmd_set_bit 4 1.
Definition cmd_force_move_carriage_right := cmd_set_bit 5 1.
Definition cmd_radxa_detected_bank := cmd_set_bit 6 1.
Definition cmd_radxa_detected_bottle := cmd_set_bit 7 1.
Definition cmd_radxa_stop_detected_bank := cmd_set_bit 6 0.
Definition cmd_radxa_stop_detected_bottle := cmd_set_bit 7 0.
Definition cmd_reset_weight_reading := cmd_set_bit 8 1.

Definition cmd_full_clear_register (p : t) : t :=
  with_cmd (ModbusRegister.reset_all_bits (modbus_register_cmd p)) p.

(** The command word held in memory. *)
Definition cmd_word (p : t) : Z := ModbusRegister.value (modbus_register_cmd p).

End PLC.

(** ** Peer hub ([websocket/server.py]) *)

Module WebSocket.

(** One entry of [client_messages]: the registration writes the three
    keys, a later message rewrites the entry with two keys only, so
    ["just_connected"] may be absent. *)
Record slot : Type := mk_slot {
  message : string;
  timestamp : Q;
  just_connected : option bool
}.

Record t : Type := mk {
  (** name to connection *)
  clients : gmap string nat;
  client_messages : gmap string slot;
  request : string;
  message_app : string;
  (** every [send_to_client] call, oldest first; the hub's event loop
      delivers an entry if it is running and the peer is registered *)
  sent : list (string * wire)
}.

Definition init : t := mk ∅ ∅ "NONE" "" [].

(** [_handler], lines 92-101: the peer [client_name] registers on
    connection [conn]. *)
Definition handler_register (client_name : string) (conn : nat) (now : Q) (h : t) : t :=
  mk (<[client_name := conn]> (clients h))
     (<[client_name := mk_slot "" now (Some true)]> (client_messages h))
     (request h) (message_app h) (sent h).

(** [_handler], lines 106-119: one message of a registered peer. *)
Definition handler_message (client_name : string) (msg : string) (now : Q) (h : t) : t :=
  mk (clients h)
     (<[client_name := mk_slot msg now None]> (client_messages h))
     msg
     (if String.eqb client_name "app" then msg else message_app h)
     (sent h).

(** [_handler], the [finally] block. *)
Definition handler_disconnect (client_name : string) (h : t) : t :=
  mk (delete client_name (clients h))
     (delete client_name (client_messages h))
     (request h) (message_app h) (sent h).

Definition send_to_client (client_name : string) (msg : wire) (h : t) : t :=
  mk (clients h) (client_messages h) (request h) (message_app h)
     (sent h ++ [(client_name, msg)]).

Definition get_command (client_name : string) (h : t) : string * t :=
  match client_messages h !! client_name with
  | Some s =>
      (message s,
       mk (clients h)
          (<[client_name := mk_slot "" (timestamp s) (just_connected s)]> (client_messages h))
          (request h) (message_app h) (sent h))
  | None => ("", h)
  end.

Definition is_client_just_connected (client_name : string) (h : t) : bool * t :=
  match client_messages h !! client_name with
  | Some s =>
      if default false (just_connected s)
      then (true,
            mk (clients h)
               (<[client_name := mk_slot (message s) (timestamp s) (Some false)]> (client_messages h))
               (request h) (message_app h) (sent h))
      else (false, h)
  | None => (false, h)
  end.

Definition get_state (client_name : string) (h : t) : string :=
  match client_messages h !! client_name with
  | Some s => message s
  | None => ""
  end.

End WebSocket.

(** ** A JSON decoder to run the model on concrete texts

    [json.loads] belongs to Python's library, so the coordinator below takes
    the decoder as a parameter.  [loads] is a decoder for the texts used in
    the examples: objects, arrays, strings with the two-character escapes,
    integers, decimal fractions and the three literals.  It rejects
    [\uXXXX] escapes, exponents and the non-standard [NaN] and [Infinity]. *)

Module JsonText.

Definition dquote : ascii := "034"%char.
Definition backslash : ascii := "092"%char.

Definition is_ws (c : ascii) : bool :=
  match nat_of_ascii c with
  | 32%nat | 9%nat | 10%nat | 13%nat => true
  | _ => false
  end.

Definition digit_of (c : ascii) : option Z :=
  let n := Z.of_nat (nat_of_ascii c) in
  if (48 <=? n) && (n <=? 57) then Some (n - 48) else None.

Fixpoint skip_ws (s : string) : string :=
  match s with
  | String c s' => if is_ws c then skip_ws s' else s
  | EmptyString => s
  end.

(** Digits at the head of [s]: their value continuing [acc], how many
    there were, and the rest. *)
Fixpoint digits (acc : Z) (count : nat) (s : string) : Z * nat * string :=
  match s with
  | String c s' =>
      match digit_of c with
      | Some d => digits (10 * acc + d) (S count) s'
      | None => (acc, count, s)
      end
  | EmptyString => (acc, count, s)
  end.

Definition unescape (c : ascii) : option ascii :=
  match nat_of_ascii c with
  | 34%nat => Some dquote
  | 92%nat => Some backslash
  | 47%nat => Some "/"%char
  | 98%nat => Some "008"%char
  | 102%nat => Some "012"%char
  | 110%nat => Some "010"%char
  | 114%nat => Some "013"%char
  | 116%nat => Some "009"%char
  | _ => None
  end.

(** The body of a string literal, after the opening quote. *)
Fixpoint string_body (s : string) : option (string * string) :=
  match s with
  | EmptyString => None
  | String c s' =>
      if Ascii.eqb c dquote then Some (EmptyString, s')
      else if Ascii.eqb c backslash then
        match s' with
        | String e s'' =>
            match unescape e, string_body s'' with
            | Some c', Some (body, rest) => Some (String c' body, rest)
            | _, _ => None
            end
        | EmptyString => None
        end
      else if (nat_of_ascii c <? 32)%nat then None
      else
        match string_body s' with
        | Some (body, rest) => Some (String c body, rest)
        | None => None
        end
  end.

Definition number (s : string) : option (json * string) :=
  let '(neg, s1) :=
    match s with
    | String "-"%char s' => (true, s')
    | _ => (false, s)
    end in
  let '(n, k, s2) := digits 0 0 s1 in
  let leading_zero :=
    match s1 with
    | String "0"%char _ => (1 <? k)%nat
    | _ => false
    end in
  if ((k =? 0)%nat || leading_zero)%bool then None
  else
    match s2 with
    | String "."%char s3 =>
        let '(f, kf, s4) := digits 0 0 s3 in
        if (kf =? 0)%nat then None
        else
          let q := (inject_Z n + (f # Pos.pow 10 (Pos.of_nat kf)))%Q in
          Some (JFloat (Qred (if neg then - q else q)%Q), s4)
    | _ => Some (JInt (if neg then - n else n), s2)
    end.

Fixpoint strip_prefix (p s : string) : option string :=
  match p, s with
  | EmptyString, _ => Some s
  | String a p', String b s' => if Ascii.eqb a b then strip_prefix p' s' else None
  | String _ _, EmptyString => None
  end.

Fixpoint value (fuel : nat) (s : string) : option (json * string) :=
  match fuel with
  | O => None
  | S fuel' =>
      match skip_ws s with
      | EmptyString => None
      | String c s' =>
          if Ascii.eqb c dquote then
            match string_body s' with
            | Some (body, rest) => Some (JStr body, rest)
            | None => None
            end
          else if Ascii.eqb c "["%char then
            match skip_ws s' with
            | String "]"%char rest => Some (JArr [], rest)
            | _ =>
                match elements fuel' s' with
                | Some (items, rest) => Some (JArr items, rest)
                | None => None
                end
            end
          else if Ascii.eqb c "{"%char then
            match skip_ws s' with
            | String "}"%char rest => Some (JObj [], rest)
            | _ =>
                match members fuel' [] s' with
                | Some (fields, rest) => Some (JObj fields, rest)
                | None => None
                end
            end
          else
            match strip_prefix "null" (String c s'), strip_prefix "true" (String c s'),
                  strip_prefix "false" (String c s') with
            | Some rest, _, _ => Some (JNull, rest)
            | _, Some rest, _ => Some (JBool true, rest)
            | _, _, Some rest => Some (JBool false, rest)
            | _, _, _ => number (String c s')
            end
      end
  end
with elements (fuel : nat) (s : string) : option (list json * string) :=
  match fuel with
  | O => None
  | S fuel' =>
      match value fuel' s with
      | Some (v, rest) =>
          match skip_ws rest with
          | String "]"%char rest' => Some ([v], rest')
          | String ","%char rest' =>
              match elements fuel' rest' with
              | Some (vs, rest'') => Some (v :: vs, rest'')
              | None => None
              end
          | _ => None
          end
      | None => None
      end
  end
with members (fuel : nat) (acc : dict) (s : string) : option (dict * string) :=
  match fuel with
  | O => None
  | S fuel' =>
      match skip_ws s with
      | String c s1 =>
          if Ascii.eqb c dquote then
            match string_body s1 with
            | Some (key, s2) =>
                match skip_ws s2 with
                | String ":"%char s3 =>
                    match value fuel' s3 with
                    | Some (v, s4) =>
                        let acc' := dict_set key v acc in
                        match skip_ws s4 with
                        | String "}"%char rest => Some (acc', rest)
                        | String ","%char rest => members fuel' acc' rest
                        | _ => None
                        end
                    | None => None
                    end
                | _ => None
                end
            | None => None
            end
          else None
      | EmptyString => None
      end
  end.

Definition loads (s : string) : loads_result :=
  match value (2 * String.length s + 2) s with
  | Some (v, rest) =>
      match skip_ws rest with
      | EmptyString => Decoded v
      | _ => JSONDecodeError
      end
  | None => JSONDecodeError
  end.

(** [quoted s] is the JSON string literal for a text without special
    characters. *)
Definition quoted (s : string) : string :=
  String dquote s ++ String dquote EmptyString.

End JsonText.

(** ** Coordinator ([plc/application.py]) *)

Inductive AppState : Type :=
| IDLE
| WAITING_VISION
| DUMPING_PLASTIC
| DUMPING_ALUMINUM
| ERROR.

(** [AppState.value] *)
Definition AppState_value (s : AppState) : string :=
  match s with
  | IDLE => "idle"
  | WAITING_VISION => "waiting_vision"
  | DUMPING_PLASTIC => "dumping_plastic"
  | DUMPING_ALUMINUM => "dumping_aluminum"
  | ERROR => "error"
  end.

Definition AppState_eqb (a b : AppState) : bool :=
  match a, b with
  | IDLE, IDLE | WAITING_VISION, WAITING_VISION
  | DUMPING_PLASTIC, DUMPING_PLASTIC | DUMPING_ALUMINUM, DUMPING_ALUMINUM
  | ERROR, ERROR => true
  | _, _ => false
  end.

(** The attributes of [Application] that the main loop reads or writes,
    together with what the loop observes of its surroundings: the clock
    behind [time.time()] and the number of photo workers started.  The
    snapshots initialised to [False] are integers here ([False == 0]), since
    the loop stores register bits in them. *)
Record World : Type := mkWorld {
  door_locked : bool;
  device_config : json;
  state : AppState;
  current_plc_detection : option string;
  vision_request_time : option Q;
  dump_started_time : option Q;
  prev_veil_state : Z;
  veil_just_cleared : bool;
  veil_cleared_time : option Q;
  carriage_moving_bottle : bool;
  carriage_moving_bank : bool;
  carriage_moving_start_time : option Q;
  _prev_receiver_state : Z;
  _prev_weight_error : Z;
  _prev_weight_too_small : Z;
  _prev_left_movement_error : Z;
  _prev_right_movement_error : Z;
  _inference_requested : bool;
  _pending_vision_response : option string;
  running : bool;
  PLC : PLC.t;
  websocket_server : WebSocket.t;
  clock : Q;
  photo_workers : nat
}.

Definition set_door_locked (v : bool) (w : World) : World :=
  mkWorld
    v (device_config w) (state w) (current_plc_detection w) (vision_request_time w)
    (dump_started_time w) (prev_veil_state w) (veil_just_cleared w)
    (veil_cleared_time w) (carriage_moving_bottle w) (carriage_moving_bank w)
    (carriage_moving_start_time w) (_prev_receiver_state w) (_prev_weight_error w)
    (_prev_weight_too_small w) (_prev_left_movement_error w)
    (_prev_right_movement_error w) (_inference_requested w)
    (_pending_vision_response w) (running w) (PLC w) (websocket_server w) (clock w)
    (photo_workers w).

Definition set_device_config (v : json) (w : World) : World :=
  mkWorld
    (door_locked w) v (state w) (current_plc_detection w) (vision_request_time w)
    (dump_started_time w) (prev_veil_state w) (veil_just_cleared w)
    (veil_cleared_time w) (carriage_moving_bottle w) (carriage_moving_bank w)
    (carriage_moving_start_time w) (_prev_receiver_state w) (_prev_weight_error w)
    (_prev_weight_too_small w) (_prev_left_movement_error w)
    (_prev_right_movement_error w) (_inference_requested w)
    (_pending_vision_response w) (running w) (PLC w) (websocket_server w) (clock w)
    (photo_workers w).

Definition set_state (v : AppState) (w : World) : World :=
  mkWorld
    (door_locked w) (device_config w) v (current_plc_detection w)
    (vision_request_time w) (dump_started_time w) (prev_veil_state w)
    (veil_just_cleared w) (veil_cleared_time w) (carriage_moving_bottle w)
    (carriage_moving_bank w) (carriage_moving_start_time w)
    (_prev_receiver_state w) (_prev_weight_error w) (_prev_weight_too_small w)
    (_prev_left_movement_error w) (_prev_right_movement_error w)
    (_inference_requested w) (_pending_vision_response w) (running w) (PLC w)
    (websocket_server w) (clock w) (photo_workers w).

Definition set_current_plc_detection (v : option string) (w : World) : World :=
  mkWorld
    (door_locked w) (device_config w) (state w) v (vision_request_time w)
    (dump_started_time w) (prev_veil_state w) (veil_just_cleared w)
    (veil_cleared_time w) (carriage_moving_bottle w) (carriage_moving_bank w)
    (carriage_moving_start_time w) (_prev_receiver_state w) (_prev_weight_error w)
    (_prev_weight_too_small w) (_prev_left_movement_error w)
    (_prev_right_movement_error w) (_inference_requested w)
    (_pending_vision_response w) (running w) (PLC w) (websocket_server w) (clock w)
    (photo_workers w).

Definition set_vision_request_time (v : option Q) (w : World) : World :=
  mkWorld
    (door_locked w) (device_config w) (state w) (current_plc_detection w) v
    (dump_started_time w) (prev_veil_state w) (veil_just_cleared w)
    (veil_cleared_time w) (carriage_moving_bottle w) (carriage_moving_bank w)
    (carriage_moving_start_time w) (_prev_receiver_state w) (_prev_weight_error w)
    (_prev_weight_too_small w) (_prev_left_movement_error w)
    (_prev_right_movement_error w) (_inference_requested w)
    (_pending_vision_response w) (running w) (PLC w) (websocket_server w) (clock w)
    (photo_workers w).

Definition set_dump_started_time (v : option Q) (w : World) : World :=
  mkWorld
    (door_locked w) (device_config w) (state w) (current_plc_detection w)
    (vision_request_time w) v (prev_veil_state w) (veil_just_cleared w)
    (veil_cleared_time w) (carriage_moving_bottle w) (carriage_moving_bank w)
    (carriage_moving_start_time w) (_prev_receiver_state w) (_prev_weight_error w)
    (_prev_weight_too_small w) (_prev_left_movement_error w)
    (_prev_right_movement_error w) (_inference_requested w)
    (_pending_vision_response w) (running w) (PLC w) (websocket_server w) (clock w)
    (photo_workers w).

Definition set_prev_veil_state (v : Z) (w : World) : World :=
  mkWorld
    (door_locked w) (device_config w) (state w) (current_plc_detection w)
    (vision_request_time w) (dump_started_time w) v (veil_just_cleared w)
    (veil_cleared_time w) (carriage_moving_bottle w) (carriage_moving_bank w)
    (carriage_moving_start_time w) (_prev_receiver_state w) (_prev_weight_error w)
    (_prev_weight_too_small w) (_prev_left_movement_error w)
    (_prev_right_movement_error w) (_inference_requested w)
    (_pending_vision_response w) (running w) (PLC w) (websocket_server w) (clock w)
    (photo_workers w).

Definition set_veil_just_cleared (v : bool) (w : World) : World :=
  mkWorld
    (door_locked w) (device_config w) (state w) (current_plc_detection w)
    (vision_request_time w) (dump_started_time w) (prev_veil_state w) v
    (veil_cleared_time w) (carriage_moving_bottle w) (carriage_moving_bank w)
    (carriage_moving_start_time w) (_prev_receiver_state w) (_prev_weight_error w)
    (_prev_weight_too_small w) (_prev_left_movement_error w)
    (_prev_right_movement_error w) (_inference_requested w)
    (_pending_vision_response w) (running w) (PLC w) (websocket_server w) (clock w)
    (photo_workers w).

Definition set_veil_cleared_time (v : option Q) (w : World) : World :=
  mkWorld
    (door_locked w) (device_config w) (state w) (current_plc_detection w)
    (vision_request_time w) (dump_started_time w) (prev_veil_state w)
    (veil_just_cleared w) v (carriage_moving_bottle w) (carriage_moving_bank w)
    (carriage_moving_start_time w) (_prev_receiver_state w) (_prev_weight_error w)
    (_prev_weight_too_small w) (_prev_left_movement_error w)
    (_prev_right_movement_error w) (_inference_requested w)
    (_pending_vision_response w) (running w) (PLC w) (websocket_server w) (clock w)
    (photo_workers w).

Definition set_carriage_moving_bottle (v : bool) (w : World) : World :=
  mkWorld
    (door_locked w) (device_config w) (state w) (current_plc_detection w)
    (vision_request_time w) (dump_started_time w) (prev_veil_state w)
    (veil_just_cleared w) (veil_cleared_time w) v (carriage_moving_bank w)
    (carriage_moving_start_time w) (_prev_receiver_state w) (_prev_weight_error w)
    (_prev_weight_too_small w) (_prev_left_movement_error w)
    (_prev_right_movement_error w) (_inference_requested w)
    (_pending_vision_response w) (running w) (PLC w) (websocket_server w) (clock w)
    (photo_workers w).

Definition set_carriage_moving_bank (v : bool) (w : World) : World :=
  mkWorld
    (door_locked w) (device_config w) (state w) (current_plc_detection w)
    (vision_request_time w) (dump_started_time w) (prev_veil_state w)
    (veil_just_cleared w) (veil_cleared_time w) (carriage_moving_bottle w) v
    (carriage_moving_start_time w) (_prev_receiver_state w) (_prev_weight_error w)
    (_prev_weight_too_small w) (_prev_left_movement_error w)
    (_prev_right_movement_error w) (_inference_requested w)
    (_pending_vision_response w) (running w) (PLC w) (websocket_server w) (clock w)
    (photo_workers w).

Definition set_carriage_moving_start_time (v : option Q) (w : World) : World :=
  mkWorld
    (door_locked w) (device_config w) (state w) (current_plc_detection w)
    (vision_request_time w) (dump_started_time w) (prev_veil_state w)
    (veil_just_cleared w) (veil_cleared_time w) (carriage_moving_bottle w)
    (carriage_moving_bank w) v (_prev_receiver_state w) (_prev_weight_error w)
    (_prev_weight_too_small w) (_prev_left_movement_error w)
    (_prev_right_movement_error w) (_inference_requested w)
    (_pending_vision_response w) (running w) (PLC w) (websocket_server w) (clock w)
    (photo_workers w).

Definition set_prev_receiver_state (v : Z) (w : World) : World :=
  mkWorld
    (door_locked w) (device_config w) (state w) (current_plc_detection w)
    (vision_request_time w) (dump_started_time w) (prev_veil_state w)
    (veil_just_cleared w) (veil_cleared_time w) (carriage_moving_bottle w)
    (carriage_moving_bank w) (carriage_moving_start_time w) v
    (_prev_weight_error w) (_prev_weight_too_small w) (_prev_left_movement_error w)
    (_prev_right_movement_error w) (_inference_requested w)
    (_pending_vision_response w) (running w) (PLC w) (websocket_server w) (clock w)
    (photo_workers w).

Definition set_prev_weight_error (v : Z) (w : World) : World :=
  mkWorld
    (door_locked w) (device_config w) (state w) (current_plc_detection w)
    (vision_request_time w) (dump_started_time w) (prev_veil_state w)
    (veil_just_cleared w) (veil_cleared_time w) (carriage_moving_bottle w)
    (carriage_moving_bank w) (carriage_moving_start_time w)
    (_prev_receiver_state w) v (_prev_weight_too_small w)
    (_prev_left_movement_error w) (_prev_right_movement_error w)
    (_inference_requested w) (_pending_vision_response w) (running w) (PLC w)
    (websocket_server w) (clock w) (photo_workers w).

Definition set_prev_weight_too_small (v : Z) (w : World) : World :=
  mkWorld
    (door_locked w) (device_config w) (state w) (current_plc_detection w)
    (vision_request_time w) (dump_started_time w) (prev_veil_state w)
    (veil_just_cleared w) (veil_cleared_time w) (carriage_moving_bottle w)
    (carriage_moving_bank w) (carriage_moving_start_time w)
    (_prev_receiver_state w) (_prev_weight_error w) v (_prev_left_movement_error w)
    (_prev_right_movement_error w) (_inference_requested w)
    (_pending_vision_response w) (running w) (PLC w) (websocket_server w) (clock w)
    (photo_workers w).

Definition set_prev_left_movement_error (v : Z) (w : World) : World :=
  mkWorld
    (door_locked w) (device_config w) (state w) (current_plc_detection w)
    (vision_request_time w) (dump_started_time w) (prev_veil_state w)
    (veil_just_cleared w) (veil_cleared_time w) (carriage_moving_bottle w)
    (carriage_moving_bank w) (carriage_moving_start_time w)
    (_prev_receiver_state w) (_prev_weight_error w) (_prev_weight_too_small w) v
    (_prev_right_movement_error w) (_inference_requested w)
    (_pending_vision_response w) (running w) (PLC w) (websocket_server w) (clock w)
    (photo_workers w).

Definition set_prev_right_movement_error (v : Z) (w : World) : World :=
  mkWorld
    (door_locked w) (device_config w) (state w) (current_plc_detection w)
    (vision_request_time w) (dump_started_time w) (prev_veil_state w)
    (veil_just_cleared w) (veil_cleared_time w) (carriage_moving_bottle w)
    (carriage_moving_bank w) (carriage_moving_start_time w)
    (_prev_receiver_state w) (_prev_weight_error w) (_prev_weight_too_small w)
    (_prev_left_movement_error w) v (_inference_requested w)
    (_pending_vision_response w) (running w) (PLC w) (websocket_server w) (clock w)
    (photo_workers w).

Definition set_inference_requested (v : bool) (w : World) : World :=
  mkWorld
    (door_locked w) (device_config w) (state w) (current_plc_detection w)
    (vision_request_time w) (dump_started_time w) (prev_veil_state w)
    (veil_just_cleared w) (veil_cleared_time w) (carriage_moving_bottle w)
    (carriage_moving_bank w) (carriage_moving_start_time w)
    (_prev_receiver_state w) (_prev_weight_error w) (_prev_weight_too_small w)
    (_prev_left_movement_error w) (_prev_right_movement_error w) v
    (_pending_vision_response w) (running w) (PLC w) (websocket_server w) (clock w)
    (photo_workers w).

Definition set_pending_vision_response (v : option string) (w : World) : World :=
  mkWorld
    (door_locked w) (device_config w) (state w) (current_plc_detection w)
    (vision_request_time w) (dump_started_time w) (prev_veil_state w)
    (veil_just_cleared w) (veil_cleared_time w) (carriage_moving_bottle w)
    (carriage_moving_bank w) (carriage_moving_start_time w)
    (_prev_receiver_state w) (_prev_weight_error w) (_prev_weight_too_small w)
    (_prev_left_movement_error w) (_prev_right_movement_error w)
    (_inference_requested w) v (running w) (PLC w) (websocket_server w) (clock w)
    (photo_workers w).

Definition set_running (v : bool) (w : World) : World :=
  mkWorld
    (door_locked w) (device_config w) (state w) (current_plc_detection w)
    (vision_request_time w) (dump_started_time w) (prev_veil_state w)
    (veil_just_cleared w) (veil_cleared_time w) (carriage_moving_bottle w)
    (carriage_moving_bank w) (carriage_moving_start_time w)
    (_prev_receiver_state w) (_prev_weight_error w) (_prev_weight_too_small w)
    (_prev_left_movement_error w) (_prev_right_movement_error w)
    (_inference_requested w) (_pending_vision_response w) v (PLC w)
    (websocket_server w) (clock w) (photo_workers w).

Definition set_PLC (v : PLC.t) (w : World) : World :=
  mkWorld
    (door_locked w) (device_config w) (state w) (current_plc_detection w)
    (vision_request_time w) (dump_started_time w) (prev_veil_state w)
    (veil_just_cleared w) (veil_cleared_time w) (carriage_moving_bottle w)
    (carriage_moving_bank w) (carriage_moving_start_time w)
    (_prev_receiver_state w) (_prev_weight_error w) (_prev_weight_too_small w)
    (_prev_left_movement_error w) (_prev_right_movement_error w)
    (_inference_requested w) (_pending_vision_response w) (running w) v
    (websocket_server w) (clock w) (photo_workers w).

Definition set_websocket_server (v : WebSocket.t) (w : World) : World :=
  mkWorld
    (door_locked w) (device_config w) (state w) (current_plc_detection w)
    (vision_request_time w) (dump_started_time w) (prev_veil_state w)
    (veil_just_cleared w) (veil_cleared_time w) (carriage_moving_bottle w)
    (carriage_moving_bank w) (carriage_moving_start_time w)
    (_prev_receiver_state w) (_prev_weight_error w) (_prev_weight_too_small w)
    (_prev_left_movement_error w) (_prev_right_movement_error w)
    (_inference_requested w) (_pending_vision_response w) (running w) (PLC w) v
    (clock w) (photo_workers w).

Definition set_clock (v : Q) (w : World) : World :=
  mkWorld
    (door_locked w) (device_config w) (state w) (current_plc_detection w)
    (vision_request_time w) (dump_started_time w) (prev_veil_state w)
    (veil_just_cleared w) (veil_cleared_time w) (carriage_moving_bottle w)
    (carriage_moving_bank w) (carriage_moving_start_time w)
    (_prev_receiver_state w) (_prev_weight_error w) (_prev_weight_too_small w)
    (_prev_left_movement_error w) (_prev_right_movement_error w)
    (_inference_requested w) (_pending_vision_response w) (running w) (PLC w)
    (websocket_server w) v (photo_workers w).

Definition set_photo_workers (v : nat) (w : World) : World :=
  mkWorld
    (door_locked w) (device_config w) (state w) (current_plc_detection w)
    (vision_request_time w) (dump_started_time w) (prev_veil_state w)
    (veil_just_cleared w) (veil_cleared_time w) (carriage_moving_bottle w)
    (carriage_moving_bank w) (carriage_moving_start_time w)
    (_prev_receiver_state w) (_prev_weight_error w) (_prev_weight_too_small w)
    (_prev_left_movement_error w) (_prev_right_movement_error w)
    (_inference_requested w) (_pending_vision_response w) (running w) (PLC w)
    (websocket_server w) (clock w) v.


(** [Application.__init__] followed by [setup], at clock reading [now]. *)
Definition Application_init (speed : Z) (now : Q) : World :=
  mkWorld false JNull IDLE None None None 0 false None false false None
    0 0 0 0 0 false None true (PLC.init speed) WebSocket.init now 0.

Definition vision_timeout : Q := 2.
Definition dump_timeout : Q := 3.
Definition carriage_reset_timeout : Q := 2.

(** *** The monad of the main loop: state and exceptions *)

Inductive exn : Type :=
| AttributeError
| TypeError
| KeyError.

Inductive outcome (A : Type) : Type :=
| Ret (a : A) (w : World)
| Exc (e : exn) (w : World).
Arguments Ret {A} a w.
Arguments Exc {A} e w.

Definition M (A : Type) : Type := World -> outcome A.

Definition ret {A : Type} (a : A) : M A := fun w => Ret a w.

Definition bind {A B : Type} (m : M A) (k : A -> M B) : M B :=
  fun w =>
    match m w with
    | Ret a w' => k a w'
    | Exc e w' => Exc e w'
    end.

Definition raise {A : Type} (e : exn) : M A := fun w => Exc e w.

Definition gets {A : Type} (f : World -> A) : M A := fun w => Ret (f w) w.

Definition modify (f : World -> World) : M unit := fun w => Ret tt (f w).

(** The world an outcome leaves behind, whether it returned or raised. *)
Definition final {A : Type} (o : outcome A) : World :=
  match o with
  | Ret _ w => w
  | Exc _ w => w
  end.

Declare Scope py_scope.
Delimit Scope py_scope with py.
Notation "x <- m ;; k" := (bind m (fun x => k))
  (at level 100, m at next level, k at level 200, right associativity) : py_scope.
Notation "m ;; k" := (bind m (fun _ => k))
  (at level 100, k at level 200, right associativity) : py_scope.
Notation "'when' c 'then' m" := (if c then m else ret tt)
  (at level 100, c at next level, m at level 200) : py_scope.
Local Open Scope py_scope.

Definition time_time : M Q := gets clock.

(** [self.PLC.<getter>()] and [self.PLC.<command>()] *)
Definition plc_get {A : Type} (f : PLC.t -> A) : M A := gets (fun w => f (PLC w)).
Definition plc_cmd (f : PLC.t -> PLC.t) : M unit :=
  modify (fun w => set_PLC (f (PLC w)) w).

(** Calls on [self.websocket_server] *)
Definition ws_get_command (client_name : string) : M string :=
  fun w =>
    let '(m, h) := WebSocket.get_command client_name (websocket_server w) in
    Ret m (set_websocket_server h w).

Definition ws_is_client_just_connected (client_name : string) : M bool :=
  fun w =>
    let '(b, h) := WebSocket.is_client_just_connected client_name (websocket_server w) in
    Ret b (set_websocket_server h w).

Definition ws_send_to_client (client_name : string) (msg : wire) : M unit :=
  modify (fun w =>
    set_websocket_server (WebSocket.send_to_client client_name msg (websocket_server w)) w).

(** [create_event]: the value handed to [json.dumps].  Event data are
    dictionary literals, for which [data or {}] is [data]; the timestamp
    field carries the clock reading that [datetime.now().isoformat()]
    renders. *)
Definition event (event_name : string) (data : dict) (now : Q) : wire :=
  Dumps (JObj [("event", JStr event_name); ("data", JObj data); ("timestamp", JFloat now)]).

Definition create_event (event_name : string) (data : dict) : M wire :=
  now <- time_time ;;
  ret (event event_name data now).

Definition send_event_to_app (event_name : string) (data : dict) : M unit :=
  e <- create_event event_name data ;;
  ws_send_to_client "app" e.

(** A [str]-or-[None] attribute as a JSON value. *)
Definition json_of_opt (o : option string) : json :=
  match o with
  | Some s => JStr s
  | None => JNull
  end.

(** [x or "unknown"] for a [str]-or-[None] value. *)
Definition or_unknown (o : option string) : string :=
  match o with
  | Some s => if String.eqb s "" then "unknown" else s
  | None => "unknown"
  end.

Definition opt_is_some {A : Type} (o : option A) : bool :=
  match o with
  | Some _ => true
  | None => false
  end.

Definition opt_eq_str (o : option string) (s : string) : bool :=
  match o with
  | Some s' => String.eqb s' s
  | None => false
  end.

(** [time.time() - t > timeout]; subtracting [None] raises [TypeError]. *)
Definition elapsed_over (t : option Q) (timeout : Q) : M bool :=
  now <- time_time ;;
  match t with
  | Some t0 => ret (Qltb timeout (now - t0))
  | None => raise TypeError
  end.

(** *** Edge-triggered events *)

Definition _check_receiver_state : M unit :=
  bottle <- plc_get PLC.get_bottle_exist ;;
  bank <- plc_get PLC.get_bank_exist ;;
  let current_state := if Ztruthy bottle then bottle else bank in
  prev <- gets _prev_receiver_state ;;
  when negb (current_state =? prev) then (
    (if Ztruthy current_state
     then send_event_to_app "receiver_not_empty"
            [("bottle_exist", JInt bottle); ("bank_exist", JInt bank)]
     else send_event_to_app "receiver_empty" []) ;;
    modify (set_prev_receiver_state current_state)).

Definition rising_error (getter : PLC.t -> Z) (prev : World -> Z)
    (set_prev : Z -> World -> World) (error_code message : string) : M unit :=
  cur <- plc_get getter ;;
  p <- gets prev ;;
  (when Ztruthy cur && negb (Ztruthy p) then
     send_event_to_app "hardware_error"
       [("error_code", JStr error_code); ("message", JStr message)]) ;;
  modify (set_prev cur).

Definition _check_hardware_errors : M unit :=
  rising_error PLC.get_state_weight_error _prev_weight_error set_prev_weight_error
    "weight_error" "Ошибка взвешивания" ;;
  rising_error PLC.get_weight_too_small _prev_weight_too_small set_prev_weight_too_small
    "weight_too_small" "Вес слишком маленький" ;;
  rising_error PLC.get_left_movement_error _prev_left_movement_error
    set_prev_left_movement_error
    "left_movement_error" "Ошибка движения каретки влево" ;;
  rising_error PLC.get_right_movement_error _prev_right_movement_error
    set_prev_right_movement_error
    "right_movement_error" "Ошибка движения каретки вправо".

(** *** Dumping states *)

Record dumping_config : Type := mk_dumping_config {
  sensor_getter : PLC.t -> Z;
  type : string;
  counter_getter : PLC.t -> Z;
  error_code : string;
  error_message : string
}.

Definition _dumping_config (st : AppState) : option dumping_config :=
  match st with
  | DUMPING_PLASTIC =>
      Some (mk_dumping_config PLC.get_state_left_sensor_carriage "plastic"
              PLC.get_bottle_count "carriage_left_timeout"
              "Таймаут движения каретки влево")
  | DUMPING_ALUMINUM =>
      Some (mk_dumping_config PLC.get_state_right_sensor_carriage "aluminum"
              PLC.get_bank_count "carriage_right_timeout"
              "Таймаут движения каретки вправо")
  | _ => None
  end.

Definition _handle_dumping_state (st : AppState) : M unit :=
  match _dumping_config st with
  | None => raise KeyError
  | Some config =>
      sensor <- plc_get (sensor_getter config) ;;
      if sensor =? 1 then
        plc_cmd PLC.cmd_full_clear_register ;;
        modify (set_state IDLE) ;;
        modify (set_dump_started_time None) ;;
        counter <- plc_get (counter_getter config) ;;
        send_event_to_app "container_accepted"
          [("container_type", JStr (type config)); ("counter", JInt counter)]
      else
        started <- gets dump_started_time ;;
        late <- elapsed_over started dump_timeout ;;
        when late then (
          plc_cmd PLC.cmd_full_clear_register ;;
          modify (set_state ERROR) ;;
          modify (set_dump_started_time None) ;;
          send_event_to_app "hardware_error"
            [("error_code", JStr (error_code config));
             ("message", JStr (error_message config))])
  end.

(** *** Handlers of the commands of the [app] peer *)

Definition handle_device_init (config : json) : M unit :=
  if negb (truthy config) then ret tt
  else
    modify (set_device_config config) ;;
    send_event_to_app "device_init_ack" [("status", JStr "ok")].

Definition handle_get_device_info : M unit :=
  bottle_count <- plc_get PLC.get_bottle_count ;;
  bank_count <- plc_get PLC.get_bank_count ;;
  bottle_fill_percent <- plc_get PLC.get_bottle_fill_percent ;;
  bank_fill_percent <- plc_get PLC.get_bank_fill_percent ;;
  st <- gets state ;;
  left_sensor <- plc_get PLC.get_state_left_sensor_carriage ;;
  center_sensor <- plc_get PLC.get_state_center_sensor_carriage ;;
  right_sensor <- plc_get PLC.get_state_right_sensor_carriage ;;
  weight_error <- plc_get PLC.get_state_weight_error ;;
  locked <- gets door_locked ;;
  send_event_to_app "device_info"
    [("bottle_count", JInt bottle_count);
     ("bank_count", JInt bank_count);
     ("bottle_fill_percent", JInt bottle_fill_percent);
     ("bank_fill_percent", JInt bank_fill_percent);
     ("state", JStr (AppState_value st));
     ("left_sensor", JInt left_sensor);
     ("center_sensor", JInt center_sensor);
     ("right_sensor", JInt right_sensor);
     ("weight_error", JInt weight_error);
     ("door_locked", JBool locked)].

(** [handle_get_photo] starts the worker thread and returns; the worker
    talks to the vision peer on its own. *)
Definition handle_get_photo : M unit :=
  modify (fun w => set_photo_workers (S (photo_workers w)) w).

Definition handle_container_dump (container_type : json) : M unit :=
  if json_eq_str container_type "plastic" then
    modify (set_state DUMPING_PLASTIC) ;;
    now <- time_time ;;
    modify (set_dump_started_time (Some now)) ;;
    plc_cmd PLC.cmd_force_move_carriage_left ;;
    send_event_to_app "container_dumped" [("container_type", JStr "plastic")]
  else if json_eq_str container_type "aluminum" then
    modify (set_state DUMPING_ALUMINUM) ;;
    now <- time_time ;;
    modify (set_dump_started_time (Some now)) ;;
    plc_cmd PLC.cmd_force_move_carriage_right ;;
    send_event_to_app "container_dumped" [("container_type", JStr "aluminum")]
  else ret tt.

Definition handle_container_unloaded (container_type : json) : M unit :=
  (if json_eq_str container_type "plastic" then plc_cmd PLC.cmd_reset_bottle_counters
   else if json_eq_str container_type "aluminum" then plc_cmd PLC.cmd_reset_bank_counters
   else ret tt) ;;
  send_event_to_app "container_unloaded_ack" [("container_type", container_type)].

Definition handle_lock_door : M unit :=
  modify (set_door_locked true) ;;
  send_event_to_app "up_door_locked" [("status", JStr "ok")].

Definition handle_unlock_door : M unit :=
  modify (set_door_locked false) ;;
  send_event_to_app "up_door_unlocked" [("status", JStr "ok")].

Definition handle_stub_command (command_name : string) : M unit :=
  send_event_to_app (command_name ++ "_ack") [("status", JStr "not_implemented")].

(** The callables stored in the command registry. *)
Inductive handler : Type :=
| h_handle_get_photo
| h_handle_get_device_info
| h_handle_device_init
| h_handle_container_dump
| h_handle_container_unloaded
| h_handle_lock_door
| h_handle_unlock_door
| h_handle_stub_command
| h_cmd_full_clear_register
| h_cmd_force_move_carriage_left
| h_cmd_force_move_carriage_right
| h_cmd_weight_error_reset
| h_cmd_reset_weight_reading.

Definition _command_handlers : list (string * (handler * bool)) :=
  [ ("get_photo", (h_handle_get_photo, false));
    ("get_device_info", (h_handle_get_device_info, false));
    ("device_init", (h_handle_device_init, true));
    ("dump_container", (h_handle_container_dump, true));
    ("container_unloaded", (h_handle_container_unloaded, true));
    ("lock_door", (h_handle_lock_door, false));
    ("unlock_door", (h_handle_unlock_door, false));
    ("enter_service_mode", (h_handle_stub_command, false));
    ("exit_service_mode", (h_handle_stub_command, false));
    ("restore_device", (h_handle_stub_command, false));
    ("open_shutter", (h_handle_stub_command, false));
    ("reboot_device", (h_handle_stub_command, false));
    ("cmd_full_clear_register", (h_cmd_full_clear_register, false));
    ("cmd_force_move_carriage_left", (h_cmd_force_move_carriage_left, false));
    ("cmd_force_move_carriage_right", (h_cmd_force_move_carriage_right, false));
    ("cmd_weight_error_reset", (h_cmd_weight_error_reset, false));
    ("cmd_reset_weight_reading", (h_cmd_reset_weight_reading, false)) ].

Fixpoint registry_lookup {A : Type} (k : string) (l : list (string * A)) : option A :=
  match l with
  | [] => None
  | (k', v) :: l' => if String.eqb k k' then Some v else registry_lookup k l'
  end.

(** [handler()]: a callable that wants an argument raises [TypeError]. *)
Definition call0 (h : handler) : M unit :=
  match h with
  | h_handle_get_photo => handle_get_photo
  | h_handle_get_device_info => handle_get_device_info
  | h_handle_lock_door => handle_lock_door
  | h_handle_unlock_door => handle_unlock_door
  | h_cmd_full_clear_register => plc_cmd PLC.cmd_full_clear_register
  | h_cmd_force_move_carriage_left => plc_cmd PLC.cmd_force_move_carriage_left
  | h_cmd_force_move_carriage_right => plc_cmd PLC.cmd_force_move_carriage_right
  | h_cmd_weight_error_reset => plc_cmd PLC.cmd_weight_error_reset
  | h_cmd_reset_weight_reading => plc_cmd PLC.cmd_reset_weight_reading
  | h_handle_device_init | h_handle_container_dump | h_handle_container_unloaded
  | h_handle_stub_command => raise TypeError
  end.

(** [handler(arg)]: a callable without parameters raises [TypeError]. *)
Definition call1 (h : handler) (arg : json) : M unit :=
  match h with
  | h_handle_device_init => handle_device_init arg
  | h_handle_container_dump => handle_container_dump arg
  | h_handle_container_unloaded => handle_container_unloaded arg
  | h_handle_stub_command =>
      match arg with
      | JStr name => handle_stub_command name
      | _ => raise TypeError
      end
  | _ => raise TypeError
  end.

(** [_dispatch_command]: [command] is whatever the message's ["command"]
    field held.  Membership in the registry hashes the value, so a list or
    an object raises [TypeError]; only a string can be a registered name. *)
Definition _dispatch_command (command : json) (params : dict) : M bool :=
  if negb (hashable command) then raise TypeError
  else
    let found :=
      match command with
      | JStr name => registry_lookup name _command_handlers
      | _ => None
      end in
    match found with
    | None =>
        send_event_to_app "command_error"
          [("command", command); ("error", JStr "unknown_command")] ;;
        ret false
    | Some (h, requires_param) =>
        (match h with
         | h_handle_stub_command => call1 h command
         | _ =>
             if requires_param then call1 h (dict_get "param" params)
             else call0 h
         end) ;;
        ret true
    end.

(** *** Vision responses *)

Definition _handle_vision_response (vision_response : string) : M unit :=
  if String.eqb vision_response "none" then ret tt
  else
    plc_type <- gets current_plc_detection ;;
    if opt_eq_str plc_type "plastic" && String.eqb vision_response "plastic" then
      plc_cmd PLC.cmd_radxa_detected_bottle
    else if opt_eq_str plc_type "aluminum" && String.eqb vision_response "aluminum" then
      plc_cmd PLC.cmd_radxa_detected_bank
    else ret tt.

Definition _handle_vision_response_with_events (vision_response : string) : M unit :=
  if String.eqb vision_response "none" then
    send_event_to_app "container_not_recognized" []
  else
    plc_type <- gets current_plc_detection ;;
    if opt_eq_str plc_type "plastic" && String.eqb vision_response "plastic" then
      plc_cmd PLC.cmd_radxa_detected_bottle ;;
      modify (set_carriage_moving_bottle true) ;;
      now <- time_time ;;
      modify (set_carriage_moving_start_time (Some now)) ;;
      send_event_to_app "container_recognized"
        [("container_type", JStr "plastic"); ("confidence", JFloat 1)]
    else if opt_eq_str plc_type "aluminum" && String.eqb vision_response "aluminum" then
      plc_cmd PLC.cmd_radxa_detected_bank ;;
      modify (set_carriage_moving_bank true) ;;
      now <- time_time ;;
      modify (set_carriage_moving_start_time (Some now)) ;;
      send_event_to_app "container_recognized"
        [("container_type", JStr "aluminum"); ("confidence", JFloat 1)]
    else
      send_event_to_app "container_not_recognized"
        [("plc_type", json_of_opt plc_type); ("vision_type", JStr vision_response)].

Section Coordinator.

(** [json.loads], from Python's library. *)
Variable json_loads : string -> loads_result.

(** [parse_command]: the command and the parameter dictionary.  A decoded
    value that is not an object has no [get] and raises
    [AttributeError], which the [except json.JSONDecodeError] clause does
    not catch. *)
Definition parse_command (message : string) : M (json * dict) :=
  if String.eqb message "" then ret (JNull, [])
  else
    match json_loads message with
    | JSONDecodeError => ret (JNull, [])
    | Decoded (JObj data) =>
        let command := dict_get "command" data in
        let data' :=
          if dict_has "container_type" data
          then dict_set "param" (dict_get "container_type" data) data
          else if dict_has "config" data
          then dict_set "param" (dict_get "config" data) data
          else data in
        ret (command, data')
    | Decoded _ => raise AttributeError
    end.

(** *** Commands in the ERROR state *)

Definition _handle_error_state_commands : M unit :=
  app_message <- ws_get_command "app" ;;
  parsed <- parse_command app_message ;;
  let '(app_command, params) := parsed in
  if negb (truthy app_command) then ret tt
  else
    let app_param := dict_get "param" params in
    if json_eq_str app_command "get_photo" then handle_get_photo
    else if json_eq_str app_command "get_device_info" then handle_get_device_info
    else if json_eq_str app_command "dump_container" then handle_container_dump app_param
    else if json_eq_str app_command "restore_device" then
      modify (set_state IDLE) ;;
      send_event_to_app "restore_device_ack" [("status", JStr "ok")]
    else
      send_event_to_app "command_error"
        [("command", app_command); ("error", JStr "not_allowed_in_error_state")].

(** *** One iteration of the loop of [Application.run] *)

(** Lines 186-187. *)
Definition run_dumping : M unit :=
  st <- gets state ;;
  match st with
  | DUMPING_PLASTIC | DUMPING_ALUMINUM => _handle_dumping_state st
  | _ => ret tt
  end.

(** Lines 190-195 and 197-202: one of the two timeout checks. *)
Definition carriage_reset (moving : World -> bool) (stop_detected : PLC.t -> PLC.t)
    (set_moving : bool -> World -> World) : M unit :=
  flag <- gets moving ;;
  started <- gets carriage_moving_start_time ;;
  when flag && time_truthy started then (
    late <- elapsed_over started carriage_reset_timeout ;;
    when late then (
      plc_cmd stop_detected ;;
      modify (set_moving false) ;;
      modify (set_carriage_moving_start_time None))).

Definition run_carriage_reset : M unit :=
  carriage_reset carriage_moving_bottle PLC.cmd_radxa_stop_detected_bottle
    set_carriage_moving_bottle ;;
  carriage_reset carriage_moving_bank PLC.cmd_radxa_stop_detected_bank
    set_carriage_moving_bank.

(** Lines 205-226: drain the vision slot and refresh the PLC detection. *)
Definition waiting_vision_collect : M unit :=
  vision_response <- ws_get_command "vision" ;;
  pending <- gets _pending_vision_response ;;
  (when negb (String.eqb vision_response "") && negb (opt_is_some pending) then (
     modify (set_pending_vision_response (Some vision_response)) ;;
     modify (set_veil_cleared_time None))) ;;
  detection <- gets current_plc_detection ;;
  when negb (opt_is_some detection) then (
    bottle <- plc_get PLC.get_bottle_exist ;;
    if bottle =? 1 then modify (set_current_plc_detection (Some "plastic"))
    else
      bank <- plc_get PLC.get_bank_exist ;;
      when bank =? 1 then modify (set_current_plc_detection (Some "aluminum"))).

(** Lines 229-256: decide once both results are there, or give up on
    timeout. *)
Definition waiting_vision_decide : M unit :=
  pending <- gets _pending_vision_response ;;
  detection <- gets current_plc_detection ;;
  match pending, detection with
  | Some vision_response, Some _ =>
      _handle_vision_response_with_events vision_response ;;
      modify (set_state IDLE) ;;
      modify (set_vision_request_time None) ;;
      modify (set_current_plc_detection None) ;;
      modify (set_pending_vision_response None)
  | _, _ =>
      requested <- gets vision_request_time ;;
      late <- elapsed_over requested vision_timeout ;;
      when late then (
        modify (set_veil_cleared_time None) ;;
        modify (set_state IDLE) ;;
        modify (set_vision_request_time None) ;;
        modify (set_current_plc_detection None) ;;
        modify (set_pending_vision_response None) ;;
        send_event_to_app "container_not_recognized" [])
  end.

Definition run_waiting_vision : M unit :=
  waiting_vision_collect ;;
  waiting_vision_decide.

(** Lines 266-268. *)
Definition idle_greet : M unit :=
  fresh <- ws_is_client_just_connected "app" ;;
  when fresh then handle_get_device_info.

(** Lines 283-308: arm an inference run. *)
Definition idle_arm : M unit :=
  modify (set_veil_just_cleared true) ;;
  now <- time_time ;;
  modify (set_veil_cleared_time (Some now)) ;;
  modify (set_inference_requested true) ;;
  now' <- time_time ;;
  modify (set_vision_request_time (Some now')) ;;
  bottle <- plc_get PLC.get_bottle_exist ;;
  vision_cmd <-
    (if bottle =? 1 then
       modify (set_current_plc_detection (Some "plastic")) ;;
       ret "bottle_exist"
     else
       bank <- plc_get PLC.get_bank_exist ;;
       if bank =? 1 then
         modify (set_current_plc_detection (Some "aluminum")) ;;
         ret "bank_exist"
       else
         modify (set_current_plc_detection None) ;;
         ret "bottle_exist") ;;
  detection <- gets current_plc_detection ;;
  send_event_to_app "container_detected"
    [("container_type", JStr (or_unknown detection))] ;;
  ws_get_command "vision" ;;
  ws_send_to_client "vision" (Raw vision_cmd) ;;
  modify (set_state WAITING_VISION).

(** Lines 271-315: veil tracking. *)
Definition idle_veil : M unit :=
  current_veil <- plc_get PLC.get_state_veil ;;
  bottle_exist <- plc_get PLC.get_bottle_exist ;;
  bank_exist <- plc_get PLC.get_bank_exist ;;
  let container_detected := (bottle_exist =? 1) || (bank_exist =? 1) in
  (when negb container_detected then modify (set_inference_requested false)) ;;
  prev <- gets prev_veil_state ;;
  requested <- gets _inference_requested ;;
  (when (prev =? 1) && (current_veil =? 0) && negb requested then idle_arm) ;;
  (when current_veil =? 1 then (
     modify (set_veil_just_cleared false) ;;
     modify (set_veil_cleared_time None))) ;;
  modify (set_prev_veil_state current_veil).

(** Lines 318-322. *)
Definition idle_commands : M unit :=
  app_message <- ws_get_command "app" ;;
  when negb (String.eqb app_message "") then (
    parsed <- parse_command app_message ;;
    let '(app_command, params) := parsed in
    when truthy app_command then (
      _dispatch_command app_command params ;;
      ret tt)).

Definition run_idle : M unit :=
  idle_greet ;;
  idle_veil ;;
  idle_commands.

(** Lines 204-322: the [if]/[elif] chain on the state. *)
Definition run_state : M unit :=
  st <- gets state ;;
  match st with
  | WAITING_VISION => run_waiting_vision
  | ERROR => _handle_error_state_commands
  | IDLE => run_idle
  | _ => ret tt
  end.

Definition run_iteration : M unit :=
  run_dumping ;;
  run_carriage_reset ;;
  run_state ;;
  _check_receiver_state ;;
  _check_hardware_errors.

(** *** The surroundings of the loop

    What the other threads do between two iterations: the poller
    ([PLC_update_data]), the hub's connection handlers, the passing of
    time, and the interrupt signal. *)
Inductive env_event : Type :=
| poll (d : PLC.device)
| peer_registers (client_name : string) (conn : nat)
| peer_sends (client_name : string) (msg : string)
| peer_leaves (client_name : string)
| clock_reads (now : Q)
| sigint.

Definition env_step (w : World) (e : env_event) : World :=
  match e with
  | poll d => set_PLC (PLC.update_data d (PLC w)) w
  | peer_registers n c =>
      set_websocket_server (WebSocket.handler_register n c (clock w) (websocket_server w)) w
  | peer_sends n m =>
      set_websocket_server (WebSocket.handler_message n m (clock w) (websocket_server w)) w
  | peer_leaves n =>
      set_websocket_server (WebSocket.handler_disconnect n (websocket_server w)) w
  | clock_reads now => set_clock now w
  | sigint => set_running false w
  end.

(** [Application.run]: each round is what happened since the previous
    iteration, followed by one iteration; an exception or a cleared
    [running] flag ends the loop through [stop]. *)
Fixpoint run (rounds : list (list env_event)) (w : World) : World :=
  match rounds with
  | [] => w
  | events :: rest =>
      let w1 := fold_left env_step events w in
      if running w1 then
        match run_iteration w1 with
        | Ret _ w2 => run rest w2
        | Exc _ w2 => set_running false w2
        end
      else w1
  end.


(** *** Observations on a world *)

(** The calls of [send_to_client] so far. *)
Definition outbox (w : World) : list (string * wire) :=
  WebSocket.sent (websocket_server w).

(** The command word in memory, and the words written to the slave. *)
Definition command_word (w : World) : Z := PLC.cmd_word (PLC w).
Definition writes (w : World) : list (Z * Z) := PLC.slave_writes (PLC w).

(** Bit [n] of a register word, as the source reads it. *)
Definition bit (n : Z) (word : Z) : Z := Z.land (Z.shiftr word n) 1.

(** *** Vocabulary of the statements *)

(** The event is a message of the peer [name]. *)
Definition is_message_of (name : string) (e : env_event) : bool :=
  match e with
  | peer_sends n _ => String.eqb n name
  | _ => false
  end.

(** The event is a registration of the peer [name]. *)
Definition is_registration_of (name : string) (e : env_event) : bool :=
  match e with
  | peer_registers n _ => String.eqb n name
  | _ => false
  end.

(** The hub of a world after the events of other threads. *)
Definition hub_after (events : list env_event) (w : World) : WebSocket.t :=
  websocket_server (fold_left env_step events w).

(** The slot of [name] holds no unread message. *)
Definition consumed (name : string) (h : WebSocket.t) : Prop :=
  match WebSocket.client_messages h !! name with
  | Some s => WebSocket.message s = ""
  | None => True
  end.

(** The [just_connected] flag of the peer [name] as a read sees it. *)
Definition armed (name : string) (h : WebSocket.t) : bool :=
  match WebSocket.client_messages h !! name with
  | Some s => default false (WebSocket.just_connected s)
  | None => false
  end.

(** The world once the one-shot slot of [name] has been read. *)
Definition drained (name : string) (w : World) : World :=
  set_websocket_server (snd (WebSocket.get_command name (websocket_server w))) w.

(** The world once a message has been handed to [send_to_client]. *)
Definition with_sent (client_name : string) (msg : wire) (w : World) : World :=
  set_websocket_server
    (WebSocket.send_to_client client_name msg (websocket_server w)) w.

(** The [param] slot that [parse_command] fills from [container_type] or
    [config]. *)
Definition normalized_param (data : dict) : json :=
  if dict_has "container_type" data then dict_get "container_type" data
  else if dict_has "config" data then dict_get "config" data
  else dict_get "param" data.

(** Every run of [m] relates the world it starts in to the world it leaves,
    whether it returns or raises. *)
Definition steps (R : World -> World -> Prop) {A : Type} (m : M A) : Prop :=
  forall w, R w (final (m w)).

(** A relation between worlds that the ordinary actions of the loop respect:
    it is transitive, does not look at the coordinator's scratch attributes,
    and admits an event for [app], a command bit being raised and the full
    clear of the command register. *)
Class Frame (R : World -> World -> Prop) : Prop := {
  frame_trans : forall w1 w2 w3, R w1 w2 -> R w2 w3 -> R w1 w3;
  frame_same : forall w w',
    PLC w' = PLC w -> outbox w' = outbox w ->
    _inference_requested w' = _inference_requested w -> R w w';
  frame_app : forall w w' msg,
    PLC w' = PLC w -> outbox w' = (outbox w ++ [("app", msg)])%list ->
    _inference_requested w' = _inference_requested w -> R w w';
  frame_set : forall w w' n,
    0 <= n -> PLC w' = PLC.cmd_set_bit n 1 (PLC w) -> outbox w' = outbox w ->
    _inference_requested w' = _inference_requested w -> R w w';
  frame_clear : forall w w',
    PLC w' = PLC.cmd_full_clear_register (PLC w) -> outbox w' = outbox w ->
    _inference_requested w' = _inference_requested w -> R w w'
}.

(** The inference triggers sent to the vision peer so far. *)
Definition vision_requests (w : World) : list (string * wire) :=
  List.filter (fun p => String.eqb (fst p) "vision") (outbox w).

(** The receiver holds a container: [bottle_exist] or [bank_exist] reads 1. *)
Definition receiver_occupied (w : World) : Prop :=
  PLC.get_bottle_exist (PLC w) = 1 \/ PLC.get_bank_exist (PLC w) = 1.

(** With the receiver occupied, a step sends at most one inference trigger,
    none when the guard was already set, and leaves the guard set when it
    was set or when a trigger was sent.  The status word is not written. *)
Definition guard_step (w w' : World) : Prop :=
  PLC.modbus_register_status (PLC w') = PLC.modbus_register_status (PLC w) /\
  (receiver_occupied w ->
   exists l,
     vision_requests w' = (vision_requests w ++ l)%list /\
     (length l <= 1)%nat /\
     (_inference_requested w = true -> l = []) /\
     (_inference_requested w = true \/ l <> [] -> _inference_requested w' = true)).

(** A poll that keeps the receiver occupied. *)
Definition keeps_occupied (e : env_event) : Prop :=
  match e with
  | poll d =>
      match PLC.dev_status d with
      | [] => True
      | v :: _ => bit 7 v = 1 \/ bit 6 v = 1
      end
  | _ => True
  end.

(** Command bit [b] stays up across a step unless a zero word was written to
    the slave during it. *)
Definition latch_step (b : Z) (w w' : World) : Prop :=
  exists l,
    writes w' = (writes w ++ l)%list /\
    (bit b (command_word w) = 1 ->
     bit b (command_word w') = 1 \/ In 0 (map snd l)).

(** The timeout check of the main loop fires for the flag [moving]. *)
Definition reset_due (moving : World -> bool) (w : World) : Prop :=
  moving w = true /\
  exists t0, carriage_moving_start_time w = Some t0 /\
             ~ (t0 == 0)%Q /\
             (carriage_reset_timeout < clock w - t0)%Q.

(** *** Scenarios to run the model on *)

(** The poller reads the status word [s] and zero counters. *)
Definition status_reads (s : Z) : env_event :=
  poll (PLC.mk_device [s] [0] [0] [0] [0]).

(** The coordinator right after start-up, at clock reading 100. *)
Definition started : World := Application_init 500 100.

(** The text [{"command": "<name>", "container_type": "<kind>"}]. *)
Definition command_text (name kind : string) : string :=
  ("{" ++ JsonText.quoted "command" ++ ": " ++ JsonText.quoted name ++ ", "
   ++ JsonText.quoted "container_type" ++ ": " ++ JsonText.quoted kind ++ "}")%string.

(** Both peers connect, a bottle is put in with the hand in the veil, the
    hand leaves, vision answers plastic, the app asks for the dump. *)
Definition happy_path_to_dump : list (list env_event) :=
  [ [peer_registers "app" 1; peer_registers "vision" 2; status_reads 129];
    [status_reads 128];
    [peer_sends "vision" "plastic"; clock_reads (1002 # 10)];
    [peer_sends "app" (command_text "dump_container" "plastic"); clock_reads (1005 # 10)] ].

(** ... and the carriage reaches the left sensor 0.8 s after the fusion. *)
Definition happy_path : list (list env_event) :=
  (happy_path_to_dump ++ [ [status_reads 130; clock_reads 101] ])%list.

(** A can is put in with the hand in the veil, then the hand leaves. *)
Definition can_inserted : list (list env_event) :=
  [ [peer_registers "vision" 2; status_reads 65];
    [status_reads 64] ].

(** The app connects and is greeted; then it sends a text that is not JSON. *)
Definition app_connects : list (list env_event) :=
  [ [peer_registers "app" 1] ].
Definition app_sends_garbage : list (list env_event) :=
  (app_connects ++ [ [peer_sends "app" "hello"] ])%list.

(** A bottle lies in the receiver while the hand is still in the veil. *)
Definition bottle_under_hand : list (list env_event) :=
  [ [status_reads 129] ].

(** Worlds for the single-step statements. *)

(** WAITING_VISION with a bottle reported by the PLC and the vision reply
    ["plastic"] in the slot. *)
Definition waiting_world : World :=
  fold_left env_step
    [peer_registers "vision" 2; status_reads 128; peer_sends "vision" "plastic"]
    (set_vision_request_time (Some 100%Q) (set_state WAITING_VISION started)).

(** DUMPING_PLASTIC with the left sensor reached. *)
Definition dumping_world : World :=
  set_dump_started_time (Some 100%Q)
    (set_state DUMPING_PLASTIC (env_step started (status_reads 2))).

(** IDLE with a can in the receiver and the veil just cleared. *)
Definition veil_fell_world : World :=
  env_step (set_prev_veil_state 1 started) (status_reads 64).

(** ERROR with [restore_device] waiting in the app slot. *)
Definition error_world : World :=
  fold_left env_step
    [peer_registers "app" 1; peer_sends "app" (command_text "restore_device" "none")]
    (set_state ERROR started).

(** IDLE with a text that is not JSON waiting in the app slot. *)
Definition garbage_world : World :=
  fold_left env_step [peer_registers "app" 1; peer_sends "app" "hello"] started.

(** IDLE with a bottle in the receiver. *)
Definition occupied_world : World := env_step started (status_reads 128).

(** The hand enters and leaves the veil twice over the same bottle. *)
Definition two_edges : list (list env_event) :=
  [ [status_reads 129]; [status_reads 128]; [peer_sends "vision" "plastic"];
    [status_reads 129]; [status_reads 128] ].

(** Bit 7 was raised at clock reading 100 and the clock now reads 103. *)
Definition latched_world : World :=
  set_clock 103%Q
    (set_carriage_moving_start_time (Some 100%Q)
       (set_carriage_moving_bottle true
          (set_PLC (PLC.cmd_radxa_detected_bottle (PLC started)) started))).

(** The name of an event sent to a peer, or the bare text. *)
Definition wire_name (p : string * wire) : string :=
  match snd p with
  | Dumps (JObj (("event", JStr name) :: _)) => name
  | Dumps _ => ""
  | Raw s => s
  end.

(** *** Vocabulary of the further statements *)

(** The command methods of the driver. *)
Definition plc_commands : list (PLC.t -> PLC.t) :=
  [ PLC.cmd_lock_and_block_carriage; PLC.cmd_weight_error_reset;
    PLC.cmd_reset_bank_counters; PLC.cmd_reset_bottle_counters;
    PLC.cmd_force_move_carriage_left; PLC.cmd_force_move_carriage_right;
    PLC.cmd_radxa_detected_bank; PLC.cmd_radxa_detected_bottle;
    PLC.cmd_radxa_stop_detected_bank; PLC.cmd_radxa_stop_detected_bottle;
    PLC.cmd_reset_weight_reading; PLC.cmd_full_clear_register ].

(** The word fits a 16-bit holding register. *)
Definition word16 (v : Z) : Prop := 0 <= v < 2 ^ 16.

(** The state stays within the set [S] of states. *)
Definition state_in (S : AppState -> Prop) (w w' : World) : Prop :=
  S (state w) -> S (state w').

(** The state is not written. *)
Definition state_kept (w w' : World) : Prop := state w' = state w.

(** What the loop itself may hand to [send_to_client]: an event for [app], or
    one of the two inference tokens for [vision]. *)
Definition loop_message (p : string * wire) : Prop :=
  p = ("vision", Raw "bottle_exist") \/
  p = ("vision", Raw "bank_exist") \/
  exists name data now, p = ("app", event name data now).

(** A step of the loop only appends to the slave's write log, always to the
    command register, and only appends loop messages to the outbox; it
    leaves the polled registers and the speed register alone. *)
Definition io_step (w w' : World) : Prop :=
  PLC.modbus_register_status (PLC w') = PLC.modbus_register_status (PLC w) /\
  PLC.modbus_register_speed (PLC w') = PLC.modbus_register_speed (PLC w) /\
  PLC.modbus_register_bank_counter (PLC w') = PLC.modbus_register_bank_counter (PLC w) /\
  PLC.modbus_register_bottle_counter (PLC w') = PLC.modbus_register_bottle_counter (PLC w) /\
  PLC.modbus_register_bottle_percent (PLC w') = PLC.modbus_register_bottle_percent (PLC w) /\
  PLC.modbus_register_bank_percent (PLC w') = PLC.modbus_register_bank_percent (PLC w) /\
  ModbusRegister.register_number (PLC.modbus_register_cmd (PLC w'))
    = ModbusRegister.register_number (PLC.modbus_register_cmd (PLC w)) /\
  (exists lw,
     writes w' = (writes w ++ lw)%list /\
     Forall (fun p => fst p = ModbusRegister.register_number
                                (PLC.modbus_register_cmd (PLC w))) lw) /\
  (exists lo, outbox w' = (outbox w ++ lo)%list /\ Forall loop_message lo).

(** What the loop leaves to its surroundings: the clock, the [running] flag
    and the sockets of the hub. *)
Definition ambient_kept (w w' : World) : Prop :=
  clock w' = clock w /\
  running w' = running w /\
  WebSocket.clients (websocket_server w') = WebSocket.clients (websocket_server w).

(** [m] never raises: from every world it returns. *)
Definition total {A : Type} (m : M A) : Prop :=
  forall w, exists a w', m w = Ret a w'.

(** The names registered as stubs. *)
Definition stub_names : list string :=
  ["enter_service_mode"; "exit_service_mode"; "restore_device"; "open_shutter";
   "reboot_device"].
(** The slot of the [app] peer, unread text and edge flag, is as it was. *)
Definition app_slot_kept (w w' : World) : Prop :=
  WebSocket.client_messages (websocket_server w') !! "app"
  = WebSocket.client_messages (websocket_server w) !! "app".

(** The [hardware_error] event of a status bit that has just risen. *)
Definition rising (current previous : Z) (error_code message : string) (now : Q)
    : list (string * wire) :=
  if Ztruthy current && negb (Ztruthy previous)
  then [("app", event "hardware_error"
                  [("error_code", JStr error_code); ("message", JStr message)] now)]
  else [].






(** WAITING_VISION with no answer from either side, three seconds after the
    request. *)
Definition timed_out_world : World :=
  set_clock 103%Q
    (set_vision_request_time (Some 100%Q) (set_state WAITING_VISION started)).

(** The app registers and asks for a dump of plastic. *)
Definition app_asks_dump : list env_event :=
  [peer_registers "app" 1; peer_sends "app" (command_text "dump_container" "plastic")].

(** WAITING_VISION with that command waiting in the app slot. *)
Definition busy_world : World :=
  fold_left env_step app_asks_dump
    (set_vision_request_time (Some 100%Q) (set_state WAITING_VISION started)).


(** * Properties *)

(** ** Arithmetic of register bits and of the clock *)

Lemma Qltb_lt (x y : Q) : Qltb x y = true <-> (x < y)%Q.
Proof.
  unfold Qltb. rewrite Qlt_alt. destruct (x ?= y)%Q; split; congruence.
Qed.

Lemma Qltb_ge (x y : Q) : Qltb x y = false <-> (y <= x)%Q.
Proof.
  split; intros H.
  - apply Qnot_lt_le. intros Hlt. apply Qltb_lt in Hlt. congruence.
  - destruct (Qltb x y) eqn:E; [|reflexivity].
    apply Qltb_lt in E. exfalso. apply (Qlt_not_le _ _ E H).
Qed.

Lemma bit_testbit (n word : Z) : 0 <= n -> bit n word = Z.b2z (Z.testbit word n).
Proof.
  intros Hn. unfold bit.
  change 1 with (Z.ones 1). rewrite Z.land_ones by lia.
  change (2 ^ 1) with 2. rewrite <- Z.bit0_mod.
  rewrite Z.shiftr_spec by lia. reflexivity.
Qed.

Lemma bit_set_same (n word : Z) : 0 <= n -> bit n (Z.lor word (Z.shiftl 1 n)) = 1.
Proof.
  intros Hn. rewrite bit_testbit by lia.
  rewrite Z.lor_spec, Z.shiftl_spec by lia.
  replace (n - n) with 0 by lia. cbn. rewrite orb_true_r. reflexivity.
Qed.

Lemma bit_set_keeps (n m word : Z) :
  0 <= n -> 0 <= m -> bit m word = 1 -> bit m (Z.lor word (Z.shiftl 1 n)) = 1.
Proof.
  intros Hn Hm. rewrite !bit_testbit by lia.
  rewrite Z.lor_spec. destruct (Z.testbit word m); cbn; [reflexivity | discriminate].
Qed.

Lemma bit_clear_same (n word : Z) :
  0 <= n -> bit n (Z.land word (Z.lnot (Z.shiftl 1 n))) = 0.
Proof.
  intros Hn. rewrite bit_testbit by lia.
  rewrite Z.land_spec, Z.lnot_spec, Z.shiftl_spec by lia.
  replace (n - n) with 0 by lia. cbn. rewrite andb_false_r. reflexivity.
Qed.

Lemma bit_clear_other (n m word : Z) :
  0 <= n -> 0 <= m -> n <> m ->
  bit m (Z.land word (Z.lnot (Z.shiftl 1 n))) = bit m word.
Proof.
  intros Hn Hm Hne. rewrite !bit_testbit by lia.
  rewrite Z.land_spec, Z.lnot_spec, Z.shiftl_spec by lia.
  assert (Z.testbit 1 (m - n) = false) as ->.
  { destruct (Z.ltb_spec m n).
    - apply Z.testbit_neg_r. lia.
    - change 1 with (2 ^ 0). apply Z.pow2_bits_false. lia. }
  cbn. rewrite andb_true_r. reflexivity.
Qed.

Lemma bit_01 (n word : Z) : bit n word = 0 \/ bit n word = 1.
Proof.
  unfold bit. change 1 with (Z.ones 1) at 1 2. rewrite Z.land_ones by lia.
  change (2 ^ 1) with 2.
  pose proof (Z.mod_pos_bound (Z.shiftr word n) 2). lia.
Qed.


(** ** Peer hub *)

Lemma env_step_hub (e : env_event) (w : World) :
  websocket_server (env_step w e) =
  match e with
  | peer_registers n c => WebSocket.handler_register n c (clock w) (websocket_server w)
  | peer_sends n m => WebSocket.handler_message n m (clock w) (websocket_server w)
  | peer_leaves n => WebSocket.handler_disconnect n (websocket_server w)
  | _ => websocket_server w
  end.
Proof. destruct e; reflexivity. Qed.

Lemma consumed_get_command (name : string) (h : WebSocket.t) :
  consumed name h -> fst (WebSocket.get_command name h) = "".
Proof.
  unfold consumed, WebSocket.get_command.
  destruct (WebSocket.client_messages h !! name); cbn; auto.
Qed.

Lemma get_command_consumes (name : string) (h : WebSocket.t) :
  consumed name (snd (WebSocket.get_command name h)).
Proof.
  unfold consumed, WebSocket.get_command.
  destruct (WebSocket.client_messages h !! name) eqn:E; cbn.
  - rewrite lookup_insert_eq. reflexivity.
  - rewrite E. exact I.
Qed.

Lemma consumed_env_step (name : string) (e : env_event) (w : World) :
  is_message_of name e = false ->
  consumed name (websocket_server w) ->
  consumed name (websocket_server (env_step w e)).
Proof.
  intros He Hc. rewrite env_step_hub. unfold consumed in *.
  destruct e; cbn in *; try assumption.
  - destruct (decide (client_name = name)) as [->|Hne].
    + rewrite lookup_insert_eq. reflexivity.
    + rewrite lookup_insert_ne by assumption. assumption.
  - apply String.eqb_neq in He.
    rewrite lookup_insert_ne by assumption. assumption.
  - destruct (decide (client_name = name)) as [->|Hne].
    + rewrite lookup_delete_eq. exact I.
    + rewrite lookup_delete_ne by assumption. assumption.
Qed.

Lemma consumed_events (name : string) (events : list env_event) (w : World) :
  forallb (fun e => negb (is_message_of name e)) events = true ->
  consumed name (websocket_server w) ->
  consumed name (hub_after events w).
Proof.
  unfold hub_after. revert w.
  induction events as [|e events IH]; intros w Hev Hc; cbn in *; [assumption|].
  apply andb_prop in Hev as [He Hev]. apply negb_true_iff in He.
  apply IH; [assumption|]. apply consumed_env_step; assumption.
Qed.

(** C7. [get_command(name)] returns the peer's current [last_message] (the
    empty string when the peer is absent) and leaves the slot empty; a second
    call returns the empty string, whatever the other threads did in between,
    as long as the peer itself sent nothing. *)
Theorem get_command_one_shot (name : string) (events : list env_event) (w : World) :
  forallb (fun e => negb (is_message_of name e)) events = true ->
  let h := websocket_server w in
  let h1 := snd (WebSocket.get_command name h) in
  fst (WebSocket.get_command name h) = WebSocket.get_state name h /\
  (WebSocket.client_messages h !! name = None ->
   fst (WebSocket.get_command name h) = "") /\
  WebSocket.get_state name h1 = "" /\
  fst (WebSocket.get_command name h1) = "" /\
  fst (WebSocket.get_command name (hub_after events (set_websocket_server h1 w))) = "".
Proof.
  intros Hev h h1.
  assert (Hc : consumed name h1) by apply get_command_consumes.
  repeat split.
  - unfold WebSocket.get_command, WebSocket.get_state.
    destruct (WebSocket.client_messages h !! name); reflexivity.
  - intros Hnone. unfold WebSocket.get_command. rewrite Hnone. reflexivity.
  - unfold consumed in Hc. unfold WebSocket.get_state.
    destruct (WebSocket.client_messages h1 !! name); auto.
  - apply consumed_get_command, Hc.
  - apply consumed_get_command, consumed_events; [exact Hev | exact Hc].
Qed.

Lemma is_client_just_connected_armed (name : string) (h : WebSocket.t) :
  fst (WebSocket.is_client_just_connected name h) = armed name h.
Proof.
  unfold WebSocket.is_client_just_connected, armed.
  destruct (WebSocket.client_messages h !! name) as [s|]; [|reflexivity].
  destruct (default false (WebSocket.just_connected s)); reflexivity.
Qed.

Lemma is_client_just_connected_disarms (name : string) (h : WebSocket.t) :
  armed name (snd (WebSocket.is_client_just_connected name h)) = false.
Proof.
  unfold WebSocket.is_client_just_connected, armed.
  destruct (WebSocket.client_messages h !! name) as [s|] eqn:E; cbn.
  - destruct (default false (WebSocket.just_connected s)) eqn:D; cbn.
    + rewrite lookup_insert_eq. reflexivity.
    + rewrite E. exact D.
  - rewrite E. reflexivity.
Qed.

Lemma armed_env_step (name : string) (e : env_event) (w : World) :
  is_registration_of name e = false ->
  armed name (websocket_server w) = false ->
  armed name (websocket_server (env_step w e)) = false.
Proof.
  intros He Ha. rewrite env_step_hub. unfold armed in *.
  destruct e; cbn in *; try assumption.
  - apply String.eqb_neq in He.
    rewrite lookup_insert_ne by assumption. assumption.
  - destruct (decide (client_name = name)) as [->|Hne].
    + rewrite lookup_insert_eq. reflexivity.
    + rewrite lookup_insert_ne by assumption. assumption.
  - destruct (decide (client_name = name)) as [->|Hne].
    + rewrite lookup_delete_eq. reflexivity.
    + rewrite lookup_delete_ne by assumption. assumption.
Qed.

Lemma armed_events (name : string) (events : list env_event) (w : World) :
  forallb (fun e => negb (is_registration_of name e)) events = true ->
  armed name (websocket_server w) = false ->
  armed name (hub_after events w) = false.
Proof.
  unfold hub_after. revert w.
  induction events as [|e events IH]; intros w Hev Ha; cbn in *; [assumption|].
  apply andb_prop in Hev as [He Hev]. apply negb_true_iff in He.
  apply IH; [assumption|]. apply armed_env_step; assumption.
Qed.

(** X22. Registration arms the just-connected flag, and the first read after it
    returns true and clears it.  Once a read has happened, every read
    returns false, whatever the peers send meanwhile, until the peer
    registers again. *)
Theorem just_connected_read_once (name : string) (events : list env_event) (w : World) :
  forallb (fun e => negb (is_registration_of name e)) events = true ->
  let h := websocket_server w in
  (forall conn now,
     let hr := WebSocket.handler_register name conn now h in
     fst (WebSocket.is_client_just_connected name hr) = true /\
     fst (WebSocket.is_client_just_connected name
            (snd (WebSocket.is_client_just_connected name hr))) = false) /\
  fst (WebSocket.is_client_just_connected name
         (hub_after events
            (set_websocket_server (snd (WebSocket.is_client_just_connected name h)) w)))
  = false.
Proof.
  intros Hev h. split.
  - intros conn now hr. split.
    + rewrite is_client_just_connected_armed. unfold armed, hr. cbn.
      rewrite lookup_insert_eq. reflexivity.
    + rewrite is_client_just_connected_armed. apply is_client_just_connected_disarms.
  - rewrite is_client_just_connected_armed.
    apply armed_events; [exact Hev|]. cbn. apply is_client_just_connected_disarms.
Qed.

(** ** Handlers and state phases *)

Ltac run_monad :=
  unfold send_event_to_app, create_event, ws_send_to_client, ws_get_command,
    ws_is_client_just_connected, elapsed_over, time_time, plc_get, plc_cmd,
    bind, gets, modify, ret, raise;
  cbn.

Lemma json_eq_str_false (v : json) (s : string) : v <> JStr s -> json_eq_str v s = false.
Proof.
  intros Hne. destruct v; cbn; try reflexivity.
  apply String.eqb_neq. congruence.
Qed.

Lemma json_eq_str_true (v : json) (s : string) : json_eq_str v s = true <-> v = JStr s.
Proof.
  split.
  - destruct v; cbn; try discriminate. intros H. apply String.eqb_eq in H. congruence.
  - intros ->. cbn. apply String.eqb_refl.
Qed.

(** C10. A [dump_container] whose parameter is neither ["plastic"] nor
    ["aluminum"] (a missing parameter is [None]) changes nothing at all: the
    state, the dump start time, the command register and the messages sent
    to the peers are as before, both in the handler and through the
    dispatcher. *)
Theorem dump_unknown_type_is_silent (container_type : json) (params : dict) (w : World) :
  container_type <> JStr "plastic" ->
  container_type <> JStr "aluminum" ->
  dict_get "param" params = container_type ->
  handle_container_dump container_type w = Ret tt w /\
  _dispatch_command (JStr "dump_container") params w = Ret true w.
Proof.
  intros Hp Ha Hparam.
  assert (Hh : handle_container_dump container_type w = Ret tt w).
  { unfold handle_container_dump.
    rewrite (json_eq_str_false _ _ Hp), (json_eq_str_false _ _ Ha). reflexivity. }
  split; [exact Hh|].
  unfold _dispatch_command. cbn. unfold bind. cbn. rewrite Hparam, Hh. reflexivity.
Qed.

(** C2. In DUMPING_PLASTIC the left sensor, the bottle counter and the code
    [carriage_left_timeout] apply, in DUMPING_ALUMINUM the right sensor, the
    bank counter and [carriage_right_timeout].  When the sensor reads 1 the
    command register is cleared in full, the state becomes IDLE, the dump
    start time is dropped and [container_accepted] carries the type and the
    counter.  Otherwise, once more than [dump_timeout] has passed since the
    dump started, the register is cleared in full, the state becomes ERROR
    and [hardware_error] carries the error code. *)
Theorem dumping_completion (st : AppState) (config : dumping_config) (w : World) :
  state w = st ->
  _dumping_config st = Some config ->
  dump_timeout = 3%Q /\
  (st = DUMPING_PLASTIC /\
   sensor_getter config = PLC.get_state_left_sensor_carriage /\
   type config = "plastic" /\
   counter_getter config = PLC.get_bottle_count /\
   error_code config = "carriage_left_timeout"
   \/
   st = DUMPING_ALUMINUM /\
   sensor_getter config = PLC.get_state_right_sensor_carriage /\
   type config = "aluminum" /\
   counter_getter config = PLC.get_bank_count /\
   error_code config = "carriage_right_timeout") /\
  (sensor_getter config (PLC w) = 1 ->
   exists w',
     run_dumping w = Ret tt w' /\
     command_word w' = 0 /\
     writes w' = (writes w ++ [(ModbusRegister.register_number
                                  (PLC.modbus_register_cmd (PLC w)), 0)])%list /\
     state w' = IDLE /\
     dump_started_time w' = None /\
     outbox w' =
       (outbox w ++
        [("app", event "container_accepted"
                   [("container_type", JStr (type config));
                    ("counter", JInt (counter_getter config (PLC w)))]
                   (clock w))])%list) /\
  (forall t0,
     sensor_getter config (PLC w) <> 1 ->
     dump_started_time w = Some t0 ->
     (dump_timeout < clock w - t0)%Q ->
     exists w',
       run_dumping w = Ret tt w' /\
       command_word w' = 0 /\
       writes w' = (writes w ++ [(ModbusRegister.register_number
                                    (PLC.modbus_register_cmd (PLC w)), 0)])%list /\
       state w' = ERROR /\
       dump_started_time w' = None /\
       outbox w' =
         (outbox w ++
          [("app", event "hardware_error"
                     [("error_code", JStr (error_code config));
                      ("message", JStr (error_message config))]
                     (clock w))])%list).
Proof.
  intros Hst Hc.
  assert (Hrun : run_dumping w = _handle_dumping_state st w).
  { unfold run_dumping, bind, gets. rewrite Hst.
    destruct st; cbn in Hc; try discriminate; reflexivity. }
  assert (Hcount : counter_getter config (PLC.cmd_full_clear_register (PLC w))
                   = counter_getter config (PLC w)).
  { destruct st; cbn in Hc; try discriminate; injection Hc as <-; reflexivity. }
  split; [reflexivity|]. split.
  { destruct st; cbn in Hc; try discriminate; injection Hc as <-; cbn; auto 10. }
  split.
  - intros Hs. rewrite Hrun. unfold _handle_dumping_state. rewrite Hc. run_monad.
    rewrite Hs. cbn. eexists. split; [reflexivity|]. cbn.
    rewrite Hcount. repeat split; reflexivity.
  - intros t0 Hs Ht Hlate. rewrite Hrun. unfold _handle_dumping_state. rewrite Hc.
    run_monad. apply Z.eqb_neq in Hs. rewrite Hs, Ht. cbn.
    apply Qltb_lt in Hlate. rewrite Hlate. cbn.
    eexists. split; [reflexivity|]. cbn. repeat split; reflexivity.
Qed.

Lemma waiting_vision_collect_returns (w : World) :
  exists w1, waiting_vision_collect w = Ret tt w1 /\
             state w1 = state w /\ clock w1 = clock w /\
             PLC w1 = PLC w /\ outbox w1 = outbox w.
Proof.
  unfold waiting_vision_collect. run_monad.
  destruct (WebSocket.get_command "vision" (websocket_server w)) as [m h] eqn:Eg.
  assert (Hs : WebSocket.sent h = WebSocket.sent (websocket_server w)).
  { unfold WebSocket.get_command in Eg.
    destruct (WebSocket.client_messages (websocket_server w) !! "vision");
      injection Eg as <- <-; reflexivity. }
  cbn.
  destruct (negb (String.eqb m "") && negb (opt_is_some (_pending_vision_response w)));
    cbn;
    destruct (current_plc_detection w); cbn;
    try (destruct (PLC.get_bottle_exist (PLC w) =? 1); cbn;
         try (destruct (PLC.get_bank_exist (PLC w) =? 1); cbn));
    eexists; (split; [reflexivity|]); unfold outbox; cbn; auto.
Qed.

(** C1. In WAITING_VISION, once the vision slot has been drained and the PLC
    detection refreshed, and both results are there: plastic with plastic
    sets command bit 7 and emits [container_recognized] for plastic;
    aluminum with aluminum sets bit 6 and emits it for aluminum; a vision
    reply ["none"] emits [container_not_recognized] with empty data and
    leaves the command register alone; a plastic/aluminum mismatch emits
    [container_not_recognized] with both types and leaves the register
    alone.  In every case the state is IDLE afterwards and the pending
    response, the PLC detection and the request time are cleared. *)
Theorem vision_fusion (w w1 : World) (plc_type vision : string) :
  state w = WAITING_VISION ->
  waiting_vision_collect w = Ret tt w1 ->
  current_plc_detection w1 = Some plc_type ->
  _pending_vision_response w1 = Some vision ->
  exists w2,
    run_state w = Ret tt w2 /\
    state w2 = IDLE /\
    _pending_vision_response w2 = None /\
    current_plc_detection w2 = None /\
    vision_request_time w2 = None /\
    (plc_type = "plastic" -> vision = "plastic" ->
     command_word w2 = Z.lor (command_word w) (Z.shiftl 1 7) /\
     bit 7 (command_word w2) = 1 /\
     carriage_moving_bottle w2 = true /\
     carriage_moving_start_time w2 = Some (clock w) /\
     outbox w2 =
       (outbox w ++
        [("app", event "container_recognized"
                   [("container_type", JStr "plastic"); ("confidence", JFloat 1)]
                   (clock w))])%list) /\
    (plc_type = "aluminum" -> vision = "aluminum" ->
     command_word w2 = Z.lor (command_word w) (Z.shiftl 1 6) /\
     bit 6 (command_word w2) = 1 /\
     carriage_moving_bank w2 = true /\
     carriage_moving_start_time w2 = Some (clock w) /\
     outbox w2 =
       (outbox w ++
        [("app", event "container_recognized"
                   [("container_type", JStr "aluminum"); ("confidence", JFloat 1)]
                   (clock w))])%list) /\
    (vision = "none" ->
     PLC w2 = PLC w /\
     outbox w2 =
       (outbox w ++ [("app", event "container_not_recognized" [] (clock w))])%list) /\
    (plc_type = "plastic" /\ vision = "aluminum" \/
     plc_type = "aluminum" /\ vision = "plastic" ->
     PLC w2 = PLC w /\
     outbox w2 =
       (outbox w ++
        [("app", event "container_not_recognized"
                   [("plc_type", JStr plc_type); ("vision_type", JStr vision)]
                   (clock w))])%list).
Proof.
  intros Hst Hcol Hplc Hvis.
  destruct (waiting_vision_collect_returns w) as (w1' & Hcol' & _ & Hclk & HPLC & Hout).
  rewrite Hcol in Hcol'. injection Hcol' as <-.
  assert (Hrun : run_state w = waiting_vision_decide w1).
  { unfold run_state, run_waiting_vision, bind, gets. rewrite Hst, Hcol. reflexivity. }
  rewrite Hrun. unfold waiting_vision_decide, _handle_vision_response_with_events.
  run_monad. rewrite Hvis, Hplc. cbn. rewrite ?Hplc. cbn [opt_eq_str json_of_opt].
  unfold outbox, command_word in *.
  destruct (String.eqb vision "none") eqn:En; cbn.
  { apply String.eqb_eq in En. subst vision.
    eexists. split; [reflexivity|]. cbn. rewrite Hout, Hclk, HPLC.
    repeat apply conj; try reflexivity.
    - intros _ ?; discriminate.
    - intros _ ?; discriminate.
    - intros _. split; reflexivity.
    - intros [[_ ?]|[_ ?]]; discriminate. }
  apply String.eqb_neq in En. rewrite ?Hplc. cbn [opt_eq_str json_of_opt].
  destruct (String.eqb plc_type "plastic" && String.eqb vision "plastic") eqn:Epp; cbn.
  { apply andb_prop in Epp as [E1 E2].
    apply String.eqb_eq in E1, E2. subst plc_type vision.
    eexists. split; [reflexivity|]. cbn. rewrite Hout, Hclk, HPLC.
    repeat apply conj; try reflexivity.
    - intros _ _. repeat apply conj; try reflexivity. apply bit_set_same. lia.
    - intros ?; discriminate.
    - intros ?; discriminate.
    - intros [[_ ?]|[? _]]; discriminate. }
  destruct (String.eqb plc_type "aluminum" && String.eqb vision "aluminum") eqn:Eaa; cbn.
  { apply andb_prop in Eaa as [E1 E2].
    apply String.eqb_eq in E1, E2. subst plc_type vision.
    eexists. split; [reflexivity|]. cbn. rewrite Hout, Hclk, HPLC.
    repeat apply conj; try reflexivity.
    - intros ?; discriminate.
    - intros _ _. repeat apply conj; try reflexivity. apply bit_set_same. lia.
    - intros ?; discriminate.
    - intros [[? _]|[_ ?]]; discriminate. }
  eexists. split; [reflexivity|]. cbn. rewrite Hout, Hclk, HPLC.
  repeat apply conj; try reflexivity.
  - intros -> ->. discriminate.
  - intros -> ->. discriminate.
  - intros ->. congruence.
  - intros _. split; reflexivity.
Qed.

Lemma get_command_sent (name : string) (h : WebSocket.t) :
  WebSocket.sent (snd (WebSocket.get_command name h)) = WebSocket.sent h.
Proof.
  unfold WebSocket.get_command.
  destruct (WebSocket.client_messages h !! name); reflexivity.
Qed.

Lemma get_command_fst (name : string) (h : WebSocket.t) :
  fst (WebSocket.get_command name h) = WebSocket.get_state name h.
Proof.
  unfold WebSocket.get_command, WebSocket.get_state.
  destruct (WebSocket.client_messages h !! name); reflexivity.
Qed.

Lemma ws_get_command_run (name : string) (w : World) :
  ws_get_command name w =
  Ret (WebSocket.get_state name (websocket_server w))
      (set_websocket_server (snd (WebSocket.get_command name (websocket_server w))) w).
Proof.
  unfold ws_get_command. rewrite <- get_command_fst.
  destruct (WebSocket.get_command name (websocket_server w)); reflexivity.
Qed.

Lemma ws_is_client_just_connected_run (name : string) (w : World) :
  ws_is_client_just_connected name w =
  Ret (armed name (websocket_server w))
      (set_websocket_server
         (snd (WebSocket.is_client_just_connected name (websocket_server w))) w).
Proof.
  unfold ws_is_client_just_connected. rewrite <- is_client_just_connected_armed.
  destruct (WebSocket.is_client_just_connected name (websocket_server w)); reflexivity.
Qed.

Lemma is_client_just_connected_sent (name : string) (h : WebSocket.t) :
  WebSocket.sent (snd (WebSocket.is_client_just_connected name h)) = WebSocket.sent h.
Proof.
  unfold WebSocket.is_client_just_connected.
  destruct (WebSocket.client_messages h !! name) as [s|]; [|reflexivity].
  destruct (default false (WebSocket.just_connected s)); reflexivity.
Qed.

Arguments ws_get_command : simpl never.
Arguments ws_is_client_just_connected : simpl never.
Arguments WebSocket.get_command : simpl never.
Arguments WebSocket.is_client_just_connected : simpl never.
Arguments WebSocket.get_state : simpl never.

(** Symbolic execution: unfold the monad, decide the tests that the context
    settles, and replace the hub reads by their results. *)
Ltac known :=
  repeat match goal with
    | H : _ = true |- _ => rewrite H
    | H : _ = false |- _ => rewrite H
    end.

Ltac exec :=
  unfold send_event_to_app, create_event, ws_send_to_client, elapsed_over,
    time_time, plc_get, plc_cmd, bind, gets, modify, ret, raise;
  repeat (progress (cbn; known;
                    rewrite ?ws_get_command_run, ?ws_is_client_just_connected_run)).

(** C3, as the code has it.  When the veil falls in IDLE and an inference run
    is armed, the coordinator emits [container_detected] and then sends one
    token to the vision peer: ["bottle_exist"] when the PLC reports a bottle
    or nothing yet, ["bank_exist"] when it reports a can. *)
Theorem arming_token (w : World) :
  prev_veil_state w = 1 ->
  PLC.get_state_veil (PLC w) = 0 ->
  (_inference_requested w = false \/
   PLC.get_bottle_exist (PLC w) <> 1 /\ PLC.get_bank_exist (PLC w) <> 1) ->
  exists (token : string) (detection : option string) (w' : World),
    idle_veil w = Ret tt w' /\
    state w' = WAITING_VISION /\
    _inference_requested w' = true /\
    current_plc_detection w' = detection /\
    vision_request_time w' = Some (clock w) /\
    outbox w' =
      (outbox w ++
       [("app", event "container_detected"
                  [("container_type", JStr (or_unknown detection))] (clock w));
        ("vision", Raw token)])%list /\
    (PLC.get_bottle_exist (PLC w) = 1 ->
     token = "bottle_exist" /\ detection = Some "plastic") /\
    (PLC.get_bottle_exist (PLC w) <> 1 -> PLC.get_bank_exist (PLC w) = 1 ->
     token = "bank_exist" /\ detection = Some "aluminum") /\
    (PLC.get_bottle_exist (PLC w) <> 1 -> PLC.get_bank_exist (PLC w) <> 1 ->
     token = "bottle_exist" /\ detection = None).
Proof.
  intros Hprev Hveil Harm.
  apply Z.eqb_eq in Hprev. assert (Hv : (PLC.get_state_veil (PLC w) =? 0) = true) by lia.
  assert (Hv1 : (PLC.get_state_veil (PLC w) =? 1) = false) by lia.
  unfold idle_veil, idle_arm, outbox.
  destruct (PLC.get_bottle_exist (PLC w) =? 1) eqn:Eb;
    [|destruct (PLC.get_bank_exist (PLC w) =? 1) eqn:Ek].
  - destruct Harm as [Hreq|[Hne _]]; [|lia]. exec.
    exists "bottle_exist", (Some "plastic"). eexists. split; [reflexivity|]. cbn.
    rewrite get_command_sent. cbn. rewrite <- app_assoc.
    repeat apply conj; try reflexivity; intros; try lia; auto.
  - destruct Harm as [Hreq|[_ Hne]]; [|lia]. exec.
    exists "bank_exist", (Some "aluminum"). eexists. split; [reflexivity|]. cbn.
    rewrite get_command_sent. cbn. rewrite <- app_assoc.
    repeat apply conj; try reflexivity; intros; try lia; auto.
  - exec.
    exists "bottle_exist", None. eexists. split; [reflexivity|]. cbn.
    rewrite get_command_sent. cbn. rewrite <- app_assoc.
    repeat apply conj; try reflexivity; intros; try lia; auto.
Qed.

Lemma dict_get_set (k : string) (v : json) (d : dict) :
  dict_get k (dict_set k v d) = v.
Proof.
  induction d as [|[k' v'] d IH]; cbn.
  - rewrite String.eqb_refl. reflexivity.
  - destruct (String.eqb k k') eqn:E; cbn; rewrite ?E, ?String.eqb_refl; auto.
Qed.

Lemma dict_get_set_other (k k' : string) (v : json) (d : dict) :
  k <> k' -> dict_get k' (dict_set k v d) = dict_get k' d.
Proof.
  intros Hne. induction d as [|[k0 v0] d IH]; cbn.
  - apply String.eqb_neq in Hne. rewrite String.eqb_sym, Hne. reflexivity.
  - destruct (String.eqb k k0) eqn:E; cbn.
    + apply String.eqb_eq in E. subst k0.
      assert (String.eqb k' k = false) as -> by (apply String.eqb_neq; congruence).
      reflexivity.
    + destruct (String.eqb k' k0); auto.
Qed.

Lemma parse_command_object (msg : string) (data : dict) (w : World) :
  msg <> "" ->
  json_loads msg = Decoded (JObj data) ->
  exists params,
    parse_command msg w = Ret (dict_get "command" data, params) w /\
    dict_get "param" params = normalized_param data.
Proof.
  intros Hne Hj. unfold parse_command, normalized_param.
  apply String.eqb_neq in Hne. rewrite Hne, Hj.
  destruct (dict_has "container_type" data);
    [|destruct (dict_has "config" data)];
    eexists; (split; [reflexivity|]); rewrite ?dict_get_set; reflexivity.
Qed.

Lemma parse_command_not_json (msg : string) (w : World) :
  json_loads msg = JSONDecodeError -> parse_command msg w = Ret (JNull, []) w.
Proof.
  intros Hj. unfold parse_command. rewrite Hj.
  destruct (String.eqb msg ""); reflexivity.
Qed.

(** C4. In ERROR, a command read from the [app] slot is honored when it is
    [get_photo] (a photo worker starts), [get_device_info] (the handler
    runs), [dump_container] (the handler runs on the parameter) or
    [restore_device] (the state becomes IDLE and [restore_device_ack] is
    emitted).  Any other command, registered or not, only emits
    [command_error] with [not_allowed_in_error_state]: the state stays
    ERROR and the PLC is not touched. *)
Theorem error_state_commands (w : World) (msg : string) (data : dict) (command : json) :
  state w = ERROR ->
  WebSocket.get_state "app" (websocket_server w) = msg ->
  msg <> "" ->
  json_loads msg = Decoded (JObj data) ->
  dict_get "command" data = command ->
  truthy command = true ->
  let w0 := drained "app" w in
  (command = JStr "get_photo" ->
   run_state w = Ret tt (set_photo_workers (S (photo_workers w)) w0)) /\
  (command = JStr "get_device_info" ->
   run_state w = handle_get_device_info w0 /\
   state (final (run_state w)) = ERROR) /\
  (command = JStr "dump_container" ->
   run_state w = handle_container_dump (normalized_param data) w0) /\
  (command = JStr "restore_device" ->
   run_state w =
     Ret tt (with_sent "app" (event "restore_device_ack" [("status", JStr "ok")] (clock w))
               (set_state IDLE w0)) /\
   state (final (run_state w)) = IDLE /\
   outbox (final (run_state w)) =
     (outbox w ++
      [("app", event "restore_device_ack" [("status", JStr "ok")] (clock w))])%list) /\
  (command <> JStr "get_photo" -> command <> JStr "get_device_info" ->
   command <> JStr "dump_container" -> command <> JStr "restore_device" ->
   run_state w =
     Ret tt (with_sent "app"
               (event "command_error"
                  [("command", command); ("error", JStr "not_allowed_in_error_state")]
                  (clock w)) w0) /\
   state (final (run_state w)) = ERROR /\
   PLC (final (run_state w)) = PLC w /\
   outbox (final (run_state w)) =
     (outbox w ++
      [("app", event "command_error"
                 [("command", command); ("error", JStr "not_allowed_in_error_state")]
                 (clock w))])%list).
Proof.
  intros Hst Hmsg Hne Hj Hcmd Htr w0.
  destruct (parse_command_object msg data w0 Hne Hj) as (params & Hparse & Hparam).
  assert (Hrun : run_state w =
                 (if json_eq_str command "get_photo" then handle_get_photo
                  else if json_eq_str command "get_device_info"
                  then handle_get_device_info
                  else if json_eq_str command "dump_container"
                  then handle_container_dump (normalized_param data)
                  else if json_eq_str command "restore_device" then
                    bind (modify (set_state IDLE))
                      (fun _ => send_event_to_app "restore_device_ack"
                                  [("status", JStr "ok")])
                  else
                    send_event_to_app "command_error"
                      [("command", command);
                       ("error", JStr "not_allowed_in_error_state")]) w0).
  { unfold run_state, _handle_error_state_commands, bind at 1, gets. rewrite Hst.
    unfold bind at 1. rewrite ws_get_command_run, Hmsg.
    unfold bind at 1. fold w0. fold (drained "app" w). fold w0.
    rewrite Hparse, Hcmd, Htr, Hparam. reflexivity. }
  rewrite Hrun. clear Hrun.
  split; [|split; [|split; [|split]]].
  - intros ->. reflexivity.
  - intros ->. split; [reflexivity|].
    cbn. unfold handle_get_device_info. exec. exact Hst.
  - intros ->. reflexivity.
  - intros ->. cbn. exec. repeat apply conj; try reflexivity.
    unfold outbox, w0, drained. cbn. rewrite get_command_sent. reflexivity.
  - intros H1 H2 H3 H4.
    rewrite !json_eq_str_false by assumption. exec.
    repeat apply conj; try reflexivity; [exact Hst|].
    unfold outbox, w0, drained. cbn. rewrite get_command_sent. reflexivity.
Qed.

(** C8, as the code has it.  An [app] message that is not valid JSON is read
    from the slot and dropped: no event is emitted and nothing else changes.
    A JSON object whose command is a true, hashable value that is not a
    registered name emits [command_error] with that command and
    [unknown_command], and nothing else changes. *)
Theorem protocol_misuse (w : World) (msg : string) :
  WebSocket.get_state "app" (websocket_server w) = msg ->
  msg <> "" ->
  let w0 := drained "app" w in
  outbox w0 = outbox w /\
  state w0 = state w /\
  PLC w0 = PLC w /\
  (json_loads msg = JSONDecodeError -> idle_commands w = Ret tt w0) /\
  (forall (data : dict) (command : json),
     json_loads msg = Decoded (JObj data) ->
     dict_get "command" data = command ->
     truthy command = true ->
     hashable command = true ->
     (forall name, command = JStr name ->
                   registry_lookup name _command_handlers = None) ->
     idle_commands w =
       Ret tt (with_sent "app"
                 (event "command_error"
                    [("command", command); ("error", JStr "unknown_command")]
                    (clock w)) w0)).
Proof.
  intros Hmsg Hne w0.
  assert (Hb : String.eqb msg "" = false) by (apply String.eqb_neq; exact Hne).
  repeat apply conj; try reflexivity.
  - unfold outbox, w0, drained. cbn. apply get_command_sent.
  - intros Hj. unfold idle_commands.
    unfold bind at 1. rewrite ws_get_command_run, Hmsg, Hb. cbn [negb].
    unfold bind at 1. fold (drained "app" w). fold w0.
    rewrite (parse_command_not_json msg w0 Hj). reflexivity.
  - intros data command Hj Hcmd Htr Hh Hreg. unfold idle_commands.
    unfold bind at 1. rewrite ws_get_command_run, Hmsg, Hb. cbn [negb].
    unfold bind at 1. fold (drained "app" w). fold w0.
    destruct (parse_command_object msg data w0 Hne Hj) as (params & Hparse & _).
    rewrite Hparse, Hcmd, Htr.
    unfold _dispatch_command. rewrite Hh. cbn [negb].
    assert (Hnone : match command with
                    | JStr name => registry_lookup name _command_handlers
                    | _ => None
                    end = None).
    { destruct command; try reflexivity. apply Hreg. reflexivity. }
    rewrite Hnone. exec. reflexivity.
Qed.

(** ** Frame rules for the actions of the loop *)

Lemma final_bind {A B : Type} (m : M A) (k : A -> M B) (w : World) :
  final (bind m k w) =
  match m w with
  | Ret a w1 => final (k a w1)
  | Exc _ w1 => w1
  end.
Proof. unfold bind. destruct (m w); reflexivity. Qed.

Section Frames.

Context (R : World -> World -> Prop) `{!Frame R}.

Lemma frame_refl (w : World) : R w w.
Proof. apply frame_same; reflexivity. Qed.

Lemma steps_ret {A : Type} (a : A) : steps R (ret a).
Proof. intros w. apply frame_refl. Qed.

Lemma steps_raise {A : Type} (e : exn) : steps R (raise (A := A) e).
Proof. intros w. apply frame_refl. Qed.

Lemma steps_gets {A : Type} (f : World -> A) : steps R (gets f).
Proof. intros w. apply frame_refl. Qed.

Lemma steps_plc_get {A : Type} (f : PLC.t -> A) : steps R (plc_get f).
Proof. intros w. apply frame_refl. Qed.

Lemma steps_modify (f : World -> World) :
  (forall w, R w (f w)) -> steps R (modify f).
Proof. intros H w. apply H. Qed.

Lemma steps_bind {A B : Type} (m : M A) (k : A -> M B) :
  steps R m -> (forall a, steps R (k a)) -> steps R (bind m k).
Proof.
  intros Hm Hk w. rewrite final_bind. specialize (Hm w).
  destruct (m w) as [a w1|e w1]; cbn in Hm; [|exact Hm].
  eapply frame_trans; [exact Hm | apply Hk].
Qed.

Lemma steps_time_time : steps R time_time.
Proof. apply steps_gets. Qed.

Lemma steps_elapsed_over (t : option Q) (timeout : Q) : steps R (elapsed_over t timeout).
Proof. intros w. unfold elapsed_over. destruct t; apply frame_refl. Qed.

Lemma steps_ws_get_command (name : string) : steps R (ws_get_command name).
Proof.
  intros w. rewrite ws_get_command_run. cbn.
  apply frame_same; try reflexivity. unfold outbox. cbn. apply get_command_sent.
Qed.

Lemma steps_ws_is_client_just_connected (name : string) :
  steps R (ws_is_client_just_connected name).
Proof.
  intros w. rewrite ws_is_client_just_connected_run. cbn.
  apply frame_same; try reflexivity. unfold outbox. cbn.
  apply is_client_just_connected_sent.
Qed.

Lemma steps_send_event_to_app (event_name : string) (data : dict) :
  steps R (send_event_to_app event_name data).
Proof. intros w. eapply frame_app; reflexivity. Qed.

Lemma steps_plc_set (n : Z) : 0 <= n -> steps R (plc_cmd (PLC.cmd_set_bit n 1)).
Proof. intros Hn w. eapply frame_set; [exact Hn | reflexivity ..]. Qed.

Lemma steps_plc_clear : steps R (plc_cmd PLC.cmd_full_clear_register).
Proof. intros w. eapply frame_clear; reflexivity. Qed.

Ltac frame_leaf :=
  first
    [ apply steps_ret | apply steps_raise | apply steps_gets | apply steps_plc_get
    | apply steps_time_time | apply steps_elapsed_over
    | apply steps_ws_get_command | apply steps_ws_is_client_just_connected
    | apply steps_send_event_to_app
    | apply steps_plc_clear
    | apply steps_plc_set; lia
    | apply steps_modify; intros; apply frame_same; reflexivity ].

Ltac frame :=
  repeat first
    [ frame_leaf
    | assumption
    | match goal with H : forall _, steps _ _ |- steps _ _ => apply H end
    | apply steps_bind; [ | intros ? ]
    | match goal with
      | |- steps _ (if ?c then _ else _) => destruct c
      | |- steps _ (match ?x with _ => _ end) => destruct x
      end ].

Lemma steps_check_receiver_state : steps R _check_receiver_state.
Proof. unfold _check_receiver_state. frame. Qed.

Lemma steps_rising_error getter prev set_prev code message :
  (forall v w, R w (set_prev v w)) ->
  steps R (rising_error getter prev set_prev code message).
Proof.
  intros H. unfold rising_error. frame. apply steps_modify. intros; apply H.
Qed.

Lemma steps_check_hardware_errors : steps R _check_hardware_errors.
Proof.
  assert (Hr : forall getter prev set_prev code message,
             (forall v w, PLC (set_prev v w) = PLC w /\ outbox (set_prev v w) = outbox w /\
                          _inference_requested (set_prev v w) = _inference_requested w) ->
             steps R (rising_error getter prev set_prev code message)).
  { intros getter prev set_prev code message H. apply steps_rising_error.
    intros v w. destruct (H v w) as (H1 & H2 & H3). apply frame_same; assumption. }
  unfold _check_hardware_errors.
  apply steps_bind; [apply Hr; intros; repeat split|intros _].
  apply steps_bind; [apply Hr; intros; repeat split|intros _].
  apply steps_bind; [apply Hr; intros; repeat split|intros _].
  apply Hr; intros; repeat split.
Qed.

Lemma steps_handle_dumping_state (st : AppState) : steps R (_handle_dumping_state st).
Proof. unfold _handle_dumping_state. frame. Qed.

Lemma steps_run_dumping : steps R run_dumping.
Proof.
  unfold run_dumping. apply steps_bind; [frame|].
  intros st. destruct st; try apply steps_ret; apply steps_handle_dumping_state.
Qed.

Lemma steps_handle_container_dump (arg : json) : steps R (handle_container_dump arg).
Proof. unfold handle_container_dump. frame. Qed.

Lemma steps_handle_get_device_info : steps R handle_get_device_info.
Proof. unfold handle_get_device_info. frame. Qed.

Lemma steps_handle_get_photo : steps R handle_get_photo.
Proof. unfold handle_get_photo. frame. Qed.

Lemma steps_call0 (h : handler) : steps R (call0 h).
Proof.
  destruct h; cbn;
    first [ apply steps_handle_get_device_info | apply steps_handle_get_photo
          | unfold handle_lock_door, handle_unlock_door; frame ].
Qed.

Lemma steps_call1 (h : handler) (arg : json) : steps R (call1 h arg).
Proof.
  destruct h; cbn;
    first [ apply steps_handle_container_dump
          | unfold handle_device_init, handle_container_unloaded, handle_stub_command;
            frame ].
Qed.

Lemma steps_dispatch_command (command : json) (params : dict) :
  steps R (_dispatch_command command params).
Proof.
  unfold _dispatch_command.
  destruct (negb (hashable command)); [apply steps_raise|].
  destruct (match command with JStr name => registry_lookup name _command_handlers
                          | _ => None end) as [[h requires_param]|].
  - apply steps_bind; [|intros; apply steps_ret].
    destruct h; try apply steps_call1; destruct requires_param;
      first [apply steps_call1 | apply steps_call0].
  - frame.
Qed.

Lemma steps_parse_command (message : string) : steps R (parse_command message).
Proof. unfold parse_command. frame. Qed.

Lemma steps_handle_error_state_commands : steps R _handle_error_state_commands.
Proof.
  unfold _handle_error_state_commands.
  apply steps_bind; [frame|]. intros m.
  apply steps_bind; [apply steps_parse_command|]. intros [c p].
  pose proof steps_handle_get_device_info. pose proof steps_handle_get_photo.
  pose proof (steps_handle_container_dump (dict_get "param" p)).
  frame.
Qed.

Lemma steps_handle_vision_response_with_events (vision_response : string) :
  steps R (_handle_vision_response_with_events vision_response).
Proof. unfold _handle_vision_response_with_events. frame. Qed.

Lemma steps_run_waiting_vision : steps R run_waiting_vision.
Proof.
  unfold run_waiting_vision, waiting_vision_collect, waiting_vision_decide.
  pose proof steps_handle_vision_response_with_events.
  frame.
Qed.

Lemma steps_idle_greet : steps R idle_greet.
Proof. unfold idle_greet. pose proof steps_handle_get_device_info. frame. Qed.

Lemma steps_idle_commands : steps R idle_commands.
Proof.
  unfold idle_commands.
  apply steps_bind; [frame|]. intros m.
  destruct (negb (String.eqb m "")); [|apply steps_ret].
  apply steps_bind; [apply steps_parse_command|]. intros [c p].
  destruct (truthy c); [|apply steps_ret].
  apply steps_bind; [apply steps_dispatch_command | intros; apply steps_ret].
Qed.

Lemma steps_run_state : steps R idle_veil -> steps R run_state.
Proof.
  intros Hveil. unfold run_state, run_idle.
  pose proof steps_run_waiting_vision. pose proof steps_handle_error_state_commands.
  pose proof steps_idle_greet. pose proof steps_idle_commands.
  frame.
Qed.

Lemma steps_run_iteration :
  steps R run_carriage_reset -> steps R idle_veil -> steps R run_iteration.
Proof.
  intros Hreset Hveil. unfold run_iteration.
  pose proof steps_run_dumping. pose proof (steps_run_state Hveil).
  pose proof steps_check_receiver_state. pose proof steps_check_hardware_errors.
  frame.
Qed.

End Frames.

(** ** One inference per occupancy *)

Lemma vision_requests_same (w w' : World) :
  outbox w' = outbox w -> vision_requests w' = vision_requests w.
Proof. unfold vision_requests. intros ->. reflexivity. Qed.

Lemma vision_requests_app (w w' : World) (msg : wire) :
  outbox w' = (outbox w ++ [("app", msg)])%list ->
  vision_requests w' = vision_requests w.
Proof.
  unfold vision_requests. intros ->. rewrite List.filter_app. cbn.
  apply app_nil_r.
Qed.

Lemma occupied_status (w w' : World) :
  PLC.modbus_register_status (PLC w') = PLC.modbus_register_status (PLC w) ->
  receiver_occupied w -> receiver_occupied w'.
Proof.
  unfold receiver_occupied, PLC.get_bottle_exist, PLC.get_bank_exist, PLC.status_bit.
  intros ->. auto.
Qed.

Lemma guard_quiet (w w' : World) :
  PLC.modbus_register_status (PLC w') = PLC.modbus_register_status (PLC w) ->
  vision_requests w' = vision_requests w ->
  _inference_requested w' = _inference_requested w ->
  guard_step w w'.
Proof.
  intros Hs Hv Hf. split; [exact Hs|]. intros _. exists [].
  rewrite app_nil_r. repeat split; auto.
  intros [H|H]; congruence.
Qed.

#[local] Instance guard_frame : Frame guard_step.
Proof.
  split.
  - intros w1 w2 w3 [Hs12 H12] [Hs23 H23]. split; [congruence|].
    intros Hocc.
    destruct (H12 Hocc) as (l1 & Hv1 & Hl1 & Hn1 & Hf1).
    destruct (H23 (occupied_status _ _ Hs12 Hocc)) as (l2 & Hv2 & Hl2 & Hn2 & Hf2).
    exists (l1 ++ l2)%list. rewrite Hv2, Hv1, <- app_assoc.
    split; [reflexivity|].
    assert (Hcase : l1 = [] \/ l2 = []).
    { destruct l1 as [|x l1]; [left; reflexivity|right].
      apply Hn2, Hf1. right. discriminate. }
    repeat split.
    + destruct Hcase as [-> | ->]; rewrite ?app_nil_r; cbn; assumption.
    + intros Hf. rewrite (Hn1 Hf). cbn. apply Hn2, Hf1. left. exact Hf.
    + intros [Hf|Hne].
      * apply Hf2. left. apply Hf1. left. exact Hf.
      * apply Hf2. destruct l1 as [|x l1].
        -- right. exact Hne.
        -- left. apply Hf1. right. discriminate.
  - intros w w' HP Ho Hf. apply guard_quiet; [rewrite HP; reflexivity| |exact Hf].
    apply vision_requests_same, Ho.
  - intros w w' msg HP Ho Hf. apply guard_quiet; [rewrite HP; reflexivity| |exact Hf].
    eapply vision_requests_app, Ho.
  - intros w w' n _ HP Ho Hf. apply guard_quiet; [rewrite HP; reflexivity| |exact Hf].
    apply vision_requests_same, Ho.
  - intros w w' HP Ho Hf. apply guard_quiet; [rewrite HP; reflexivity| |exact Hf].
    apply vision_requests_same, Ho.
Qed.

Lemma guard_carriage_reset (moving : World -> bool) (n : Z)
    (set_moving : bool -> World -> World) :
  (forall v w, PLC (set_moving v w) = PLC w /\ outbox (set_moving v w) = outbox w /\
               _inference_requested (set_moving v w) = _inference_requested w) ->
  steps guard_step (carriage_reset moving (PLC.cmd_set_bit n 0) set_moving).
Proof.
  intros Hset w. unfold carriage_reset.
  unfold elapsed_over, time_time, plc_cmd, bind, gets, modify, ret, raise.
  destruct (moving w && time_truthy (carriage_moving_start_time w));
    [|apply frame_refl; typeclasses eauto].
  destruct (carriage_moving_start_time w) as [t0|]; cbn;
    [|apply frame_refl; typeclasses eauto].
  destruct (Qltb carriage_reset_timeout (clock w - t0)); cbn;
    [|apply frame_refl; typeclasses eauto].
  destruct (Hset false (set_PLC (PLC.cmd_set_bit n 0 (PLC w)) w)) as (H1 & H2 & H3).
  unfold outbox in H2.
  apply guard_quiet; [| apply vision_requests_same; unfold outbox |]; cbn.
  - rewrite H1. reflexivity.
  - rewrite H2. reflexivity.
  - rewrite H3. reflexivity.
Qed.

Lemma guard_run_carriage_reset : steps guard_step run_carriage_reset.
Proof.
  unfold run_carriage_reset. apply steps_bind; [typeclasses eauto| |intros _].
  - apply guard_carriage_reset. intros; repeat split.
  - apply guard_carriage_reset. intros; repeat split.
Qed.

Lemma idle_veil_cases (w : World) :
  let empty := negb ((PLC.get_bottle_exist (PLC w) =? 1) || (PLC.get_bank_exist (PLC w) =? 1)) in
  let edge := (prev_veil_state w =? 1) && (PLC.get_state_veil (PLC w) =? 0) in
  let arm := edge && (empty || negb (_inference_requested w)) in
  exists w',
    idle_veil w = Ret tt w' /\
    PLC w' = PLC w /\
    _inference_requested w' =
      (if arm then true else if empty then false else _inference_requested w) /\
    outbox w' =
      (if arm then
         (outbox w ++
          [("app", event "container_detected"
                     [("container_type", JStr (or_unknown (current_plc_detection w')))]
                     (clock w));
           ("vision",
            Raw (if PLC.get_bottle_exist (PLC w) =? 1 then "bottle_exist"
                 else if PLC.get_bank_exist (PLC w) =? 1 then "bank_exist"
                 else "bottle_exist"))])%list
       else outbox w).
Proof.
  cbn zeta. unfold idle_veil, idle_arm, outbox.
  destruct (PLC.get_bottle_exist (PLC w) =? 1) eqn:Eb;
    destruct (PLC.get_bank_exist (PLC w) =? 1) eqn:Ek;
    destruct (prev_veil_state w =? 1) eqn:Ep;
    destruct (PLC.get_state_veil (PLC w) =? 0) eqn:Ev;
    destruct (_inference_requested w) eqn:Ef;
    destruct (PLC.get_state_veil (PLC w) =? 1) eqn:Ev1;
    try lia; exec;
    (eexists; split; [reflexivity|]; cbn;
     rewrite ?get_command_sent; cbn; rewrite <- ?app_assoc; cbn; known;
     repeat apply conj; reflexivity).
Qed.

Lemma guard_idle_veil : steps guard_step idle_veil.
Proof.
  intros w. destruct (idle_veil_cases w) as (w' & Hrun & HP & Hf & Ho).
  rewrite Hrun. cbn [final]. split; [rewrite HP; reflexivity|].
  intros [Hb|Hk].
  - apply Z.eqb_eq in Hb. rewrite Hb in Hf, Ho. cbn in Hf, Ho.
    destruct (_inference_requested w) eqn:Ef.
    + rewrite andb_false_r in Hf, Ho. exists [].
      rewrite app_nil_r. repeat split; auto.
      apply vision_requests_same, Ho.
    + rewrite andb_true_r in Hf, Ho.
      destruct ((prev_veil_state w =? 1) && (PLC.get_state_veil (PLC w) =? 0)).
      * eexists [_]. unfold vision_requests. rewrite Ho, List.filter_app. cbn.
        repeat split; auto. discriminate.
      * exists []. rewrite app_nil_r. repeat split; auto.
        -- apply vision_requests_same, Ho.
        -- intros [H|H]; congruence.
  - apply Z.eqb_eq in Hk. rewrite Hk, orb_true_r in Hf, Ho. cbn in Hf, Ho.
    destruct (_inference_requested w) eqn:Ef.
    + rewrite andb_false_r in Hf, Ho. exists [].
      rewrite app_nil_r. repeat split; auto.
      apply vision_requests_same, Ho.
    + rewrite andb_true_r in Hf, Ho.
      destruct ((prev_veil_state w =? 1) && (PLC.get_state_veil (PLC w) =? 0)).
      * eexists [_]. unfold vision_requests. rewrite Ho, List.filter_app. cbn.
        repeat split; auto. discriminate.
      * exists []. rewrite app_nil_r. repeat split; auto.
        -- apply vision_requests_same, Ho.
        -- intros [H|H]; congruence.
Qed.

Lemma guard_run_iteration : steps guard_step run_iteration.
Proof.
  apply steps_run_iteration;
    [typeclasses eauto | apply guard_run_carriage_reset | apply guard_idle_veil].
Qed.

Lemma env_step_guard (e : env_event) (w : World) :
  keeps_occupied e -> receiver_occupied w ->
  receiver_occupied (env_step w e) /\
  outbox (env_step w e) = outbox w /\
  _inference_requested (env_step w e) = _inference_requested w.
Proof.
  intros He Hocc. destruct e; cbn; repeat split; auto.
  unfold receiver_occupied, PLC.get_bottle_exist, PLC.get_bank_exist, PLC.status_bit in *.
  cbn in *. destruct (PLC.dev_status d) as [|v vs]; [exact Hocc|].
  cbn. unfold ModbusRegister.get_bit. cbn. exact He.
Qed.

Lemma env_steps_guard (events : list env_event) (w : World) :
  Forall keeps_occupied events -> receiver_occupied w ->
  receiver_occupied (fold_left env_step events w) /\
  outbox (fold_left env_step events w) = outbox w /\
  _inference_requested (fold_left env_step events w) = _inference_requested w.
Proof.
  revert w. induction events as [|e events IH]; intros w Hev Hocc; cbn; [auto|].
  inversion Hev as [|? ? He Hev']; subst.
  destruct (env_step_guard e w He Hocc) as (H1 & H2 & H3).
  destruct (IH _ Hev' H1) as (H4 & H5 & H6).
  repeat split; [assumption | congruence | congruence].
Qed.

Lemma guard_run (rounds : list (list env_event)) (w : World) :
  receiver_occupied w ->
  Forall (Forall keeps_occupied) rounds ->
  exists l,
    vision_requests (run rounds w) = (vision_requests w ++ l)%list /\
    (length l <= 1)%nat /\
    (_inference_requested w = true -> l = []) /\
    (_inference_requested w = true \/ l <> [] ->
     _inference_requested (run rounds w) = true).
Proof.
  revert w. induction rounds as [|events rounds IH]; intros w Hocc Hall; cbn.
  - exists []. rewrite app_nil_r. repeat split; auto. intros [H|H]; congruence.
  - inversion Hall as [|? ? Hev Hall']; subst.
    destruct (env_steps_guard events w Hev Hocc) as (Hocc1 & Ho1 & Hf1).
    set (w1 := fold_left env_step events w) in *.
    assert (Hv1 : vision_requests w1 = vision_requests w)
      by (apply vision_requests_same, Ho1).
    destruct (running w1).
    + destruct (guard_run_iteration w1) as [Hs Hg].
      destruct (Hg Hocc1) as (l1 & Hl1 & Hlen1 & Hn1 & Hk1).
      destruct (run_iteration w1) as [[] w2|e w2]; cbn [final] in *.
      * destruct (IH w2 (occupied_status _ _ Hs Hocc1) Hall')
          as (l2 & Hl2 & Hlen2 & Hn2 & Hk2).
        exists (l1 ++ l2)%list. rewrite Hl2, Hl1, Hv1, <- app_assoc.
        split; [reflexivity|].
        assert (Hcase : l1 = [] \/ l2 = []).
        { destruct l1 as [|x l1]; [left; reflexivity|right].
          apply Hn2, Hk1. right. discriminate. }
        repeat split.
        -- destruct Hcase as [-> | ->]; rewrite ?app_nil_r; cbn; assumption.
        -- intros Hf. rewrite <- Hf1 in Hf. rewrite (Hn1 Hf). cbn.
           apply Hn2, Hk1. left. exact Hf.
        -- intros [Hf|Hne].
           ++ apply Hk2. left. apply Hk1. left. congruence.
           ++ apply Hk2. destruct l1 as [|x l1].
              ** right. exact Hne.
              ** left. apply Hk1. right. discriminate.
      * exists l1. unfold vision_requests in *. cbn. unfold outbox in *. cbn.
        rewrite Hl1, Hv1. repeat split; auto.
        -- intros Hf. apply Hn1. congruence.
        -- intros [Hf|Hne]; apply Hk1; [left; congruence | right; exact Hne].
    + exists []. rewrite app_nil_r. repeat split; auto.
      intros [H|H]; congruence.
Qed.

(** C5, as the code has it.  While the receiver stays occupied, the loop
    sends at most one inference trigger to the vision peer, and none once
    the guard is set: a further falling edge of the veil does not arm
    again, and the guard stays set.  The guard is reset only by an IDLE
    iteration that sees the receiver empty: such an iteration arms on a
    falling edge of the veil (one trigger, guard set) and otherwise leaves
    the guard false. *)
Theorem inference_once (rounds : list (list env_event)) (w : World) :
  receiver_occupied w ->
  Forall (Forall keeps_occupied) rounds ->
  (exists l,
     vision_requests (run rounds w) = (vision_requests w ++ l)%list /\
     (length l <= 1)%nat /\
     (_inference_requested w = true ->
      l = [] /\ _inference_requested (run rounds w) = true)) /\
  (forall v : World,
     PLC.get_bottle_exist (PLC v) <> 1 ->
     PLC.get_bank_exist (PLC v) <> 1 ->
     exists v',
       idle_veil v = Ret tt v' /\
       (prev_veil_state v = 1 /\ PLC.get_state_veil (PLC v) = 0 ->
        _inference_requested v' = true /\
        vision_requests v' =
          (vision_requests v ++ [("vision", Raw "bottle_exist")])%list) /\
       (~ (prev_veil_state v = 1 /\ PLC.get_state_veil (PLC v) = 0) ->
        _inference_requested v' = false /\
        vision_requests v' = vision_requests v)).
Proof.
  intros Hocc Hall. split.
  - destruct (guard_run rounds w Hocc Hall) as (l & Hl & Hlen & Hn & Hk).
    exists l. repeat split; auto.
  - intros v Hb Hk.
    destruct (idle_veil_cases v) as (v' & Hrun & _ & Hf & Ho).
    apply Z.eqb_neq in Hb, Hk. rewrite Hb, Hk in Hf, Ho. cbn in Hf, Ho.
    rewrite andb_true_r in Hf, Ho.
    exists v'. split; [exact Hrun|]. split.
    + intros [Hp Hv]. rewrite Hp, Hv in Hf, Ho. cbn in Hf, Ho.
      split; [exact Hf|]. unfold vision_requests. rewrite Ho, List.filter_app.
      reflexivity.
    + intros Hno.
      assert (He : (prev_veil_state v =? 1) && (PLC.get_state_veil (PLC v) =? 0) = false).
      { destruct (prev_veil_state v =? 1) eqn:E1;
          destruct (PLC.get_state_veil (PLC v) =? 0) eqn:E2; try reflexivity.
        exfalso. apply Hno. split; lia. }
      rewrite He in Hf, Ho. split; [exact Hf|]. apply vision_requests_same, Ho.
Qed.

(** ** Latched command bits *)

Lemma latch_same_PLC (b : Z) (w w' : World) : PLC w' = PLC w -> latch_step b w w'.
Proof.
  intros HP. exists []. unfold writes, command_word. rewrite HP, app_nil_r. auto.
Qed.

Lemma latch_trans (b : Z) (w1 w2 w3 : World) :
  latch_step b w1 w2 -> latch_step b w2 w3 -> latch_step b w1 w3.
Proof.
  intros (l1 & Hw1 & H1) (l2 & Hw2 & H2). exists (l1 ++ l2)%list.
  rewrite Hw2, Hw1, <- app_assoc. split; [reflexivity|].
  intros Hb. rewrite map_app, in_app_iff.
  destruct (H1 Hb) as [Hb2|Hin]; [|auto].
  destruct (H2 Hb2); auto.
Qed.

Lemma latch_frame (b : Z) : 0 <= b -> Frame (latch_step b).
Proof.
  intros Hb. split.
  - apply latch_trans.
  - intros w w' HP _ _. apply latch_same_PLC, HP.
  - intros w w' msg HP _ _. apply latch_same_PLC, HP.
  - intros w w' n Hn HP _ _. eexists [_]. unfold writes, command_word. rewrite HP. cbn.
    split; [reflexivity|]. intros Hbit. left. apply bit_set_keeps; assumption.
  - intros w w' HP _ _. eexists [_]. unfold writes, command_word. rewrite HP. cbn.
    split; [reflexivity|]. intros _. right. left. reflexivity.
Qed.

(** The test of one timeout check, as the loop evaluates it. *)
Lemma reset_due_test (moving : World -> bool) (w : World) :
  reset_due moving w <->
  exists t0, carriage_moving_start_time w = Some t0 /\
             moving w && time_truthy (Some t0) = true /\
             Qltb carriage_reset_timeout (clock w - t0) = true.
Proof.
  unfold reset_due. split.
  - intros (Hm & t0 & Ht & Hnz & Hlate). exists t0. rewrite Hm. cbn.
    repeat split; [exact Ht | | apply Qltb_lt, Hlate].
    apply negb_true_iff. destruct (Qeq_bool t0 0) eqn:E; [|reflexivity].
    apply Qeq_bool_iff in E. contradiction.
  - intros (t0 & Ht & Hm & Hlate). apply andb_prop in Hm as [Hm Hnz]. cbn in Hnz.
    split; [exact Hm|]. exists t0. repeat split; [exact Ht | | apply Qltb_lt, Hlate].
    intros E. apply Qeq_bool_iff in E. rewrite E in Hnz. discriminate.
Qed.

Lemma carriage_reset_cases (moving : World -> bool) (n : Z)
    (set_moving : bool -> World -> World) (w : World) :
  (reset_due moving w /\
   carriage_reset moving (PLC.cmd_set_bit n 0) set_moving w =
     Ret tt (set_carriage_moving_start_time None
               (set_moving false (set_PLC (PLC.cmd_set_bit n 0 (PLC w)) w))))
  \/
  (~ reset_due moving w /\
   (carriage_reset moving (PLC.cmd_set_bit n 0) set_moving w = Ret tt w \/
    exists e, carriage_reset moving (PLC.cmd_set_bit n 0) set_moving w = Exc e w)).
Proof.
  unfold carriage_reset, elapsed_over, time_time, plc_cmd, bind, gets, modify, ret, raise.
  destruct (carriage_moving_start_time w) as [t0|] eqn:Et.
  - destruct (moving w && time_truthy (Some t0)) eqn:Em;
      [destruct (Qltb carriage_reset_timeout (clock w - t0)) eqn:El|].
    + left. split; [|reflexivity]. apply reset_due_test. exists t0. auto.
    + right. split; [|left; reflexivity].
      intros H. apply reset_due_test in H as (t1 & Ht1 & _ & Hl).
      rewrite Et in Ht1. injection Ht1 as <-. congruence.
    + right. split; [|left; reflexivity].
      intros H. apply reset_due_test in H as (t1 & Ht1 & Hm & _).
      rewrite Et in Ht1. injection Ht1 as <-. congruence.
  - right. split.
    + intros H. apply reset_due_test in H as (t1 & Ht1 & _). congruence.
    + left. cbn. rewrite andb_false_r. reflexivity.
Qed.

Lemma latch_carriage_reset_other (b n : Z) (moving : World -> bool)
    (set_moving : bool -> World -> World) :
  0 <= b -> 0 <= n -> n <> b ->
  (forall v w, PLC (set_moving v w) = PLC w) ->
  steps (latch_step b) (carriage_reset moving (PLC.cmd_set_bit n 0) set_moving).
Proof.
  intros Hb Hn Hne Hset w.
  destruct (carriage_reset_cases moving n set_moving w)
    as [[_ Hrun]|[_ [Hrun|[e Hrun]]]]; rewrite Hrun; cbn [final];
    try (apply latch_same_PLC; reflexivity).
  eexists [_]. unfold writes, command_word. cbn. rewrite Hset. cbn.
  split; [reflexivity|]. intros Hbit. left.
  rewrite bit_clear_other by assumption. exact Hbit.
Qed.

Lemma latch_carriage_reset_idle (b n : Z) (moving : World -> bool)
    (set_moving : bool -> World -> World) (w : World) :
  ~ reset_due moving w ->
  final (carriage_reset moving (PLC.cmd_set_bit n 0) set_moving w) = w.
Proof.
  intros Hno.
  destruct (carriage_reset_cases moving n set_moving w)
    as [[Hdue _]|[_ [Hrun|[e Hrun]]]]; [contradiction | |]; rewrite Hrun; reflexivity.
Qed.

Lemma run_dumping_shape (w : World) :
  final (run_dumping w) = w \/
  exists p s d h,
    final (run_dumping w) =
    set_websocket_server h (set_dump_started_time d (set_state s (set_PLC p w))).
Proof.
  assert (Hh : forall st, final (_handle_dumping_state st w) = w \/
            exists p s d h,
              final (_handle_dumping_state st w) =
              set_websocket_server h (set_dump_started_time d (set_state s (set_PLC p w)))).
  { intros st. unfold _handle_dumping_state.
    destruct (_dumping_config st) as [config|]; [|left; reflexivity].
    unfold send_event_to_app, create_event, ws_send_to_client, elapsed_over,
      time_time, plc_get, plc_cmd, bind, gets, modify, ret, raise.
    destruct (Z.eqb (sensor_getter config (PLC w)) 1).
    - right. do 4 eexists. reflexivity.
    - destruct (dump_started_time w) as [t0|]; [|left; reflexivity].
      destruct (Qltb dump_timeout (clock w - t0)).
      + right. do 4 eexists. reflexivity.
      + left. reflexivity. }
  unfold run_dumping, bind, gets.
  destruct (state w) eqn:Est; try (left; reflexivity); apply Hh.
Qed.

Lemma run_dumping_carriage (w : World) :
  let w1 := final (run_dumping w) in
  carriage_moving_bottle w1 = carriage_moving_bottle w /\
  carriage_moving_bank w1 = carriage_moving_bank w /\
  carriage_moving_start_time w1 = carriage_moving_start_time w /\
  clock w1 = clock w.
Proof.
  cbn zeta. destruct (run_dumping_shape w) as [->|(p & s & d & h & ->)]; cbn; auto.
Qed.

Lemma idle_veil_PLC (w : World) : PLC (final (idle_veil w)) = PLC w.
Proof.
  destruct (idle_veil_cases w) as (w' & Hrun & HP & _). rewrite Hrun. exact HP.
Qed.

Lemma latch_idle_veil (b : Z) : steps (latch_step b) idle_veil.
Proof. intros w. apply latch_same_PLC, idle_veil_PLC. Qed.

Lemma latch_bind (b : Z) {A B : Type} (m : M A) (k : A -> M B) (w : World) :
  latch_step b w (final (m w)) ->
  (forall a w1, m w = Ret a w1 -> latch_step b w1 (final (k a w1))) ->
  latch_step b w (final (bind m k w)).
Proof.
  intros Hm Hk. rewrite final_bind. destruct (m w) as [a w1|e w1] eqn:E; cbn in Hm.
  - eapply latch_trans; [exact Hm | apply Hk; reflexivity].
  - exact Hm.
Qed.

Lemma latch_tail (b : Z) :
  0 <= b ->
  steps (latch_step b)
    (bind run_state (fun _ => bind _check_receiver_state (fun _ => _check_hardware_errors))).
Proof.
  intros Hb. pose proof (latch_frame b Hb) as HF.
  apply steps_bind; [exact HF | apply steps_run_state; [exact HF | apply latch_idle_veil] |].
  intros _. apply steps_bind; [exact HF | apply steps_check_receiver_state, HF |].
  intros _. apply steps_check_hardware_errors, HF.
Qed.

Lemma latch_iteration_bottle (w : World) :
  ~ reset_due carriage_moving_bottle w ->
  latch_step 7 w (final (run_iteration w)).
Proof.
  intros Hno. unfold run_iteration.
  assert (HF : Frame (latch_step 7)) by (apply latch_frame; lia).
  apply latch_bind; [apply steps_run_dumping, HF|]. intros [] w1 Hd.
  assert (Hno1 : ~ reset_due carriage_moving_bottle w1).
  { pose proof (run_dumping_carriage w) as (H1 & _ & H3 & H4). rewrite Hd in *.
    cbn [final] in *. unfold reset_due. rewrite H1, H3, H4. exact Hno. }
  apply latch_bind; [|intros; apply latch_tail; lia].
  unfold run_carriage_reset. apply latch_bind.
  - rewrite (latch_carriage_reset_idle 7 7 _ _ w1 Hno1). apply latch_same_PLC. reflexivity.
  - intros; apply (latch_carriage_reset_other 7 6); try lia. reflexivity.
Qed.

Lemma latch_iteration_bank (w : World) :
  ~ reset_due carriage_moving_bank w ->
  latch_step 6 w (final (run_iteration w)).
Proof.
  intros Hno. unfold run_iteration.
  assert (HF : Frame (latch_step 6)) by (apply latch_frame; lia).
  apply latch_bind; [apply steps_run_dumping, HF|]. intros [] w1 Hd.
  assert (Hno1 : ~ reset_due carriage_moving_bank w1).
  { pose proof (run_dumping_carriage w) as (_ & H2 & H3 & H4). rewrite Hd in *.
    cbn [final] in *. unfold reset_due. rewrite H2, H3, H4. exact Hno. }
  apply latch_bind; [|intros; apply latch_tail; lia].
  unfold run_carriage_reset. apply latch_bind.
  - apply (latch_carriage_reset_other 6 7); try lia. reflexivity.
  - intros [] w2 Hr.
    assert (Hno2 : ~ reset_due carriage_moving_bank w2).
    { destruct (carriage_reset_cases carriage_moving_bottle 7 set_carriage_moving_bottle w1)
        as [[_ Hrun]|[_ [Hrun|[e Hrun]]]];
        unfold PLC.cmd_radxa_stop_detected_bottle in Hr; rewrite Hrun in Hr;
        [|injection Hr as <-; exact Hno1|discriminate].
      injection Hr as <-. intros (_ & t0 & Ht & _). discriminate. }
    rewrite (latch_carriage_reset_idle 6 6 _ _ w2 Hno2). apply latch_same_PLC. reflexivity.
Qed.

(** C6, as the code has it.  For bit 7 with [carriage_moving_bottle] and for
    bit 6 with [carriage_moving_bank]: the timeout check fires when the flag
    is set, the start time is set and more than [carriage_reset_timeout]
    (2 s) has passed since it; it then lowers that bit alone, clears the
    flag and the start time.  Up to the timeout it does nothing, so the bit
    is held for at least the timeout.  Over a whole iteration, the bit goes
    down only if the timeout check was due or a zero word was written to the
    slave, which is what the full clear of the command register does. *)
Theorem latch_clearing (b : Z) (moving : World -> bool) (stop_detected : PLC.t -> PLC.t)
    (set_moving : bool -> World -> World) (w : World) :
  (b = 7 /\ moving = carriage_moving_bottle /\
   stop_detected = PLC.cmd_radxa_stop_detected_bottle /\
   set_moving = set_carriage_moving_bottle
   \/
   b = 6 /\ moving = carriage_moving_bank /\
   stop_detected = PLC.cmd_radxa_stop_detected_bank /\
   set_moving = set_carriage_moving_bank) ->
  carriage_reset_timeout = 2%Q /\
  (reset_due moving w ->
   exists w',
     carriage_reset moving stop_detected set_moving w = Ret tt w' /\
     bit b (command_word w') = 0 /\
     (forall m, 0 <= m -> m <> b -> bit m (command_word w') = bit m (command_word w)) /\
     moving w' = false /\
     carriage_moving_start_time w' = None) /\
  (forall t0,
     carriage_moving_start_time w = Some t0 ->
     (clock w - t0 <= carriage_reset_timeout)%Q ->
     carriage_reset moving stop_detected set_moving w = Ret tt w) /\
  (bit b (command_word w) = 1 ->
   bit b (command_word (final (run_iteration w))) = 0 ->
   reset_due moving w \/
   exists l,
     writes (final (run_iteration w)) = (writes w ++ l)%list /\ In 0 (map snd l)).
Proof.
  intros Hcase.
  assert (Hshape : exists n, 0 <= n /\ n = b /\ stop_detected = PLC.cmd_set_bit n 0 /\
                             (forall v u, PLC (set_moving v u) = PLC u) /\
                             (forall u, moving (set_carriage_moving_start_time None
                                                  (set_moving false u)) = false)).
  { destruct Hcase as [(-> & -> & -> & ->)|(-> & -> & -> & ->)];
      eexists; repeat split; try reflexivity; lia. }
  destruct Hshape as (n & Hn & <- & -> & HsetP & Hflag).
  split; [reflexivity|]. split; [|split].
  - intros Hdue.
    destruct (carriage_reset_cases moving n set_moving w)
      as [[_ Hrun]|[Hno _]]; [|contradiction].
    eexists. split; [exact Hrun|]. unfold command_word. cbn. rewrite HsetP. cbn.
    repeat apply conj.
    + apply bit_clear_same, Hn.
    + intros m Hm Hne. apply bit_clear_other; auto.
    + apply Hflag.
    + reflexivity.
  - intros t0 Ht Hearly.
    destruct (carriage_reset_cases moving n set_moving w)
      as [[Hdue _]|[_ [Hrun|[e Hrun]]]].
    + exfalso. destruct Hdue as (_ & t1 & Ht1 & _ & Hlate).
      rewrite Ht in Ht1. injection Ht1 as <-.
      apply (Qlt_not_le _ _ Hlate Hearly).
    + exact Hrun.
    + exfalso. revert Hrun.
      unfold carriage_reset, elapsed_over, time_time, plc_cmd, bind, gets, modify,
        ret, raise.
      rewrite Ht.
      destruct (moving w && time_truthy (Some t0)); [|discriminate].
      destruct (Qltb carriage_reset_timeout (clock w - t0)); discriminate.
  - intros Hup Hdown.
    assert (Hlatch : ~ reset_due moving w -> latch_step n w (final (run_iteration w))).
    { destruct Hcase as [(-> & -> & _)|(-> & -> & _)].
      - apply latch_iteration_bottle.
      - apply latch_iteration_bank. }
    assert (Hdec : reset_due moving w \/ ~ reset_due moving w).
    { destruct (carriage_reset_cases moving n set_moving w) as [[H _]|[H _]]; auto. }
    destruct Hdec as [Hdue|Hno]; [left; exact Hdue|right].
    destruct (Hlatch Hno) as (l & Hw & Hbit).
    exists l. split; [exact Hw|].
    destruct (Hbit Hup) as [Hstill|Hzero]; [congruence | exact Hzero].
Qed.

(** * Further properties of the code *)

(** ** Register cell and driver *)

Lemma get_bit_bit (n : Z) (r : ModbusRegister.t) :
  ModbusRegister.get_bit n r = bit n (ModbusRegister.value r).
Proof. reflexivity. Qed.

(** X1. Reading back a bit that [set_bit] has just written gives 1 for a
    true state and 0 for a false one; every other bit reads as before; the
    word handed to the slave is the new word, under the register's own
    number; and a bit read is always 0 or 1. *)
Theorem set_bit_get_bit (n m state : Z) (r : ModbusRegister.t) :
  0 <= n -> 0 <= m ->
  let r' := fst (ModbusRegister.set_bit n state r) in
  ModbusRegister.get_bit n r' = (if Ztruthy state then 1 else 0) /\
  (m <> n -> ModbusRegister.get_bit m r' = ModbusRegister.get_bit m r) /\
  snd (ModbusRegister.set_bit n state r)
    = (ModbusRegister.register_number r, ModbusRegister.value r') /\
  (ModbusRegister.get_bit m r = 0 \/ ModbusRegister.get_bit m r = 1).
Proof.
  intros Hn Hm. cbn zeta. rewrite !get_bit_bit. unfold ModbusRegister.set_bit.
  destruct (Ztruthy state); cbn.
  - repeat apply conj.
    + apply bit_set_same, Hn.
    + intros Hne. rewrite !bit_testbit by assumption.
      rewrite Z.lor_spec, Z.shiftl_spec by assumption.
      assert (Z.testbit 1 (m - n) = false) as ->.
      { destruct (Z.ltb_spec m n).
        - apply Z.testbit_neg_r. lia.
        - change 1 with (2 ^ 0). apply Z.pow2_bits_false. lia. }
      rewrite orb_false_r. reflexivity.
    + reflexivity.
    + apply bit_01.
  - repeat apply conj.
    + apply bit_clear_same, Hn.
    + intros Hne. apply bit_clear_other; auto.
    + reflexivity.
    + apply bit_01.
Qed.

Lemma testbit_one (k : Z) : Z.testbit 1 k = (k =? 0).
Proof.
  destruct (Z.eqb_spec k 0) as [->|Hne]; [reflexivity|].
  destruct (Z.ltb_spec k 0).
  - apply Z.testbit_neg_r. assumption.
  - change 1 with (2 ^ 0). apply Z.pow2_bits_false. lia.
Qed.

Lemma set_bit_testbit (n state k : Z) (r : ModbusRegister.t) :
  0 <= n -> 0 <= k ->
  Z.testbit (ModbusRegister.value (fst (ModbusRegister.set_bit n state r))) k =
  if k =? n then Ztruthy state else Z.testbit (ModbusRegister.value r) k.
Proof.
  intros Hn Hk. unfold ModbusRegister.set_bit.
  destruct (Ztruthy state); cbn.
  - rewrite Z.lor_spec, Z.shiftl_spec, testbit_one by assumption.
    destruct (Z.eqb_spec k n) as [->|Hne].
    + rewrite Z.sub_diag. cbn. apply orb_true_r.
    + assert ((k - n =? 0) = false) as -> by lia. apply orb_false_r.
  - rewrite Z.land_spec, Z.lnot_spec, Z.shiftl_spec, testbit_one by assumption.
    destruct (Z.eqb_spec k n) as [->|Hne].
    + rewrite Z.sub_diag. cbn. apply andb_false_r.
    + assert ((k - n =? 0) = false) as -> by lia. apply andb_true_r.
Qed.

(** X2. Setting a bit twice to the same state is the same as setting it
    once, and two writes to different bits give the same word in either
    order. *)
Theorem set_bit_compose (n m s t : Z) (r : ModbusRegister.t) :
  0 <= n -> 0 <= m ->
  let set k v x := fst (ModbusRegister.set_bit k v x) in
  set n s (set n s r) = set n s r /\
  (n <> m -> set n s (set m t r) = set m t (set n s r)).
Proof.
  intros Hn Hm. cbn zeta.
  assert (Hext : forall a b : ModbusRegister.t,
            ModbusRegister.register_number a = ModbusRegister.register_number b ->
            (forall k, 0 <= k -> Z.testbit (ModbusRegister.value a) k
                                 = Z.testbit (ModbusRegister.value b) k) ->
            a = b).
  { intros [na va] [nb vb]. cbn. intros -> Hbits. f_equal. apply Z.bits_inj'. exact Hbits. }
  assert (Hnum : forall k v x,
            ModbusRegister.register_number (fst (ModbusRegister.set_bit k v x))
            = ModbusRegister.register_number x).
  { intros k v x. unfold ModbusRegister.set_bit. destruct (Ztruthy v); reflexivity. }
  split.
  - apply Hext; [rewrite !Hnum; reflexivity|]. intros k Hk.
    rewrite !set_bit_testbit by assumption. destruct (k =? n); reflexivity.
  - intros Hne. apply Hext; [rewrite !Hnum; reflexivity|]. intros k Hk.
    rewrite !set_bit_testbit by assumption.
    destruct (Z.eqb_spec k n), (Z.eqb_spec k m); try reflexivity. congruence.
Qed.

Lemma word16_testbit (v : Z) :
  word16 v <-> 0 <= v /\ forall k, 16 <= k -> Z.testbit v k = false.
Proof.
  unfold word16. split.
  - intros [H0 H1]. split; [exact H0|]. intros k Hk.
    destruct (Z.eq_dec v 0) as [->|Hv]; [apply Z.testbit_0_l|].
    apply Z.bits_above_log2; [exact H0|].
    assert (Z.log2 v < 16) by (apply Z.log2_lt_pow2; lia). lia.
  - intros [H0 Hhigh]. split; [exact H0|].
    destruct (Z.eq_dec v 0) as [->|Hv]; [reflexivity|].
    apply Z.log2_lt_pow2; [lia|].
    destruct (Z.ltb_spec (Z.log2 v) 16) as [Hlt|Hge]; [exact Hlt|].
    pose proof (Z.bit_log2 v ltac:(lia)) as Hb.
    rewrite (Hhigh _ Hge) in Hb. discriminate.
Qed.

Lemma set_bit_nonneg (n state : Z) (r : ModbusRegister.t) :
  0 <= n -> 0 <= ModbusRegister.value r ->
  0 <= ModbusRegister.value (fst (ModbusRegister.set_bit n state r)).
Proof.
  intros Hn Hv. unfold ModbusRegister.set_bit. destruct (Ztruthy state); cbn.
  - apply Z.lor_nonneg. split; [exact Hv|]. apply Z.shiftl_nonneg. lia.
  - apply Z.land_nonneg. left. exact Hv.
Qed.

Lemma set_bit_word16 (n state : Z) (r : ModbusRegister.t) :
  0 <= n < 16 -> word16 (ModbusRegister.value r) ->
  word16 (ModbusRegister.value (fst (ModbusRegister.set_bit n state r))).
Proof.
  intros Hn Hw. apply word16_testbit in Hw as [H0 Hhigh]. apply word16_testbit. split.
  - apply set_bit_nonneg; [lia | exact H0].
  - intros k Hk. rewrite set_bit_testbit by lia.
    assert ((k =? n) = false) as -> by lia. apply Hhigh, Hk.
Qed.

(** X3. Every command method of the driver leaves the status, speed, counter
    and percent registers alone, issues exactly one write, to the command
    register and carrying its new word, and keeps a 16-bit command word
    within 16 bits. *)
Theorem plc_command_effect (f : PLC.t -> PLC.t) (p : PLC.t) :
  In f plc_commands ->
  PLC.modbus_register_status (f p) = PLC.modbus_register_status p /\
  PLC.modbus_register_speed (f p) = PLC.modbus_register_speed p /\
  PLC.modbus_register_bank_counter (f p) = PLC.modbus_register_bank_counter p /\
  PLC.modbus_register_bottle_counter (f p) = PLC.modbus_register_bottle_counter p /\
  PLC.modbus_register_bottle_percent (f p) = PLC.modbus_register_bottle_percent p /\
  PLC.modbus_register_bank_percent (f p) = PLC.modbus_register_bank_percent p /\
  PLC.slave_writes (f p) =
    (PLC.slave_writes p ++
     [(ModbusRegister.register_number (PLC.modbus_register_cmd p), PLC.cmd_word (f p))])%list /\
  (word16 (PLC.cmd_word p) -> word16 (PLC.cmd_word (f p))).
Proof.
  intros Hin.
  assert (Hset : forall n s, 0 <= n < 16 ->
            let r' := fst (ModbusRegister.set_bit n s (PLC.modbus_register_cmd p)) in
            ModbusRegister.set_bit n s (PLC.modbus_register_cmd p)
            = (r', (ModbusRegister.register_number (PLC.modbus_register_cmd p),
                    ModbusRegister.value r')) /\
            (word16 (PLC.cmd_word p) -> word16 (ModbusRegister.value r'))).
  { intros n s Hn. cbn zeta. split.
    - unfold ModbusRegister.set_bit. destruct (Ztruthy s); reflexivity.
    - intros Hw. apply set_bit_word16; assumption. }
  assert (Hbit : forall n s, 0 <= n < 16 -> f = PLC.cmd_set_bit n s ->
            PLC.slave_writes (f p) =
              (PLC.slave_writes p ++
               [(ModbusRegister.register_number (PLC.modbus_register_cmd p),
                 PLC.cmd_word (f p))])%list /\
            (word16 (PLC.cmd_word p) -> word16 (PLC.cmd_word (f p)))).
  { intros n s Hn ->. destruct (Hset n s Hn) as (Hr & Hw).
    unfold PLC.cmd_set_bit, PLC.with_cmd, PLC.cmd_word. rewrite Hr. cbn. auto. }
  cbn in Hin.
  repeat (destruct Hin as [<-|Hin];
          [repeat apply conj; try reflexivity;
           first [ eapply Hbit; [|reflexivity]; lia
                 | intros _; unfold word16; cbn; lia ] |]).
  contradiction.
Qed.

(** X4. A pass of the poller never touches the command or speed register and
    writes nothing to the slave; afterwards a status getter returns the bit
    of the word that was read, and a read that returned nothing leaves the
    cached word as it was. *)
Theorem update_data_poll (d : PLC.device) (p : PLC.t) (n : Z) :
  let p' := PLC.update_data d p in
  PLC.modbus_register_cmd p' = PLC.modbus_register_cmd p /\
  PLC.modbus_register_speed p' = PLC.modbus_register_speed p /\
  PLC.slave_writes p' = PLC.slave_writes p /\
  (forall v rest, PLC.dev_status d = v :: rest -> PLC.status_bit n p' = bit n v) /\
  (PLC.dev_status d = [] -> PLC.status_bit n p' = PLC.status_bit n p) /\
  (forall v rest, PLC.dev_bottle_counter d = v :: rest -> PLC.get_bottle_count p' = v) /\
  (forall v rest, PLC.dev_bank_counter d = v :: rest -> PLC.get_bank_count p' = v).
Proof.
  cbn zeta. unfold PLC.update_data, PLC.status_bit, PLC.get_bottle_count,
    PLC.get_bank_count. cbn.
  repeat apply conj; try reflexivity.
  - intros v rest ->. reflexivity.
  - intros ->. reflexivity.
  - intros v rest ->. reflexivity.
  - intros v rest ->. reflexivity.
Qed.

(** ** Peer hub: slots, isolation, disconnection *)

Lemma get_state_lookup (name : string) (h : WebSocket.t) :
  WebSocket.get_state name h =
  match WebSocket.client_messages h !! name with
  | Some s => WebSocket.message s
  | None => ""
  end.
Proof. reflexivity. Qed.

Lemma get_command_slots (name : string) (h : WebSocket.t) :
  WebSocket.client_messages (snd (WebSocket.get_command name h)) =
  match WebSocket.client_messages h !! name with
  | Some s => <[name := WebSocket.mk_slot "" (WebSocket.timestamp s)
                          (WebSocket.just_connected s)]> (WebSocket.client_messages h)
  | None => WebSocket.client_messages h
  end.
Proof.
  unfold WebSocket.get_command.
  destruct (WebSocket.client_messages h !! name); reflexivity.
Qed.

Lemma is_client_just_connected_slots (name : string) (h : WebSocket.t) :
  WebSocket.client_messages (snd (WebSocket.is_client_just_connected name h)) =
  match WebSocket.client_messages h !! name with
  | Some s =>
      if default false (WebSocket.just_connected s)
      then <[name := WebSocket.mk_slot (WebSocket.message s) (WebSocket.timestamp s)
                       (Some false)]> (WebSocket.client_messages h)
      else WebSocket.client_messages h
  | None => WebSocket.client_messages h
  end.
Proof.
  unfold WebSocket.is_client_just_connected.
  destruct (WebSocket.client_messages h !! name) as [s|]; [|reflexivity].
  destruct (default false (WebSocket.just_connected s)); reflexivity.
Qed.

Lemma get_command_clients (name : string) (h : WebSocket.t) :
  WebSocket.clients (snd (WebSocket.get_command name h)) = WebSocket.clients h.
Proof.
  unfold WebSocket.get_command.
  destruct (WebSocket.client_messages h !! name); reflexivity.
Qed.

Lemma is_client_just_connected_clients (name : string) (h : WebSocket.t) :
  WebSocket.clients (snd (WebSocket.is_client_just_connected name h)) = WebSocket.clients h.
Proof.
  unfold WebSocket.is_client_just_connected.
  destruct (WebSocket.client_messages h !! name) as [s|]; [|reflexivity].
  destruct (default false (WebSocket.just_connected s)); reflexivity.
Qed.

(** X5. The slot keeps one message only: after two messages of a peer the
    first is lost; the continuous read returns the second and leaves it
    there, the one-shot read returns it once and then the empty string. *)
Theorem last_message_wins (name m1 m2 : string) (t1 t2 : Q) (h : WebSocket.t) :
  let h2 := WebSocket.handler_message name m2 t2 (WebSocket.handler_message name m1 t1 h) in
  WebSocket.get_state name h2 = m2 /\
  fst (WebSocket.get_command name h2) = m2 /\
  WebSocket.get_state name (snd (WebSocket.get_command name h2)) = "" /\
  fst (WebSocket.get_command name (snd (WebSocket.get_command name h2))) = "" /\
  WebSocket.client_messages h2 =
    WebSocket.client_messages (WebSocket.handler_message name m2 t2 h).
Proof.
  cbn zeta.
  assert (Hs : WebSocket.get_state name
                 (WebSocket.handler_message name m2 t2
                    (WebSocket.handler_message name m1 t1 h)) = m2).
  { rewrite get_state_lookup. cbn. rewrite lookup_insert_eq. reflexivity. }
  repeat apply conj.
  - exact Hs.
  - rewrite get_command_fst. exact Hs.
  - rewrite get_state_lookup, get_command_slots. cbn.
    rewrite lookup_insert_eq, lookup_insert_eq. reflexivity.
  - apply consumed_get_command, get_command_consumes.
  - cbn. apply insert_insert_eq.
Qed.

(** What peer [other] can observe of the hub. *)
Lemma hub_view_frame (other : string) (h h' : WebSocket.t) :
  WebSocket.client_messages h' !! other = WebSocket.client_messages h !! other ->
  WebSocket.get_state other h' = WebSocket.get_state other h /\
  armed other h' = armed other h.
Proof.
  intros H. rewrite !get_state_lookup. unfold armed. rewrite H. auto.
Qed.

(** X6. Whatever happens to one peer, the slot and socket of another peer stay
    as they were: registration, messages and disconnection of [name], the
    one-shot read and the just-connected read on [name], and any send. *)
Theorem peer_isolation (name other : string) (h : WebSocket.t) :
  name <> other ->
  forall h',
    (exists conn now, h' = WebSocket.handler_register name conn now h) \/
    (exists msg now, h' = WebSocket.handler_message name msg now h) \/
    h' = WebSocket.handler_disconnect name h \/
    h' = snd (WebSocket.get_command name h) \/
    h' = snd (WebSocket.is_client_just_connected name h) \/
    (exists to msg, h' = WebSocket.send_to_client to msg h) ->
    WebSocket.get_state other h' = WebSocket.get_state other h /\
    armed other h' = armed other h /\
    WebSocket.clients h' !! other = WebSocket.clients h !! other.
Proof.
  intros Hne h' Hop.
  assert (Hgoal : WebSocket.client_messages h' !! other
                  = WebSocket.client_messages h !! other /\
                  WebSocket.clients h' !! other = WebSocket.clients h !! other).
  { destruct Hop as [(conn & now & ->)|[(msg & now & ->)|[->|[->|[->|(to & msg & ->)]]]]].
    - cbn. rewrite !lookup_insert_ne by assumption. auto.
    - cbn. rewrite lookup_insert_ne by assumption. auto.
    - cbn. rewrite !lookup_delete_ne by assumption. auto.
    - rewrite get_command_slots, get_command_clients.
      destruct (WebSocket.client_messages h !! name); [|auto].
      rewrite lookup_insert_ne by assumption. auto.
    - rewrite is_client_just_connected_slots, is_client_just_connected_clients.
      destruct (WebSocket.client_messages h !! name) as [s|]; [|auto].
      destruct (default false (WebSocket.just_connected s)); [|auto].
      rewrite lookup_insert_ne by assumption. auto.
    - cbn. auto. }
  destruct Hgoal as [Hslot Hclient].
  destruct (hub_view_frame other h h' Hslot). auto.
Qed.

(** X7. After a disconnection the peer's slot and socket are gone: reads give
    the empty string and false.  The removal goes by name, so the close of
    an old connection also removes a newer registration under the same
    name; a later message on the newer connection brings back a slot with
    that message, unarmed, but no socket to send to. *)
Theorem disconnect_by_name (name msg : string) (conn1 conn2 : nat) (t1 t2 t3 : Q)
    (h : WebSocket.t) :
  let gone := WebSocket.handler_disconnect name h in
  let stale :=
    WebSocket.handler_disconnect name
      (WebSocket.handler_register name conn2 t2
         (WebSocket.handler_register name conn1 t1 h)) in
  let back := WebSocket.handler_message name msg t3 stale in
  (WebSocket.clients gone !! name = None /\
   WebSocket.get_state name gone = "" /\
   fst (WebSocket.get_command name gone) = "" /\
   fst (WebSocket.is_client_just_connected name gone) = false) /\
  (WebSocket.clients
     (WebSocket.handler_register name conn2 t2
        (WebSocket.handler_register name conn1 t1 h)) !! name = Some conn2 /\
   WebSocket.clients stale !! name = None /\
   WebSocket.client_messages stale !! name = None) /\
  (WebSocket.clients back !! name = None /\
   WebSocket.get_state name back = msg /\
   fst (WebSocket.is_client_just_connected name back) = false).
Proof.
  cbn zeta. repeat apply conj.
  - cbn. apply lookup_delete_eq.
  - rewrite get_state_lookup. cbn. rewrite lookup_delete_eq. reflexivity.
  - rewrite get_command_fst, get_state_lookup. cbn. rewrite lookup_delete_eq. reflexivity.
  - rewrite is_client_just_connected_armed. unfold armed. cbn.
    rewrite lookup_delete_eq. reflexivity.
  - cbn. apply lookup_insert_eq.
  - cbn. apply lookup_delete_eq.
  - cbn. apply lookup_delete_eq.
  - cbn. apply lookup_delete_eq.
  - rewrite get_state_lookup. cbn. rewrite lookup_insert_eq. reflexivity.
  - rewrite is_client_just_connected_armed. unfold armed. cbn.
    rewrite lookup_insert_eq. reflexivity.
Qed.

(** X8. The two destructive reads do not disturb each other: the one-shot
    read keeps the just-connected flag, and the just-connected read keeps
    the message.  A new registration under the same name drops an unread
    message and arms the flag again. *)
Theorem reads_independent (name : string) (conn : nat) (now : Q) (h : WebSocket.t) :
  armed name (snd (WebSocket.get_command name h)) = armed name h /\
  WebSocket.get_state name (snd (WebSocket.is_client_just_connected name h))
    = WebSocket.get_state name h /\
  WebSocket.get_state name (WebSocket.handler_register name conn now h) = "" /\
  armed name (WebSocket.handler_register name conn now h) = true.
Proof.
  repeat apply conj.
  - unfold armed. rewrite get_command_slots.
    destruct (WebSocket.client_messages h !! name) as [s|] eqn:E; [|rewrite E; reflexivity].
    rewrite lookup_insert_eq. reflexivity.
  - rewrite !get_state_lookup, is_client_just_connected_slots.
    destruct (WebSocket.client_messages h !! name) as [s|] eqn:E; [|rewrite E; reflexivity].
    destruct (default false (WebSocket.just_connected s)); [|rewrite E; reflexivity].
    rewrite lookup_insert_eq. reflexivity.
  - rewrite get_state_lookup. cbn. rewrite lookup_insert_eq. reflexivity.
  - unfold armed. cbn. rewrite lookup_insert_eq. reflexivity.
Qed.

(** ** Invariants of the loop: a rule per construct *)

Section Invariants.

Context (R : World -> World -> Prop).
Hypothesis R_refl : forall w, R w w.
Hypothesis R_trans : forall w1 w2 w3, R w1 w2 -> R w2 w3 -> R w1 w3.

Lemma inv_ret {A : Type} (a : A) : steps R (ret a).
Proof. intros w. apply R_refl. Qed.

Lemma inv_raise {A : Type} (e : exn) : steps R (raise (A := A) e).
Proof. intros w. apply R_refl. Qed.

Lemma inv_gets {A : Type} (f : World -> A) : steps R (gets f).
Proof. intros w. apply R_refl. Qed.

Lemma inv_elapsed_over (t : option Q) (timeout : Q) : steps R (elapsed_over t timeout).
Proof. intros w. unfold elapsed_over. destruct t; apply R_refl. Qed.

Lemma inv_modify (f : World -> World) : (forall w, R w (f w)) -> steps R (modify f).
Proof. intros H w. apply H. Qed.

Lemma inv_bind {A B : Type} (m : M A) (k : A -> M B) :
  steps R m -> (forall a, steps R (k a)) -> steps R (bind m k).
Proof.
  intros Hm Hk w. rewrite final_bind. specialize (Hm w).
  destruct (m w) as [a w1|e w1]; cbn in Hm; [|exact Hm].
  eapply R_trans; [exact Hm | apply Hk].
Qed.

Lemma inv_ws_get_command (name : string) :
  (forall w, R w (drained name w)) -> steps R (ws_get_command name).
Proof. intros H w. rewrite ws_get_command_run. apply H. Qed.

Lemma inv_ws_is_client_just_connected (name : string) :
  (forall w, R w (set_websocket_server
                    (snd (WebSocket.is_client_just_connected name (websocket_server w))) w)) ->
  steps R (ws_is_client_just_connected name).
Proof. intros H w. rewrite ws_is_client_just_connected_run. apply H. Qed.

End Invariants.

(** Walk through a computation with the rules above; [leaf] settles what a
    single write to the world does to the relation. *)
Ltac walk Hrefl Htrans leaf :=
  repeat first
    [ apply (inv_ret _ Hrefl)
    | apply (inv_raise _ Hrefl)
    | apply (inv_gets _ Hrefl)
    | apply (inv_elapsed_over _ Hrefl)
    | apply inv_ws_get_command; intros; leaf
    | apply inv_ws_is_client_just_connected; intros; leaf
    | apply inv_modify; intros; leaf
    | apply (inv_bind _ Htrans); [ | intros ? ]
    | match goal with
      | |- steps _ (if ?c then _ else _) => destruct c
      | |- steps _ (match ?x with _ => _ end) => destruct x
      end ].

(** ** The transitions of the state machine *)

Lemma state_in_refl (S : AppState -> Prop) (w : World) : state_in S w w.
Proof. intros H. exact H. Qed.

Lemma state_in_trans (S : AppState -> Prop) (w1 w2 w3 : World) :
  state_in S w1 w2 -> state_in S w2 w3 -> state_in S w1 w3.
Proof. unfold state_in. auto. Qed.

Lemma state_kept_refl (w : World) : state_kept w w.
Proof. reflexivity. Qed.

Lemma state_kept_trans (w1 w2 w3 : World) :
  state_kept w1 w2 -> state_kept w2 w3 -> state_kept w1 w3.
Proof. unfold state_kept. congruence. Qed.

Ltac state_leaf :=
  first [ reflexivity
        | unfold state_in, drained; cbn; intros;
          first [ assumption | discriminate | tauto | (left; reflexivity)
                | (right; reflexivity) ] ].

Lemma state_kept_carriage_reset : steps state_kept run_carriage_reset.
Proof.
  unfold run_carriage_reset, carriage_reset.
  walk state_kept_refl state_kept_trans state_leaf.
Qed.

Lemma state_kept_checks :
  steps state_kept (bind _check_receiver_state (fun _ => _check_hardware_errors)).
Proof.
  unfold _check_receiver_state, _check_hardware_errors, rising_error, send_event_to_app,
    create_event.
  walk state_kept_refl state_kept_trans state_leaf.
Qed.

Lemma state_in_waiting_vision :
  steps (state_in (fun s => s = WAITING_VISION \/ s = IDLE)) run_waiting_vision.
Proof.
  unfold run_waiting_vision, waiting_vision_collect, waiting_vision_decide,
    _handle_vision_response_with_events, send_event_to_app, create_event.
  walk (state_in_refl (fun s => s = WAITING_VISION \/ s = IDLE))
       (state_in_trans (fun s => s = WAITING_VISION \/ s = IDLE)) state_leaf.
Qed.

Lemma state_in_dispatch (S : AppState -> Prop) (command : json) (params : dict) :
  S DUMPING_PLASTIC -> S DUMPING_ALUMINUM ->
  steps (state_in S) (_dispatch_command command params).
Proof.
  intros HP HA.
  pose proof (state_in_refl S) as Hrefl. pose proof (state_in_trans S) as Htrans.
  unfold _dispatch_command.
  destruct (negb (hashable command)); [apply (inv_raise _ Hrefl)|].
  destruct (match command with JStr name => registry_lookup name _command_handlers
                          | _ => None end) as [[h requires_param]|].
  - apply (inv_bind _ Htrans); [|intros; apply (inv_ret _ Hrefl)].
    destruct h, requires_param; cbn [call0 call1];
      unfold handle_get_photo, handle_get_device_info, handle_device_init,
        handle_container_dump, handle_container_unloaded, handle_lock_door,
        handle_unlock_door, handle_stub_command, send_event_to_app, create_event;
      walk Hrefl Htrans state_leaf.
  - unfold send_event_to_app, create_event. walk Hrefl Htrans state_leaf.
Qed.

Lemma state_in_parse_command (S : AppState -> Prop) (message : string) :
  steps (state_in S) (parse_command message).
Proof.
  unfold parse_command.
  walk (state_in_refl S) (state_in_trans S) state_leaf.
Qed.

Lemma state_in_idle (S : AppState -> Prop) :
  S WAITING_VISION -> S DUMPING_PLASTIC -> S DUMPING_ALUMINUM ->
  steps (state_in S) run_idle.
Proof.
  intros HW HP HA.
  pose proof (state_in_refl S) as Hrefl. pose proof (state_in_trans S) as Htrans.
  unfold run_idle.
  apply (inv_bind _ Htrans); [|intros _; apply (inv_bind _ Htrans); [|intros _]].
  - unfold idle_greet, handle_get_device_info, send_event_to_app, create_event.
    walk Hrefl Htrans state_leaf.
  - unfold idle_veil, idle_arm, send_event_to_app, create_event.
    walk Hrefl Htrans state_leaf.
  - unfold idle_commands.
    apply (inv_bind _ Htrans); [walk Hrefl Htrans state_leaf|]. intros m.
    destruct (negb (String.eqb m "")); [|apply (inv_ret _ Hrefl)].
    apply (inv_bind _ Htrans); [apply state_in_parse_command|]. intros [c p].
    destruct (truthy c); [|apply (inv_ret _ Hrefl)].
    apply (inv_bind _ Htrans); [apply state_in_dispatch; assumption|].
    intros; apply (inv_ret _ Hrefl).
Qed.

Lemma state_in_error (S : AppState -> Prop) :
  S IDLE -> S DUMPING_PLASTIC -> S DUMPING_ALUMINUM ->
  steps (state_in S) _handle_error_state_commands.
Proof.
  intros HI HP HA.
  pose proof (state_in_refl S) as Hrefl. pose proof (state_in_trans S) as Htrans.
  unfold _handle_error_state_commands.
  apply (inv_bind _ Htrans); [walk Hrefl Htrans state_leaf|]. intros m.
  apply (inv_bind _ Htrans); [apply state_in_parse_command|]. intros [c p].
  unfold handle_get_photo, handle_get_device_info, handle_container_dump,
    send_event_to_app, create_event.
  walk Hrefl Htrans state_leaf.
Qed.

Lemma run_dumping_idle (w : World) :
  state w <> DUMPING_PLASTIC -> state w <> DUMPING_ALUMINUM -> run_dumping w = Ret tt w.
Proof.
  intros H1 H2. unfold run_dumping, bind, gets.
  destruct (state w) eqn:E; try congruence; reflexivity.
Qed.

Lemma iteration_from (S : AppState -> Prop) (w : World) :
  state w <> DUMPING_PLASTIC -> state w <> DUMPING_ALUMINUM ->
  S (state w) ->
  (forall v, state v = state w -> S (state (final (run_state v)))) ->
  S (state (final (run_iteration w))).
Proof.
  intros H1 H2 HS Hstate. unfold run_iteration.
  rewrite final_bind, (run_dumping_idle w H1 H2).
  rewrite final_bind. pose proof (state_kept_carriage_reset w) as Hk.
  destruct (run_carriage_reset w) as [[] w2|e w2]; cbn [final] in Hk;
    [|rewrite Hk; exact HS].
  rewrite final_bind. specialize (Hstate w2 Hk).
  destruct (run_state w2) as [[] w3|e w3]; cbn [final] in Hstate; [|exact Hstate].
  rewrite (state_kept_checks w3). exact Hstate.
Qed.

Lemma run_state_branch (v : World) :
  run_state v =
  match state v with
  | WAITING_VISION => run_waiting_vision v
  | ERROR => _handle_error_state_commands v
  | IDLE => run_idle v
  | _ => Ret tt v
  end.
Proof. unfold run_state, bind, gets. destruct (state v); reflexivity. Qed.

(** X9. What one iteration can do to the state.  From IDLE it never reaches
    ERROR; from WAITING_VISION it stays there or returns to IDLE, so a dump
    cannot start while a vision answer is awaited; from ERROR it never goes
    to WAITING_VISION. *)
Theorem fsm_transitions (w : World) :
  let s' := state (final (run_iteration w)) in
  (state w = IDLE -> s' <> ERROR) /\
  (state w = WAITING_VISION -> s' = WAITING_VISION \/ s' = IDLE) /\
  (state w = ERROR -> s' <> WAITING_VISION).
Proof.
  cbn zeta. repeat apply conj; intros Hst.
  - apply (iteration_from (fun s => s <> ERROR)); rewrite ?Hst; try discriminate.
    intros v Hv. rewrite run_state_branch, Hv.
    apply (state_in_idle (fun s => s <> ERROR)); try discriminate.
    rewrite Hv. discriminate.
  - apply (iteration_from (fun s => s = WAITING_VISION \/ s = IDLE));
      rewrite ?Hst; try discriminate; auto.
    intros v Hv. rewrite run_state_branch, Hv.
    apply (state_in_waiting_vision v). rewrite Hv. auto.
  - apply (iteration_from (fun s => s <> WAITING_VISION)); rewrite ?Hst; try discriminate.
    intros v Hv. rewrite run_state_branch, Hv.
    apply (state_in_error (fun s => s <> WAITING_VISION)); try discriminate.
    rewrite Hv. discriminate.
Qed.

(** ** What the loop writes and sends *)

(** The same walk, through every function that an iteration calls; a fact
    about [idle_veil] or about [send_event_to_app] in the context is used as
    it is. *)
Ltac walk_loop Hrefl Htrans leaf :=
  unfold run_iteration, run_dumping, _handle_dumping_state, run_carriage_reset,
    carriage_reset, run_state, run_waiting_vision, waiting_vision_collect,
    waiting_vision_decide, _handle_vision_response_with_events,
    _handle_error_state_commands, run_idle, idle_greet,
    idle_commands, parse_command, _dispatch_command,
    _check_receiver_state, _check_hardware_errors, rising_error;
  repeat first
    [ assumption
    | apply (inv_ret _ Hrefl)
    | apply (inv_raise _ Hrefl)
    | apply (inv_gets _ Hrefl)
    | apply (inv_elapsed_over _ Hrefl)
    | match goal with
      | |- steps _ (bind _ _) => apply (inv_bind _ Htrans); [ | intros ? ]
      | |- steps _ (if ?c then _ else _) => destruct c
      | |- steps _ (match ?x with _ => _ end) => destruct x
      end
    | match goal with
      | H : forall n d, steps _ (send_event_to_app n d)
        |- steps _ (send_event_to_app _ _) => apply H
      end
    | progress cbn [call0 call1]
    | progress unfold handle_get_photo, handle_get_device_info, handle_device_init,
        handle_container_dump, handle_container_unloaded, handle_lock_door,
        handle_unlock_door, handle_stub_command
    | progress unfold send_event_to_app, create_event
    | apply inv_ws_get_command; intros; solve [leaf]
    | apply inv_ws_is_client_just_connected; intros; solve [leaf]
    | apply inv_modify; intros; solve [leaf] ].

Ltac walk_all Hrefl Htrans leaf :=
  unfold run_iteration, run_state, run_idle, idle_veil, idle_arm;
  walk_loop Hrefl Htrans leaf.

Lemma ambient_refl (w : World) : ambient_kept w w.
Proof. repeat split. Qed.

Lemma ambient_trans (w1 w2 w3 : World) :
  ambient_kept w1 w2 -> ambient_kept w2 w3 -> ambient_kept w1 w3.
Proof. unfold ambient_kept. intros (?&?&?) (?&?&?). repeat split; congruence. Qed.

Ltac ambient_leaf :=
  unfold ambient_kept, drained; cbn;
  rewrite ?get_command_clients, ?is_client_just_connected_clients;
  repeat split.

Lemma ambient_run_iteration : steps ambient_kept run_iteration.
Proof. walk_all ambient_refl ambient_trans ambient_leaf. Qed.

Lemma io_refl (w : World) : io_step w w.
Proof.
  unfold io_step. repeat apply conj; try reflexivity;
    exists []; rewrite app_nil_r; split; [reflexivity | constructor | reflexivity | constructor].
Qed.

Lemma io_trans (w1 w2 w3 : World) : io_step w1 w2 -> io_step w2 w3 -> io_step w1 w3.
Proof.
  unfold io_step.
  intros (A1 & A2 & A3 & A4 & A5 & A6 & A7 & (lw1 & Hw1 & Fw1) & (lo1 & Ho1 & Fo1))
         (B1 & B2 & B3 & B4 & B5 & B6 & B7 & (lw2 & Hw2 & Fw2) & (lo2 & Ho2 & Fo2)).
  repeat apply conj; try congruence.
  - exists (lw1 ++ lw2)%list. rewrite Hw2, Hw1, <- app_assoc. split; [reflexivity|].
    apply Forall_app. split; [exact Fw1|]. rewrite <- A7. exact Fw2.
  - exists (lo1 ++ lo2)%list. rewrite Ho2, Ho1, <- app_assoc. split; [reflexivity|].
    apply Forall_app. split; assumption.
Qed.

Ltac io_leaf :=
  unfold io_step, drained, writes, outbox; cbn;
  rewrite ?get_command_sent, ?is_client_just_connected_sent;
  repeat apply conj; try reflexivity;
  first
    [ exists []; rewrite app_nil_r; split; [reflexivity | constructor]
    | eexists [_]; split; [reflexivity|];
      constructor; [ | constructor ];
      first [ reflexivity
            | right; right; do 3 eexists; reflexivity ] ].

Lemma io_idle_veil : steps io_step idle_veil.
Proof.
  intros w. destruct (idle_veil_cases w) as (w' & Hrun & HP & _ & Ho).
  rewrite Hrun. cbn [final]. unfold io_step, writes. rewrite HP.
  repeat apply conj; try reflexivity.
  - exists []. rewrite app_nil_r. split; [reflexivity | constructor].
  - destruct ((prev_veil_state w =? 1) && (PLC.get_state_veil (PLC w) =? 0) &&
              (negb ((PLC.get_bottle_exist (PLC w) =? 1) || (PLC.get_bank_exist (PLC w) =? 1))
               || negb (_inference_requested w))).
    + eexists [_; _]. split; [exact Ho|].
      constructor; [right; right; do 3 eexists; reflexivity|].
      constructor; [|constructor].
      destruct (PLC.get_bottle_exist (PLC w) =? 1); [left; reflexivity|].
      destruct (PLC.get_bank_exist (PLC w) =? 1); [right; left; reflexivity | left; reflexivity].
    + exists []. rewrite app_nil_r. split; [exact Ho | constructor].
Qed.

Lemma io_send_event_to_app (event_name : string) (data : dict) :
  steps io_step (send_event_to_app event_name data).
Proof.
  intros w. unfold send_event_to_app, create_event, ws_send_to_client, time_time,
    bind, gets, modify, ret. cbn [final].
  io_leaf.
Qed.

(** X10. In one iteration the loop writes to the slave only through the
    command register, never changes the polled registers or the speed
    register, and hands to the hub only events for [app] and the two
    inference tokens for [vision]; it does not touch the clock, the
    [running] flag or the sockets. *)
Theorem loop_io_discipline (w : World) :
  io_step w (final (run_iteration w)) /\ ambient_kept w (final (run_iteration w)).
Proof.
  split; [|apply ambient_run_iteration].
  revert w. change (steps io_step run_iteration).
  pose proof io_idle_veil. pose proof io_send_event_to_app.
  walk_loop io_refl io_trans io_leaf.
Qed.

(** ** The command handlers *)

Lemma total_ret {A : Type} (a : A) : total (ret a).
Proof. intros w. eauto. Qed.

Lemma total_gets {A : Type} (f : World -> A) : total (gets f).
Proof. intros w. unfold gets. eauto. Qed.

Lemma total_modify (f : World -> World) : total (modify f).
Proof. intros w. unfold modify. eauto. Qed.

Lemma total_bind {A B : Type} (m : M A) (k : A -> M B) :
  total m -> (forall a, total (k a)) -> total (bind m k).
Proof.
  intros Hm Hk w. destruct (Hm w) as (a & w1 & Hr). unfold bind. rewrite Hr. apply Hk.
Qed.

Lemma total_ws_get_command (name : string) : total (ws_get_command name).
Proof. intros w. rewrite ws_get_command_run. eauto. Qed.

Lemma total_ws_is_client_just_connected (name : string) :
  total (ws_is_client_just_connected name).
Proof. intros w. rewrite ws_is_client_just_connected_run. eauto. Qed.

Ltac walk_total :=
  repeat first
    [ assumption
    | apply total_ret | apply total_gets | apply total_modify
    | apply total_ws_get_command | apply total_ws_is_client_just_connected
    | apply total_bind; [ | intros ? ]
    | match goal with
      | |- total (if ?c then _ else _) => destruct c
      | |- total (match ?x with _ => _ end) => destruct x
      end
    | progress unfold send_event_to_app, create_event ].

Lemma total_send_event_to_app (event_name : string) (data : dict) :
  total (send_event_to_app event_name data).
Proof. walk_total. Qed.

Lemma total_handle_get_device_info : total handle_get_device_info.
Proof. unfold handle_get_device_info. walk_total. Qed.

Lemma total_handle_container_dump (arg : json) : total (handle_container_dump arg).
Proof. unfold handle_container_dump. walk_total. Qed.

Lemma total_handle_container_unloaded (arg : json) : total (handle_container_unloaded arg).
Proof. unfold handle_container_unloaded. walk_total. Qed.

Lemma total_handle_device_init (arg : json) : total (handle_device_init arg).
Proof. unfold handle_device_init. walk_total. Qed.

Lemma registry_entries (name : string) (h : handler) (requires_param : bool) :
  registry_lookup name _command_handlers = Some (h, requires_param) ->
  In (name, (h, requires_param)) _command_handlers.
Proof.
  generalize _command_handlers as l. intros l.
  induction l as [|[k v] l IH]; cbn; [discriminate|].
  destruct (String.eqb name k) eqn:E.
  - apply String.eqb_eq in E. subst k. intros [= ->]. left. reflexivity.
  - intros H. right. apply IH, H.
Qed.

(** X11. The registry is consistent with the handlers: for every registered
    name, whatever the parameters, the dispatcher calls the handler with the
    number of arguments it takes, so the call returns and the dispatcher
    answers true. *)
Theorem registry_total (name : string) (h : handler) (requires_param : bool)
    (params : dict) (w : World) :
  registry_lookup name _command_handlers = Some (h, requires_param) ->
  exists w', _dispatch_command (JStr name) params w = Ret true w'.
Proof.
  intros Hreg.
  assert (Hcall : total (match h with
                         | h_handle_stub_command => call1 h (JStr name)
                         | _ => if requires_param
                                then call1 h (dict_get "param" params)
                                else call0 h
                         end)).
  { apply registry_entries in Hreg. cbn in Hreg.
    repeat (destruct Hreg as [[= <- <- <-]|Hreg];
            [cbn;
             first [ apply total_handle_get_device_info
                   | apply total_handle_container_dump
                   | apply total_handle_container_unloaded
                   | apply total_handle_device_init
                   | unfold handle_get_photo, handle_lock_door, handle_unlock_door,
                       handle_stub_command, plc_cmd; walk_total ] |]).
    contradiction. }
  unfold _dispatch_command. cbn [hashable negb]. rewrite Hreg.
  destruct (Hcall w) as ([] & w' & Hr). unfold bind. rewrite Hr. eauto.
Qed.

(** X12. A stub command only sends [<name>_ack] with status
    [not_implemented]; in particular [restore_device] received in IDLE
    changes no state. *)
Theorem stub_commands (name : string) (params : dict) (w : World) :
  In name stub_names ->
  _dispatch_command (JStr name) params w =
  Ret true (with_sent "app"
              (event (name ++ "_ack") [("status", JStr "not_implemented")] (clock w)) w).
Proof.
  intros Hin. cbn in Hin.
  repeat (destruct Hin as [<-|Hin]; [reflexivity|]). contradiction.
Qed.

(** X13. [lock_door] and [unlock_door] set the virtual door flag and confirm
    with [up_door_locked] or [up_door_unlocked]; a [get_device_info] that
    follows reports that flag and the current state. *)
Theorem door_lock_reported (lock : bool) (params params' : dict) (w : World) :
  let command := if lock then "lock_door" else "unlock_door" in
  let confirmation := if lock then "up_door_locked" else "up_door_unlocked" in
  exists w1 w2 data,
    _dispatch_command (JStr command) params w = Ret true w1 /\
    door_locked w1 = lock /\
    outbox w1 = (outbox w ++ [("app", event confirmation [("status", JStr "ok")] (clock w))])%list /\
    _dispatch_command (JStr "get_device_info") params' w1 = Ret true w2 /\
    outbox w2 = (outbox w1 ++ [("app", event "device_info" data (clock w))])%list /\
    dict_get "door_locked" data = JBool lock /\
    dict_get "state" data = JStr (AppState_value (state w)).
Proof.
  cbn zeta.
  destruct lock; do 3 eexists;
    (split; [vm_compute; reflexivity|]);
    (split; [reflexivity|]);
    (split; [reflexivity|]);
    (split; [vm_compute; reflexivity|]);
    (split; [reflexivity|]);
    split; reflexivity.
Qed.

(** X14. [device_init] with an empty configuration (missing, null, empty
    object, empty string, zero) is ignored without any answer; any other
    configuration is stored and confirmed with [device_init_ack]. *)
Theorem device_init_config (config : json) (params : dict) (w : World) :
  dict_get "param" params = config ->
  (truthy config = false ->
   _dispatch_command (JStr "device_init") params w = Ret true w) /\
  (truthy config = true ->
   _dispatch_command (JStr "device_init") params w =
   Ret true (with_sent "app" (event "device_init_ack" [("status", JStr "ok")] (clock w))
               (set_device_config config w))).
Proof.
  intros Hp. unfold _dispatch_command. cbn. unfold bind. cbn. rewrite Hp.
  unfold handle_device_init.
  split; intros ->; reflexivity.
Qed.

(** X15. [container_unloaded] always answers with [container_unloaded_ack]
    carrying the type it was given, also for an unknown or missing type;
    it raises command bit 3 for plastic, bit 2 for aluminum and no bit
    otherwise. *)
Theorem container_unloaded_ack (container_type : json) (params : dict) (w : World) :
  dict_get "param" params = container_type ->
  exists w',
    _dispatch_command (JStr "container_unloaded") params w = Ret true w' /\
    outbox w' =
      (outbox w ++
       [("app", event "container_unloaded_ack" [("container_type", container_type)]
                  (clock w))])%list /\
    state w' = state w /\
    (container_type = JStr "plastic" ->
     command_word w' = Z.lor (command_word w) (Z.shiftl 1 3)) /\
    (container_type = JStr "aluminum" ->
     command_word w' = Z.lor (command_word w) (Z.shiftl 1 2)) /\
    (container_type <> JStr "plastic" -> container_type <> JStr "aluminum" ->
     PLC w' = PLC w).
Proof.
  intros Hp. unfold _dispatch_command. cbn. unfold bind at 1. cbn. rewrite Hp.
  unfold handle_container_unloaded.
  destruct (json_eq_str container_type "plastic") eqn:E1;
    [|destruct (json_eq_str container_type "aluminum") eqn:E2].
  - apply json_eq_str_true in E1. subst container_type.
    eexists. split; [reflexivity|]. cbn.
    repeat apply conj; try reflexivity; intros; congruence.
  - apply json_eq_str_true in E2. subst container_type.
    eexists. split; [reflexivity|]. cbn.
    repeat apply conj; try reflexivity; intros; congruence.
  - eexists. split; [reflexivity|]. cbn.
    repeat apply conj; try reflexivity.
    + intros ->. cbn in E1. discriminate.
    + intros ->. cbn in E2. discriminate.
Qed.
(** ** Waiting for the vision answer *)

Lemma waiting_vision_collect_keeps (w : World) :
  exists w1, waiting_vision_collect w = Ret tt w1 /\
             state w1 = state w /\ clock w1 = clock w /\
             PLC w1 = PLC w /\ outbox w1 = outbox w /\
             vision_request_time w1 = vision_request_time w.
Proof.
  unfold waiting_vision_collect. exec.
  destruct (negb (String.eqb (WebSocket.get_state "vision" (websocket_server w)) "")
            && negb (opt_is_some (_pending_vision_response w)));
    cbn;
    destruct (current_plc_detection w); cbn;
    try (destruct (PLC.get_bottle_exist (PLC w) =? 1); cbn;
         try (destruct (PLC.get_bank_exist (PLC w) =? 1); cbn));
    eexists; (split; [reflexivity|]); unfold outbox; cbn;
    rewrite ?get_command_sent; auto.
Qed.

(** X16. In WAITING_VISION, while the vision answer or the PLC detection is
    still missing: once more than [vision_timeout] has passed since the
    request the coordinator gives up, returns to IDLE, clears what it had
    collected and emits [container_not_recognized] with empty data, without
    touching the PLC; until then it stays in WAITING_VISION and sends
    nothing. *)
Theorem vision_timeout_gives_up (w w1 : World) (t0 : Q) :
  state w = WAITING_VISION ->
  waiting_vision_collect w = Ret tt w1 ->
  current_plc_detection w1 = None \/ _pending_vision_response w1 = None ->
  vision_request_time w = Some t0 ->
  ((vision_timeout < clock w - t0)%Q ->
   exists w2,
     run_state w = Ret tt w2 /\
     state w2 = IDLE /\
     _pending_vision_response w2 = None /\
     current_plc_detection w2 = None /\
     vision_request_time w2 = None /\
     veil_cleared_time w2 = None /\
     PLC w2 = PLC w /\
     outbox w2 =
       (outbox w ++ [("app", event "container_not_recognized" [] (clock w))])%list) /\
  ((clock w - t0 <= vision_timeout)%Q ->
   run_state w = Ret tt w1 /\ state w1 = WAITING_VISION /\ outbox w1 = outbox w).
Proof.
  intros Hst Hcol Hmiss Ht.
  destruct (waiting_vision_collect_keeps w) as (w1' & Hcol' & Hs & Hclk & HPLC & Hout & Hreq).
  rewrite Hcol in Hcol'. injection Hcol' as <-.
  assert (Hrun : run_state w = waiting_vision_decide w1).
  { unfold run_state, run_waiting_vision, bind, gets. rewrite Hst, Hcol. reflexivity. }
  rewrite Hrun.
  assert (Hdec : waiting_vision_decide w1 =
                 if Qltb vision_timeout (clock w - t0)
                 then Ret tt
                        (with_sent "app" (event "container_not_recognized" [] (clock w))
                           (set_pending_vision_response None
                              (set_current_plc_detection None
                                 (set_vision_request_time None
                                    (set_state IDLE (set_veil_cleared_time None w1))))))
                 else Ret tt w1).
  { unfold waiting_vision_decide, elapsed_over, time_time, send_event_to_app, create_event,
      ws_send_to_client, bind, gets, modify, ret, with_sent.
    rewrite <- Hreq in Ht.
    destruct Hmiss as [Hm|Hm]; rewrite Hm;
      destruct (_pending_vision_response w1); try destruct (current_plc_detection w1);
      cbn; rewrite ?Ht, ?Hclk; cbn;
      destruct (Qltb vision_timeout (clock w - t0)); cbn; rewrite ?Hclk; reflexivity. }
  rewrite Hdec. split.
  - intros Hlate. apply Qltb_lt in Hlate. rewrite Hlate.
    eexists. split; [reflexivity|]. unfold outbox in *. cbn.
    rewrite HPLC, Hout. repeat apply conj; reflexivity.
  - intros Hnot. apply Qltb_ge in Hnot. rewrite Hnot.
    repeat apply conj; [reflexivity | congruence | exact Hout].
Qed.

(** ** Edge-triggered events *)

(** X17. The receiver event is sent on a change only: when the occupancy read
    from the PLC differs from the remembered one, the coordinator sends
    [receiver_not_empty] with both sensor bits or [receiver_empty], and
    remembers the new value; when it does not differ nothing is sent, so a
    second check without a new poll is silent.  The check never touches the
    state or the PLC. *)
Theorem receiver_events_edge_triggered (w : World) :
  let bottle := PLC.get_bottle_exist (PLC w) in
  let bank := PLC.get_bank_exist (PLC w) in
  let current := if Ztruthy bottle then bottle else bank in
  exists w',
    _check_receiver_state w = Ret tt w' /\
    _prev_receiver_state w' = current /\
    PLC w' = PLC w /\ state w' = state w /\
    outbox w' =
      (outbox w ++
       if current =? _prev_receiver_state w then []
       else if Ztruthy current
            then [("app", event "receiver_not_empty"
                            [("bottle_exist", JInt bottle); ("bank_exist", JInt bank)]
                            (clock w))]
            else [("app", event "receiver_empty" [] (clock w))])%list /\
    _check_receiver_state w' = Ret tt w'.
Proof.
  cbn zeta. unfold _check_receiver_state.
  set (bottle := PLC.get_bottle_exist (PLC w)).
  set (bank := PLC.get_bank_exist (PLC w)).
  unfold send_event_to_app, create_event, ws_send_to_client, time_time, plc_get,
    bind, gets, modify, ret, outbox.
  fold bottle bank.
  destruct ((if Ztruthy bottle then bottle else bank) =? _prev_receiver_state w) eqn:E; cbn.
  - apply Z.eqb_eq in E. exists w.
    repeat apply conj; try reflexivity.
    + symmetry. exact E.
    + rewrite app_nil_r. reflexivity.
    + fold bottle bank. rewrite <- E, Z.eqb_refl. reflexivity.
  - destruct (Ztruthy (if Ztruthy bottle then bottle else bank)) eqn:Et; cbn;
      eexists; repeat apply conj; try reflexivity;
      cbn; fold bottle bank; rewrite Z.eqb_refl; reflexivity.
Qed.

Lemma rising_error_run (getter : PLC.t -> Z) (prev : World -> Z)
    (set_prev : Z -> World -> World) (code message : string) (w : World) :
  rising_error getter prev set_prev code message w =
  Ret tt
    (set_prev (getter (PLC w))
       (if Ztruthy (getter (PLC w)) && negb (Ztruthy (prev w))
        then with_sent "app"
               (event "hardware_error"
                  [("error_code", JStr code); ("message", JStr message)] (clock w)) w
        else w)).
Proof.
  unfold rising_error, send_event_to_app, create_event, ws_send_to_client, time_time,
    plc_get, bind, gets, modify, ret, with_sent.
  destruct (Ztruthy (getter (PLC w)) && negb (Ztruthy (prev w))); reflexivity.
Qed.
Lemma check_hardware_errors_report (w : World) :
  exists w',
    _check_hardware_errors w = Ret tt w' /\
    state w' = state w /\ PLC w' = PLC w /\
    _prev_weight_error w' = PLC.get_state_weight_error (PLC w) /\
    _prev_weight_too_small w' = PLC.get_weight_too_small (PLC w) /\
    _prev_left_movement_error w' = PLC.get_left_movement_error (PLC w) /\
    _prev_right_movement_error w' = PLC.get_right_movement_error (PLC w) /\
    outbox w' =
      (outbox w
       ++ rising (PLC.get_state_weight_error (PLC w)) (_prev_weight_error w)
            "weight_error" "Ошибка взвешивания" (clock w)
       ++ rising (PLC.get_weight_too_small (PLC w)) (_prev_weight_too_small w)
            "weight_too_small" "Вес слишком маленький" (clock w)
       ++ rising (PLC.get_left_movement_error (PLC w)) (_prev_left_movement_error w)
            "left_movement_error" "Ошибка движения каретки влево" (clock w)
       ++ rising (PLC.get_right_movement_error (PLC w)) (_prev_right_movement_error w)
            "right_movement_error" "Ошибка движения каретки вправо" (clock w))%list.
Proof.
  unfold _check_hardware_errors, bind, rising.
  rewrite rising_error_run.
  destruct (Ztruthy (PLC.get_state_weight_error (PLC w)) && negb (Ztruthy (_prev_weight_error w)));
    cbn -[rising_error];
    rewrite rising_error_run; cbn -[rising_error];
    destruct (Ztruthy (PLC.get_weight_too_small (PLC w))
              && negb (Ztruthy (_prev_weight_too_small w)));
    cbn -[rising_error];
    rewrite rising_error_run; cbn -[rising_error];
    destruct (Ztruthy (PLC.get_left_movement_error (PLC w))
              && negb (Ztruthy (_prev_left_movement_error w)));
    cbn -[rising_error];
    rewrite rising_error_run; cbn -[rising_error];
    destruct (Ztruthy (PLC.get_right_movement_error (PLC w))
              && negb (Ztruthy (_prev_right_movement_error w)));
    cbn -[rising_error];
    (eexists; split; [reflexivity|]);
    unfold outbox; cbn; rewrite <- ?app_assoc, ?app_nil_r; cbn;
    repeat apply conj; reflexivity.
Qed.

Lemma rising_same (x : Z) (error_code message : string) (now : Q) :
  rising x x error_code message now = [].
Proof. unfold rising. destruct (Ztruthy x); reflexivity. Qed.

(** X18. The hardware checks report a rising edge only: for each of the four
    error bits one [hardware_error] is sent when the bit reads 1 and the
    remembered value was 0, and nothing otherwise; the bit is remembered,
    so a second check without a new poll is silent.  Reporting an error
    changes neither the state nor the PLC. *)
Theorem hardware_error_rising_edge (w : World) :
  let p := PLC w in
  exists w',
    _check_hardware_errors w = Ret tt w' /\
    state w' = state w /\ PLC w' = p /\
    outbox w' =
      (outbox w
       ++ rising (PLC.get_state_weight_error p) (_prev_weight_error w)
            "weight_error" "Ошибка взвешивания" (clock w)
       ++ rising (PLC.get_weight_too_small p) (_prev_weight_too_small w)
            "weight_too_small" "Вес слишком маленький" (clock w)
       ++ rising (PLC.get_left_movement_error p) (_prev_left_movement_error w)
            "left_movement_error" "Ошибка движения каретки влево" (clock w)
       ++ rising (PLC.get_right_movement_error p) (_prev_right_movement_error w)
            "right_movement_error" "Ошибка движения каретки вправо" (clock w))%list /\
    outbox (final (_check_hardware_errors w')) = outbox w'.
Proof.
  cbn zeta.
  destruct (check_hardware_errors_report w)
    as (w' & Hrun & Hst & HP & H1 & H2 & H3 & H4 & Hout).
  exists w'. repeat apply conj; try assumption.
  destruct (check_hardware_errors_report w') as (w2 & Hrun' & _ & _ & _ & _ & _ & _ & Hout').
  rewrite Hrun'. cbn [final]. rewrite Hout', HP, H1, H2, H3, H4, !rising_same, !app_nil_r.
  reflexivity.
Qed.

(** ** Commands of the app while the coordinator is busy *)

Lemma app_slot_kept_refl (w : World) : app_slot_kept w w.
Proof. reflexivity. Qed.

Lemma app_slot_kept_trans (w1 w2 w3 : World) :
  app_slot_kept w1 w2 -> app_slot_kept w2 w3 -> app_slot_kept w1 w3.
Proof. unfold app_slot_kept. congruence. Qed.

Lemma get_command_other (name other : string) (h : WebSocket.t) :
  name <> other ->
  WebSocket.client_messages (snd (WebSocket.get_command name h)) !! other
  = WebSocket.client_messages h !! other.
Proof.
  intros Hne. rewrite get_command_slots.
  destruct (WebSocket.client_messages h !! name); [|reflexivity].
  apply lookup_insert_ne. exact Hne.
Qed.

Ltac app_slot_leaf :=
  unfold app_slot_kept, drained; cbn;
  first [ reflexivity | apply get_command_other; discriminate ].

Lemma app_slot_kept_carriage_reset : steps app_slot_kept run_carriage_reset.
Proof.
  unfold run_carriage_reset, carriage_reset.
  walk app_slot_kept_refl app_slot_kept_trans app_slot_leaf.
Qed.

Lemma app_slot_kept_checks :
  steps app_slot_kept (bind _check_receiver_state (fun _ => _check_hardware_errors)).
Proof.
  unfold _check_receiver_state, _check_hardware_errors, rising_error, send_event_to_app,
    create_event.
  walk app_slot_kept_refl app_slot_kept_trans app_slot_leaf.
Qed.

Lemma app_slot_kept_waiting_vision : steps app_slot_kept run_waiting_vision.
Proof.
  unfold run_waiting_vision, waiting_vision_collect, waiting_vision_decide,
    _handle_vision_response_with_events, send_event_to_app, create_event.
  walk app_slot_kept_refl app_slot_kept_trans app_slot_leaf.
Qed.

(** An iteration in which the dumping phase does nothing. *)
Lemma iteration_after_dumping (R : World -> World -> Prop) (w : World) :
  (forall v, R v v) ->
  (forall w1 w2 w3, R w1 w2 -> R w2 w3 -> R w1 w3) ->
  run_dumping w = Ret tt w ->
  steps R run_carriage_reset ->
  steps R (bind _check_receiver_state (fun _ => _check_hardware_errors)) ->
  (forall v, state v = state w -> R v (final (run_state v))) ->
  R w (final (run_iteration w)).
Proof.
  intros Hrefl Htrans Hd Hreset Hchecks Hstate. unfold run_iteration.
  rewrite final_bind, Hd, final_bind.
  pose proof (state_kept_carriage_reset w) as Hk. pose proof (Hreset w) as Hr.
  destruct (run_carriage_reset w) as [[] w2|e w2]; cbn [final] in Hk, Hr; [|exact Hr].
  apply (Htrans _ _ _ Hr). rewrite final_bind.
  pose proof (Hstate w2 Hk) as Hs.
  destruct (run_state w2) as [[] w3|e w3]; cbn [final] in Hs; [|exact Hs].
  apply (Htrans _ _ _ Hs). apply Hchecks.
Qed.

Lemma run_dumping_in_progress (w : World) (config : dumping_config) (t0 : Q) :
  _dumping_config (state w) = Some config ->
  sensor_getter config (PLC w) <> 1 ->
  dump_started_time w = Some t0 ->
  (clock w - t0 <= dump_timeout)%Q ->
  run_dumping w = Ret tt w.
Proof.
  intros Hc Hs Ht Hlate.
  apply Z.eqb_neq in Hs. apply Qltb_ge in Hlate.
  unfold run_dumping, _handle_dumping_state, elapsed_over, time_time, plc_get, bind, gets.
  destruct (state w) eqn:Est; cbn in Hc; try discriminate;
    injection Hc as <-; cbn in *; rewrite Hs, Ht; cbn; rewrite Hlate; reflexivity.
Qed.

(** X19. The app slot is read in IDLE and in ERROR only.  An iteration that
    starts in WAITING_VISION, or in a dumping state whose sensor is not
    reached and whose timeout has not passed, leaves the slot of the app as
    it is: a command sent meanwhile waits there (and is replaced by a later
    one) until the coordinator is back in IDLE or in ERROR. *)
Theorem app_commands_deferred (w : World) :
  state w = WAITING_VISION \/
  (exists config t0,
     _dumping_config (state w) = Some config /\
     sensor_getter config (PLC w) <> 1 /\
     dump_started_time w = Some t0 /\
     (clock w - t0 <= dump_timeout)%Q) ->
  app_slot_kept w (final (run_iteration w)) /\
  WebSocket.get_state "app" (websocket_server (final (run_iteration w)))
  = WebSocket.get_state "app" (websocket_server w).
Proof.
  intros H.
  assert (Hk : app_slot_kept w (final (run_iteration w))).
  { apply iteration_after_dumping;
      [ exact app_slot_kept_refl | exact app_slot_kept_trans | |
        exact app_slot_kept_carriage_reset | exact app_slot_kept_checks | ].
    - destruct H as [Hst|(config & t0 & Hc & Hs & Ht & Hlate)].
      + apply run_dumping_idle; rewrite Hst; discriminate.
      + eapply run_dumping_in_progress; eassumption.
    - intros v Hv. rewrite run_state_branch, Hv.
      destruct H as [Hst|(config & t0 & Hc & _)].
      + rewrite Hst. apply app_slot_kept_waiting_vision.
      + destruct (state w); cbn in Hc; try discriminate; apply app_slot_kept_refl. }
  split; [exact Hk|]. apply hub_view_frame. exact Hk.
Qed.

(** ** The dump command, from the text to the carriage *)

(** X20. A [dump_container] message of the app read in IDLE, whose
    [container_type] is plastic or aluminum, starts the dump: the state
    becomes DUMPING_PLASTIC or DUMPING_ALUMINUM, the start time is the
    clock reading, command bit 4 (left) or 5 (right) is raised, and
    [container_dumped] with that type is emitted; the slot of the app is
    left empty. *)
Theorem dump_container_starts (plastic : bool) (msg : string) (data : dict) (w : World) :
  let kind := if plastic then "plastic" else "aluminum" in
  WebSocket.get_state "app" (websocket_server w) = msg ->
  msg <> "" ->
  json_loads msg = Decoded (JObj data) ->
  dict_get "command" data = JStr "dump_container" ->
  normalized_param data = JStr kind ->
  exists w',
    idle_commands w = Ret tt w' /\
    state w' = (if plastic then DUMPING_PLASTIC else DUMPING_ALUMINUM) /\
    dump_started_time w' = Some (clock w) /\
    command_word w' = Z.lor (command_word w) (Z.shiftl 1 (if plastic then 4 else 5)) /\
    outbox w' =
      (outbox w ++
       [("app", event "container_dumped" [("container_type", JStr kind)] (clock w))])%list /\
    WebSocket.get_state "app" (websocket_server w') = "".
Proof.
  cbn zeta. intros Hmsg Hne Hj Hcmd Hparam.
  unfold idle_commands. unfold bind at 1. rewrite ws_get_command_run, Hmsg.
  apply String.eqb_neq in Hne. rewrite Hne. cbn [negb].
  destruct (parse_command_object msg data (drained "app" w)) as (params & Hp & Hpar).
  { apply String.eqb_neq. exact Hne. }
  { exact Hj. }
  unfold drained in Hp. unfold bind at 1. rewrite Hp, Hcmd. cbn [truthy]. cbn.
  unfold _dispatch_command. cbn. unfold bind at 1. rewrite Hpar, Hparam.
  assert (Hempty : WebSocket.get_state "app"
                     (snd (WebSocket.get_command "app" (websocket_server w))) = "").
  { rewrite get_state_lookup, get_command_slots.
    destruct (WebSocket.client_messages (websocket_server w) !! "app") eqn:E.
    - rewrite lookup_insert_eq. reflexivity.
    - rewrite E. reflexivity. }
  destruct plastic; unfold handle_container_dump; exec;
    (eexists; split; [reflexivity|]); unfold outbox, command_word; cbn;
    rewrite ?get_command_sent; repeat apply conj; try reflexivity; exact Hempty.
Qed.

(** X21. The variant of the vision handler without events does to the PLC
    exactly what the variant with events does, and touches nothing else: no
    message, no flag, no timer. *)
Theorem vision_response_variants_agree (vision_response : string) (w : World) :
  exists p,
    _handle_vision_response vision_response w = Ret tt (set_PLC p w) /\
    PLC (final (_handle_vision_response_with_events vision_response w)) = p /\
    (p = PLC w \/
     p = PLC.cmd_radxa_detected_bottle (PLC w) \/
     p = PLC.cmd_radxa_detected_bank (PLC w)).
Proof.
  assert (Hid : set_PLC (PLC w) w = w) by (destruct w; reflexivity).
  unfold _handle_vision_response, _handle_vision_response_with_events.
  destruct (String.eqb vision_response "none"); exec;
    [exists (PLC w); rewrite Hid; auto|].
  destruct (opt_eq_str (current_plc_detection w) "plastic"
            && String.eqb vision_response "plastic"); exec;
    [eexists; repeat apply conj; [reflexivity | reflexivity | auto]|].
  destruct (opt_eq_str (current_plc_detection w) "aluminum"
            && String.eqb vision_response "aluminum"); exec;
    [eexists; repeat apply conj; [reflexivity | reflexivity | auto]|].
  exists (PLC w); rewrite Hid; auto.
Qed.
(** ** The loop does not raise *)








































End Coordinator.

(** * The statements at work on concrete runs *)

(** C1 on [waiting_world]: plastic confirmed by vision. *)
Lemma vision_fusion_witness :
  state waiting_world = WAITING_VISION /\
  exists w2,
    run_state JsonText.loads waiting_world = Ret tt w2 /\
    state w2 = IDLE /\
    bit 7 (command_word w2) = 1.
Proof.
  split; [reflexivity|].
  destruct (vision_fusion JsonText.loads waiting_world
              (final (waiting_vision_collect waiting_world)) "plastic" "plastic")
    as (w2 & Hrun & Hst & _ & _ & _ & Hpp & _).
  - reflexivity.
  - vm_compute. reflexivity.
  - vm_compute. reflexivity.
  - vm_compute. reflexivity.
  - exists w2. destruct (Hpp eq_refl eq_refl) as (_ & Hbit & _). auto.
Defined.

(** C2 on [dumping_world]: the left sensor is reached. *)
Lemma dumping_completion_witness :
  state dumping_world = DUMPING_PLASTIC /\
  exists w',
    run_dumping dumping_world = Ret tt w' /\
    command_word w' = 0 /\
    state w' = IDLE.
Proof.
  split; [reflexivity|].
  destruct (dumping_completion DUMPING_PLASTIC
              (mk_dumping_config PLC.get_state_left_sensor_carriage "plastic"
                 PLC.get_bottle_count "carriage_left_timeout"
                 "Таймаут движения каретки влево")
              dumping_world)
    as (_ & _ & Hok & _).
  - reflexivity.
  - reflexivity.
  - destruct Hok as (w' & Hrun & Hcmd & _ & Hst & _); [vm_compute; reflexivity|].
    exists w'. auto.
Defined.

(** C3 on [veil_fell_world]: a can is in the receiver. *)
Lemma arming_token_witness :
  prev_veil_state veil_fell_world = 1 /\
  exists w',
    idle_veil veil_fell_world = Ret tt w' /\
    state w' = WAITING_VISION /\
    vision_requests w' = [("vision", Raw "bank_exist")].
Proof.
  split; [reflexivity|].
  destruct (arming_token veil_fell_world)
    as (token & detection & w' & Hrun & Hst & _ & _ & _ & Hout & _ & Hbank & _).
  - reflexivity.
  - vm_compute. reflexivity.
  - left. reflexivity.
  - exists w'. repeat apply conj; [exact Hrun | exact Hst |].
    destruct Hbank as [-> _]; [vm_compute; discriminate | vm_compute; reflexivity |].
    unfold vision_requests. rewrite Hout. reflexivity.
Defined.

(** C3 as stated fails: with a can in the receiver, the token that the loop
    sends to the vision peer is ["bank_exist"]. *)
Lemma arming_token_counterexample :
  vision_requests (run JsonText.loads can_inserted started)
    = [("vision", Raw "bank_exist")] /\
  Raw "bank_exist" <> Raw "bottle_exist".
Proof. split; [vm_compute; reflexivity | discriminate]. Qed.

(** C4 on [error_world]: [restore_device] leaves ERROR. *)
Lemma error_state_commands_witness :
  state error_world = ERROR /\
  state (final (run_state JsonText.loads error_world)) = IDLE.
Proof.
  split; [reflexivity|].
  destruct (error_state_commands JsonText.loads error_world
              (command_text "restore_device" "none")
              [("command", JStr "restore_device"); ("container_type", JStr "none")]
              (JStr "restore_device"))
    as (_ & _ & _ & Hrestore & _).
  - reflexivity.
  - vm_compute. reflexivity.
  - vm_compute. discriminate.
  - vm_compute. reflexivity.
  - reflexivity.
  - reflexivity.
  - destruct (Hrestore eq_refl) as (_ & Hst & _). exact Hst.
Defined.

(** C5 on [two_edges]: two falling edges over the same bottle, one trigger. *)
Lemma inference_once_witness :
  receiver_occupied occupied_world /\
  exists l,
    vision_requests (run JsonText.loads two_edges occupied_world)
      = (vision_requests occupied_world ++ l)%list /\
    (length l <= 1)%nat.
Proof.
  assert (Hocc : receiver_occupied occupied_world) by (left; reflexivity).
  split; [exact Hocc|].
  destruct (inference_once JsonText.loads two_edges occupied_world) as [(l & Hl & Hlen & _) _].
  - exact Hocc.
  - repeat constructor; cbn; auto.
  - exists l. auto.
Defined.

(** C5 as stated fails in its last part: in IDLE the guard is false although
    the receiver holds a bottle, before the veil has fallen. *)
Lemma inference_once_counterexample :
  let w := run JsonText.loads bottle_under_hand started in
  state w = IDLE /\
  ~ (_inference_requested w = false <-> ~ receiver_occupied w).
Proof.
  cbn zeta. split; [vm_compute; reflexivity|].
  intros [Hno _]. apply Hno; [vm_compute; reflexivity|].
  left. vm_compute. reflexivity.
Qed.

(** C6 on [latched_world], for bit 7: the timeout check is due and fires. *)
Lemma latch_clearing_witness :
  bit 7 (command_word latched_world) = 1 /\
  reset_due carriage_moving_bottle latched_world /\
  exists w',
    carriage_reset carriage_moving_bottle PLC.cmd_radxa_stop_detected_bottle
      set_carriage_moving_bottle latched_world = Ret tt w' /\
    bit 7 (command_word w') = 0 /\
    carriage_moving_bottle w' = false.
Proof.
  assert (Hdue : reset_due carriage_moving_bottle latched_world).
  { split; [reflexivity|]. exists 100%Q. repeat apply conj.
    - reflexivity.
    - intros H. vm_compute in H. discriminate.
    - vm_compute. reflexivity. }
  destruct (latch_clearing JsonText.loads 7 carriage_moving_bottle
              PLC.cmd_radxa_stop_detected_bottle set_carriage_moving_bottle latched_world)
    as (_ & Hfire & _).
  - left. repeat split; reflexivity.
  - destruct (Hfire Hdue) as (w' & Hrun & Hbit & _ & Hflag & _).
    split; [vm_compute; reflexivity|]. split; [exact Hdue|].
    exists w'. auto.
Defined.

(** C6 as stated fails: on the happy path the dump completes 0.8 s after the
    fusion, and the full clear lowers bit 7 although the timeout check is
    not due and has not run (the flag is still set). *)
Lemma latch_clearing_counterexample :
  let before :=
    fold_left env_step [status_reads 130; clock_reads 101]
      (run JsonText.loads happy_path_to_dump started) in
  let after := final (run_iteration JsonText.loads before) in
  after = run JsonText.loads happy_path started /\
  bit 7 (command_word before) = 1 /\
  ~ reset_due carriage_moving_bottle before /\
  bit 7 (command_word after) = 0 /\
  carriage_moving_bottle after = true.
Proof.
  cbn zeta. repeat apply conj; try (vm_compute; reflexivity).
  intros (_ & t0 & Ht & _ & Hlate).
  vm_compute in Ht. injection Ht as <-. vm_compute in Hlate. discriminate.
Qed.

(** C7 on [error_world]: the app slot is read twice while vision talks. *)
Lemma get_command_one_shot_witness :
  let h1 := snd (WebSocket.get_command "app" (websocket_server error_world)) in
  fst (WebSocket.get_command "app" (websocket_server error_world))
    = command_text "restore_device" "none" /\
  fst (WebSocket.get_command "app"
         (hub_after [peer_sends "vision" "plastic"]
            (set_websocket_server h1 error_world))) = "".
Proof.
  cbn zeta.
  destruct (get_command_one_shot "app" [peer_sends "vision" "plastic"] error_world)
    as (Hfirst & _ & _ & _ & Hsecond).
  - reflexivity.
  - split; [rewrite Hfirst; vm_compute; reflexivity | exact Hsecond].
Defined.

(** C8 on [garbage_world]: the text is dropped. *)
Lemma protocol_misuse_witness :
  WebSocket.get_state "app" (websocket_server garbage_world) = "hello" /\
  idle_commands JsonText.loads garbage_world = Ret tt (drained "app" garbage_world) /\
  outbox (drained "app" garbage_world) = outbox garbage_world.
Proof.
  destruct (protocol_misuse JsonText.loads garbage_world "hello")
    as (Hout & _ & _ & Hdrop & _).
  - vm_compute. reflexivity.
  - discriminate.
  - repeat apply conj; [vm_compute; reflexivity | | exact Hout].
    apply Hdrop. vm_compute. reflexivity.
Defined.

(** C8 as stated fails: the iteration that reads the text ["hello"] from the
    app slot emits nothing, so no [command_error] either. *)
Lemma protocol_misuse_counterexample :
  JsonText.loads "hello" = JSONDecodeError /\
  WebSocket.get_state "app"
    (hub_after [peer_sends "app" "hello"] (run JsonText.loads app_connects started))
    = "hello" /\
  outbox (run JsonText.loads app_sends_garbage started)
    = outbox (run JsonText.loads app_connects started) /\
  WebSocket.get_state "app"
    (websocket_server (run JsonText.loads app_sends_garbage started)) = "".
Proof. repeat apply conj; vm_compute; reflexivity. Qed.

(** X22 at [started]: the app registers, is read once, then talks. *)
Lemma just_connected_read_once_witness :
  let h := websocket_server started in
  fst (WebSocket.is_client_just_connected "app"
         (WebSocket.handler_register "app" 1 100 h)) = true /\
  fst (WebSocket.is_client_just_connected "app"
         (hub_after [peer_sends "app" "hello"]
            (set_websocket_server
               (snd (WebSocket.is_client_just_connected "app" h)) started))) = false.
Proof.
  cbn zeta.
  destruct (just_connected_read_once "app" [peer_sends "app" "hello"] started)
    as (Hreg & Hlater).
  - reflexivity.
  - destruct (Hreg 1%nat 100%Q) as (Hfirst & _). split; [exact Hfirst | exact Hlater].
Defined.

(** C9.  The code where the claim fails: the app registers and sends one
    message before the coordinator reads the flag.  The message handler has
    rebuilt the slot without the flag, so the read returns false where the
    claim says true, and the loop does not greet the app with
    [device_info].  With no message in between the read returns true and
    the greeting is sent; a one-shot read of the message in between, which
    updates the slot in place, keeps the flag armed. *)
Theorem just_connected_lost_on_message :
  let registered := hub_after [peer_registers "app" 1] started in
  let talked := hub_after [peer_registers "app" 1; peer_sends "app" "hello"] started in
  fst (WebSocket.is_client_just_connected "app" registered) = true /\
  fst (WebSocket.is_client_just_connected "app"
         (snd (WebSocket.get_command "app" registered))) = true /\
  WebSocket.client_messages talked !! "app" = Some (WebSocket.mk_slot "hello" 100 None) /\
  fst (WebSocket.is_client_just_connected "app" talked) = false /\
  map wire_name (outbox (run JsonText.loads [[peer_registers "app" 1]] started))
    = ["device_info"] /\
  map wire_name
    (outbox (run JsonText.loads [[peer_registers "app" 1; peer_sends "app" "hello"]] started))
    = [].
Proof. repeat apply conj; vm_compute; reflexivity. Qed.

(** C10 at [started]: a dump of glass. *)
Lemma dump_unknown_type_is_silent_witness :
  JStr "glass" <> JStr "plastic" /\
  handle_container_dump (JStr "glass") started = Ret tt started /\
  _dispatch_command (JStr "dump_container")
    [("command", JStr "dump_container"); ("param", JStr "glass")] started
  = Ret true started.
Proof.
  assert (H1 : JStr "glass" <> JStr "plastic") by discriminate.
  assert (H2 : JStr "glass" <> JStr "aluminum") by discriminate.
  split; [exact H1|].
  apply (dump_unknown_type_is_silent (JStr "glass")
           [("command", JStr "dump_container"); ("param", JStr "glass")] started H1 H2).
  reflexivity.
Defined.

(** The happy path for a plastic bottle, from start-up to the accepted
    container: what the loop sends, in order. *)
Example happy_path_messages :
  map wire_name (outbox (run JsonText.loads happy_path started)) =
  ["device_info"; "receiver_not_empty"; "container_detected"; "bottle_exist";
   "container_recognized"; "container_dumped"; "container_accepted"].
Proof. vm_compute. reflexivity. Qed.

(** * The further statements on concrete inputs *)

(** X1 on the word 64: bit 7 is raised, bit 6 stays. *)
Lemma set_bit_get_bit_witness :
  let r' := fst (ModbusRegister.set_bit 7 1 (ModbusRegister.mk 25 64)) in
  ModbusRegister.get_bit 7 r' = 1 /\ ModbusRegister.get_bit 6 r' = 1.
Proof.
  cbn zeta.
  destruct (set_bit_get_bit 7 6 1 (ModbusRegister.mk 25 64)) as (H7 & H6 & _); [lia | lia |].
  split; [exact H7|]. rewrite H6 by lia. reflexivity.
Defined.

(** X2 on the word 64, bits 7 and 4. *)
Lemma set_bit_compose_witness :
  fst (ModbusRegister.set_bit 7 1 (fst (ModbusRegister.set_bit 4 1 (ModbusRegister.mk 25 64))))
  = fst (ModbusRegister.set_bit 4 1 (fst (ModbusRegister.set_bit 7 1 (ModbusRegister.mk 25 64)))).
Proof.
  destruct (set_bit_compose 7 4 1 1 (ModbusRegister.mk 25 64)) as (_ & Hcomm); [lia | lia |].
  apply Hcomm. lia.
Defined.

(** X3 for the full clear, at start-up. *)
Lemma plc_command_effect_witness :
  In PLC.cmd_full_clear_register plc_commands /\
  PLC.slave_writes (PLC.cmd_full_clear_register (PLC started)) = [(24, 500); (25, 0)].
Proof.
  assert (Hin : In PLC.cmd_full_clear_register plc_commands).
  { unfold plc_commands. do 11 right. left. reflexivity. }
  split; [exact Hin|].
  destruct (plc_command_effect PLC.cmd_full_clear_register (PLC started) Hin)
    as (_ & _ & _ & _ & _ & _ & Hw & _).
  rewrite Hw. reflexivity.
Defined.

(** X6 on [error_world]: reading the vision slot leaves the app slot alone. *)
Lemma peer_isolation_witness :
  "vision" <> "app" /\
  WebSocket.get_state "app"
    (snd (WebSocket.get_command "vision" (websocket_server error_world)))
  = command_text "restore_device" "none".
Proof.
  assert (Hne : "vision" <> "app") by discriminate.
  split; [exact Hne|].
  destruct (peer_isolation "vision" "app" (websocket_server error_world) Hne
              (snd (WebSocket.get_command "vision" (websocket_server error_world))))
    as (Hs & _).
  - right. right. right. left. reflexivity.
  - rewrite Hs. vm_compute. reflexivity.
Defined.

(** X11 for [dump_container], at start-up. *)
Lemma registry_total_witness :
  registry_lookup "dump_container" _command_handlers = Some (h_handle_container_dump, true) /\
  exists w', _dispatch_command (JStr "dump_container") [("param", JStr "plastic")] started
             = Ret true w'.
Proof.
  split; [reflexivity|].
  apply (registry_total "dump_container" h_handle_container_dump true). reflexivity.
Defined.

(** X12 for [restore_device] received in IDLE. *)
Lemma stub_commands_witness :
  In "restore_device" stub_names /\
  state (final (_dispatch_command (JStr "restore_device") [] started)) = IDLE.
Proof.
  assert (Hin : In "restore_device" stub_names) by (cbn; auto).
  split; [exact Hin|].
  rewrite (stub_commands "restore_device" [] started Hin). reflexivity.
Defined.

(** X14 for an empty configuration object. *)
Lemma device_init_config_witness :
  truthy (JObj []) = false /\
  _dispatch_command (JStr "device_init") [("param", JObj [])] started = Ret true started.
Proof.
  split; [reflexivity|].
  destruct (device_init_config (JObj []) [("param", JObj [])] started) as (Hempty & _).
  - reflexivity.
  - apply Hempty. reflexivity.
Defined.

(** X15 for an unknown type. *)
Lemma container_unloaded_ack_witness :
  exists w',
    _dispatch_command (JStr "container_unloaded") [("param", JStr "glass")] started
      = Ret true w' /\
    PLC w' = PLC started.
Proof.
  destruct (container_unloaded_ack (JStr "glass") [("param", JStr "glass")] started)
    as (w' & Hrun & _ & _ & _ & _ & Hplc).
  - reflexivity.
  - exists w'. split; [exact Hrun|]. apply Hplc; discriminate.
Defined.

(** X16 on [timed_out_world]: the coordinator gives up. *)
Lemma vision_timeout_gives_up_witness :
  state (final (run_state JsonText.loads timed_out_world)) = IDLE /\
  map wire_name (outbox (final (run_state JsonText.loads timed_out_world)))
    = ["container_not_recognized"].
Proof.
  destruct (vision_timeout_gives_up JsonText.loads timed_out_world
              (final (waiting_vision_collect timed_out_world)) 100%Q) as (Hlate & _).
  - reflexivity.
  - vm_compute. reflexivity.
  - left. reflexivity.
  - reflexivity.
  - destruct Hlate as (w2 & Hrun & Hst & _ & _ & _ & _ & _ & Hout).
    + vm_compute. reflexivity.
    + rewrite Hrun. cbn [final]. split; [exact Hst|]. rewrite Hout. reflexivity.
Defined.

(** X19 on [busy_world]: the dump command waits in the slot. *)
Lemma app_commands_deferred_witness :
  state busy_world = WAITING_VISION /\
  WebSocket.get_state "app"
    (websocket_server (final (run_iteration JsonText.loads busy_world)))
  = command_text "dump_container" "plastic".
Proof.
  assert (Hst : state busy_world = WAITING_VISION) by reflexivity.
  split; [exact Hst|].
  destruct (app_commands_deferred JsonText.loads busy_world (or_introl Hst)) as (_ & Hmsg).
  rewrite Hmsg. vm_compute. reflexivity.
Defined.

(** X20 at start-up: the app asks for a dump of plastic. *)
Lemma dump_container_starts_witness :
  exists w',
    idle_commands JsonText.loads (fold_left env_step app_asks_dump started) = Ret tt w' /\
    state w' = DUMPING_PLASTIC /\
    bit 4 (command_word w') = 1.
Proof.
  pose proof (dump_container_starts JsonText.loads true
                (command_text "dump_container" "plastic")
                [("command", JStr "dump_container"); ("container_type", JStr "plastic")]
                (fold_left env_step app_asks_dump started)) as H.
  cbn zeta in H.
  destruct H as (w' & Hrun & Hst & _ & Hcmd & _).
  - vm_compute. reflexivity.
  - vm_compute. discriminate.
  - vm_compute. reflexivity.
  - reflexivity.
  - reflexivity.
  - exists w'. split; [exact Hrun|]. split; [exact Hst|]. rewrite Hcmd. reflexivity.
Defined.

